(** * Provider routing core of automaker: a shallow embedding

    The development follows the TypeScript sources:
    - [libs/types/src/provider-profile.ts]   (profiles, model mapper, SSRF guard)
    - [apps/server/src/providers/provider-factory.ts]  (registry, fallback chain)
    - [apps/server/src/providers/anthropic-proxy-provider.ts]  (environment allowlist)
    - [apps/server/src/providers/openai-proxy-provider.ts]  (SSE decoding)
    - the provider profile service (CRUD and connection test).

    JavaScript strings are modelled as [string] (sequences of 8-bit characters);
    [toLowerCase] acts on the letters A-Z, as JavaScript does on ASCII text.
    JavaScript numbers that the code uses as integers (priorities, timeouts,
    HTTP statuses, clock readings) are modelled as [Z]; the one sum that can
    leave the range in which a double holds every integer, [maxPriority + 1],
    is rounded as the sum of doubles is.  A function that may throw returns a
    [result]; where the code catches whatever was thrown, the thrown value
    is a [Thrown]. *)

From Stdlib Require Import String Ascii ZArith Lia Bool Permutation Sorted DecimalString.
From stdpp Require Import gmap strings list fin_maps sorting.

Local Open Scope Z_scope.

#[local] Set Warnings "-register-all".

(* ===================================================================== *)
(** * Part I: the model *)
(* ===================================================================== *)

(** ** JavaScript strings *)

Definition lower_ascii (c : ascii) : ascii :=
  let n := N_of_ascii c in
  if ((65 <=? n) && (n <=? 90))%N then ascii_of_N (n + 32) else c.

(** [s.toLowerCase()] *)
Fixpoint toLowerCase (s : string) : string :=
  match s with
  | EmptyString => EmptyString
  | String c s' => String (lower_ascii c) (toLowerCase s')
  end.

(** [s.startsWith(p)] *)
Definition startsWith (s p : string) : bool := String.prefix p s.

(** [s.includes(sub)] *)
Fixpoint includes (s sub : string) : bool :=
  String.prefix sub s ||
  match s with
  | EmptyString => false
  | String _ s' => includes s' sub
  end.

(** [s.slice(n)] for [0 <= n] *)
Fixpoint slice_from (n : nat) (s : string) : string :=
  match n, s with
  | O, _ => s
  | S n', String _ s' => slice_from n' s'
  | S _, EmptyString => EmptyString
  end.

(** [s.replace(/\/+$/, '')]: the trailing slashes removed. *)
Fixpoint stripTrailingSlashes (s : string) : string :=
  match s with
  | EmptyString => EmptyString
  | String c s' =>
      match stripTrailingSlashes s' with
      | EmptyString => if Ascii.eqb c "/" then EmptyString else String c EmptyString
      | r => String c r
      end
  end.

(** Truthiness of a string: non-empty. *)
Definition truthy_string (s : string) : bool :=
  match s with EmptyString => false | _ => true end.

(** The decimal rendering of an integer in a template literal. *)
Definition show_Z (z : Z) : string := NilZero.string_of_int (Z.to_int z).

(** ** Thrown values and fallible computations *)

(** A JavaScript [Error] object: [name] and [message]. *)
Record Error : Type := mkError { err_name : string; err_message : string }.

(** [new Error(message)] *)
Definition newError (message : string) : Error := mkError "Error" message.

(** A [TypeError] the language raises. *)
Definition typeError (message : string) : Error := mkError "TypeError" message.

Inductive result (A : Type) : Type :=
| Ok (a : A)
| Throw (e : Error).
Arguments Ok {A} a.
Arguments Throw {A} e.

Definition bind {A B : Type} (m : result A) (k : A -> result B) : result B :=
  match m with
  | Ok a => k a
  | Throw e => Throw e
  end.

(** [try { body } catch (error) { handler(error) }] *)
Definition try_catch {A : Type} (body : result A) (handler : Error -> result A) : result A :=
  match body with
  | Ok a => Ok a
  | Throw e => handler e
  end.

Notation "'let!' x ':=' m 'in' k" := (bind m (fun x => k))
  (at level 10, x name, m at level 100, k at level 200).

(** [a ?? b] and [a || b] on an optional value whose present values are truthy. *)
Definition nullish {A : Type} (a : option A) (b : A) : A :=
  match a with Some x => x | None => b end.

(** ** provider-profile.ts: the data model *)

Inductive ProviderProfileType : Type :=
| AnthropicCompatible
| OpenaiCompatible.

Definition ProviderProfileType_eqb (a b : ProviderProfileType) : bool :=
  match a, b with
  | AnthropicCompatible, AnthropicCompatible => true
  | OpenaiCompatible, OpenaiCompatible => true
  | _, _ => false
  end.

Definition show_type (t : ProviderProfileType) : string :=
  match t with
  | AnthropicCompatible => "anthropic-compatible"
  | OpenaiCompatible => "openai-compatible"
  end.

Record ModelMappingEntry : Type := mkMapping {
  localModel : string;
  remoteModel : string
}.

(** A JSON value, as [JSON.parse] and [response.json()] deliver it.  A number
    keeps the text of its literal. *)
Inductive json : Type :=
| JNull
| JBool (b : bool)
| JNum (literal : string)
| JStr (s : string)
| JArr (items : list json)
| JObj (members : list (string * json)).

Record ConnectionTestResult : Type := mkTest {
  success : bool;
  responseTimeMs : option Z;
  error : option string;
  (** [data.data.map((m) => m.id)]: each id is a JSON value or [undefined] *)
  availableModels : option (list (option json));
  testedAt : string
}.

Record ProviderProfile : Type := mkProfile {
  id : string;
  name : string;
  type : ProviderProfileType;
  baseUrl : string;
  apiKey : string;
  modelMapping : list ModelMappingEntry;
  isActive : bool;
  priority : Z;
  timeout : option Z;
  description : option string;
  customCaCert : option string;
  allowInternalUrls : option bool;
  rateLimitRpm : option Z;
  lastConnectionTest : option ConnectionTestResult;
  createdAt : string;
  updatedAt : string
}.

Record CreateProviderProfileInput : Type := mkCreate {
  c_name : string;
  c_type : ProviderProfileType;
  c_baseUrl : string;
  c_apiKey : string;
  c_modelMapping : option (list ModelMappingEntry);
  c_isActive : option bool;
  c_priority : option Z;
  c_timeout : option Z;
  c_description : option string;
  c_customCaCert : option string;
  c_allowInternalUrls : option bool;
  c_rateLimitRpm : option Z
}.

Record UpdateProviderProfileInput : Type := mkUpdate {
  u_id : string;
  u_name : option string;
  u_type : option ProviderProfileType;
  u_baseUrl : option string;
  u_apiKey : option string;
  u_modelMapping : option (list ModelMappingEntry);
  u_isActive : option bool;
  u_priority : option Z;
  u_timeout : option Z;
  u_description : option string;
  u_customCaCert : option string;
  u_allowInternalUrls : option bool;
  u_rateLimitRpm : option Z
}.

Record SsrfValidationResult : Type := mkSsrf {
  safe : bool;
  reason : option string;
  bypassedByUser : option bool
}.

Definition DEFAULT_PROVIDER_TIMEOUT : Z := 30000.
Definition DEFAULT_RATE_LIMIT_RPM : Z := 0.

(** ** provider-profile.ts: the model mapper *)

Definition mapModelToRemote (local : string) (profile : ProviderProfile) : string :=
  match List.find (fun m => String.eqb (toLowerCase (localModel m)) (toLowerCase local))
                  (modelMapping profile) with
  | Some mapping => remoteModel mapping
  | None => local
  end.

Definition mapModelFromRemote (remote : string) (profile : ProviderProfile) : string :=
  match List.find (fun m => String.eqb (toLowerCase (remoteModel m)) (toLowerCase remote))
                  (modelMapping profile) with
  | Some mapping => localModel mapping
  | None => remote
  end.

(** ** provider-profile.ts: the SSRF guard *)

(** Regular expressions of the guard, matched by derivatives.  A pattern is
    anchored at both ends; a source pattern with no [$] ends in [AnyTail]. *)
Inductive regex : Type :=
| REmpty
| REps
| RClass (p : ascii -> bool)
| RSeq (r1 r2 : regex)
| RAlt (r1 r2 : regex)
| RStar (r : regex).

Fixpoint nullable (r : regex) : bool :=
  match r with
  | REmpty => false
  | REps => true
  | RClass _ => false
  | RSeq r1 r2 => nullable r1 && nullable r2
  | RAlt r1 r2 => nullable r1 || nullable r2
  | RStar _ => true
  end.

Fixpoint deriv (c : ascii) (r : regex) : regex :=
  match r with
  | REmpty => REmpty
  | REps => REmpty
  | RClass p => if p c then REps else REmpty
  | RSeq r1 r2 =>
      if nullable r1 then RAlt (RSeq (deriv c r1) r2) (deriv c r2)
      else RSeq (deriv c r1) r2
  | RAlt r1 r2 => RAlt (deriv c r1) (deriv c r2)
  | RStar r1 => RSeq (deriv c r1) (RStar r1)
  end.

Fixpoint matches (r : regex) (s : string) : bool :=
  match s with
  | EmptyString => nullable r
  | String c s' => matches (deriv c r) s'
  end.

(** [pattern.test(s)] for a pattern written [/^...$/]. *)
Definition test (pattern : regex) (s : string) : bool := matches pattern s.

Definition RChar (c : ascii) : regex := RClass (Ascii.eqb c).
(** a literal character under the [i] flag *)
Definition RCharI (c : ascii) : regex := RClass (fun x => Ascii.eqb (lower_ascii x) (lower_ascii c)).
(** [\d] *)
Definition RDigit : regex := RClass (fun x => ((48 <=? N_of_ascii x) && (N_of_ascii x <=? 57))%N).
(** [[lo-hi]] *)
Definition RRange (lo hi : ascii) : regex :=
  RClass (fun x => ((N_of_ascii lo <=? N_of_ascii x) && (N_of_ascii x <=? N_of_ascii hi))%N).
Definition ROpt (r : regex) : regex := RAlt r REps.
Definition RPlus (r : regex) : regex := RSeq r (RStar r).
Definition AnyTail : regex := RStar (RClass (fun _ => true)).

Fixpoint RLit (s : string) : regex :=
  match s with
  | EmptyString => REps
  | String c s' => RSeq (RChar c) (RLit s')
  end.

Fixpoint RLitI (s : string) : regex :=
  match s with
  | EmptyString => REps
  | String c s' => RSeq (RCharI c) (RLitI s')
  end.

Fixpoint RConcat (rs : list regex) : regex :=
  match rs with
  | [] => REps
  | r :: rs' => RSeq r (RConcat rs')
  end.

(** [\.\d+] *)
Definition dotDigits : regex := RSeq (RChar ".") (RPlus RDigit).

Definition internalPatterns : list regex :=
  [ RLitI "localhost";                                             (* /^localhost$/i *)
    RConcat [RLit "127"; dotDigits; dotDigits; dotDigits];         (* /^127\.\d+\.\d+\.\d+$/ *)
    RConcat [ROpt (RChar "["); RLit "::1"; ROpt (RChar "]")];      (* /^\[?::1\]?$/ *)
    RConcat [RLit "10"; dotDigits; dotDigits; dotDigits];          (* /^10\.\d+\.\d+\.\d+$/ *)
    RConcat [RLit "172.";
             RAlt (RSeq (RChar "1") (RRange "6" "9"))
                  (RAlt (RSeq (RChar "2") RDigit)
                        (RSeq (RChar "3") (RRange "0" "1")));
             dotDigits; dotDigits];                                (* /^172\.(1[6-9]|2\d|3[01])\.\d+\.\d+$/ *)
    RConcat [RLit "192.168"; dotDigits; dotDigits];                (* /^192\.168\.\d+\.\d+$/ *)
    RConcat [RLit "169.254"; dotDigits; dotDigits];                (* /^169\.254\.\d+\.\d+$/ *)
    RLit "0.0.0.0";                                                (* /^0\.0\.0\.0$/ *)
    RConcat [ROpt (RChar "["); RLitI "fe80:"; AnyTail];            (* /^\[?fe80:/i *)
    RConcat [ROpt (RChar "["); RLitI "fc00:"; AnyTail];            (* /^\[?fc00:/i *)
    RConcat [ROpt (RChar "["); RLitI "fd00:"; AnyTail] ].          (* /^\[?fd00:/i *)

(** What the guard reads of a parsed [URL]. *)
Record URL : Type := mkURL { protocol : string; hostname : string }.

Definition schemeReason : string := "Only HTTP and HTTPS protocols are allowed".

Definition internalReason (host : string) : string :=
  "Internal/private addresses are not allowed: " +:+ host +:+
  ". Enable " +:+ String (ascii_of_nat 34) "Allow Internal URLs" +:+
  String (ascii_of_nat 34) " to bypass this check.".

Definition invalidReason (message : string) : string := "Invalid URL: " +:+ message.

Section SsrfGuard.

(** [new URL(url)] of the platform: the parsed URL, or the [TypeError] it throws. *)
Variable newURL : string -> result URL.

(** The [for (const pattern of internalPatterns)] loop with its two returns. *)
Fixpoint scanPatterns (patterns : list regex) (host : string) (allow : bool)
  : option SsrfValidationResult :=
  match patterns with
  | [] => None
  | pattern :: rest =>
      if test pattern host then
        if allow then Some (mkSsrf true None (Some true))
        else Some (mkSsrf false (Some (internalReason host)) None)
      else scanPatterns rest host allow
  end.

Definition validateBaseUrlSsrf (url : string) (allowInternalUrls : option bool)
  : result SsrfValidationResult :=
  let allow := nullish allowInternalUrls false in
  try_catch
    (let! parsed := newURL url in
     if negb (existsb (String.eqb (protocol parsed)) ["http:"; "https:"]) then
       Ok (mkSsrf false (Some schemeReason) None)
     else
       let host := toLowerCase (hostname parsed) in
       match scanPatterns internalPatterns host allow with
       | Some r => Ok r
       | None => Ok (mkSsrf true None None)
       end)
    (fun error => Ok (mkSsrf false (Some (invalidReason (err_message error))) None)).

End SsrfGuard.

(** ** provider-factory.ts: providers and the registry *)

(** Provider instances.  The two proxy classes carry their profile; an instance
    of a class defined outside these files ([ClaudeProvider], [CursorProvider],
    or one registered at run time) is known by what its [getName()] reports. *)
Inductive BaseProvider : Type :=
| AnthropicProxyProvider (profile : ProviderProfile)
| OpenAIProxyProvider (profile : ProviderProfile)
| ExternalProvider (providerName : string).

Definition getName (p : BaseProvider) : string :=
  match p with
  | AnthropicProxyProvider profile => "anthropic-proxy:" +:+ name profile
  | OpenAIProxyProvider profile => "openai-proxy:" +:+ name profile
  | ExternalProvider n => n
  end.

Record ProviderRegistration : Type := mkRegistration {
  factory : unit -> BaseProvider;
  aliases : option (list string);
  canHandleModel : option (string -> bool);
  reg_priority : option Z
}.

(** The [Map<string, ProviderRegistration>]: its entries in insertion order,
    one per key. *)
Definition Registry : Type := list (string * ProviderRegistration).

(** [Map.prototype.set]: an existing key keeps its place and takes the new value. *)
Fixpoint map_set (key : string) (value : ProviderRegistration) (m : Registry) : Registry :=
  match m with
  | [] => [(key, value)]
  | (k, v) :: rest =>
      if String.eqb k key then (k, value) :: rest else (k, v) :: map_set key value rest
  end.

(** [Map.prototype.get] *)
Fixpoint map_get (key : string) (m : Registry) : option ProviderRegistration :=
  match m with
  | [] => None
  | (k, v) :: rest => if String.eqb k key then Some v else map_get key rest
  end.

Definition registerProvider (providerName : string) (registration : ProviderRegistration)
  (providerRegistry : Registry) : Registry :=
  map_set (toLowerCase providerName) registration providerRegistry.

(** [(b.priority ?? 0) - (a.priority ?? 0)] *)
Definition comparePriority (a b : string * ProviderRegistration) : Z :=
  nullish (reg_priority (snd b)) 0 - nullish (reg_priority (snd a)) 0.

(** [Array.prototype.sort(compare)] is a stable sort; every stable sort returns
    the same array for a consistent comparator.  It is written here as an
    insertion that puts an entry before the first one it does not compare
    greater than. *)
Fixpoint insertSorted (x : string * ProviderRegistration) (l : Registry) : Registry :=
  match l with
  | [] => [x]
  | y :: rest => if comparePriority x y <=? 0 then x :: y :: rest else y :: insertSorted x rest
  end.

Fixpoint sortByPriority (l : Registry) : Registry :=
  match l with
  | [] => []
  | x :: rest => insertSorted x (sortByPriority rest)
  end.

(** [reg.canHandleModel?.(lowerModel)] as a condition *)
Definition accepts (reg : ProviderRegistration) (lowerModel : string) : bool :=
  match canHandleModel reg with
  | Some f => f lowerModel
  | None => false
  end.

(** First loop of [getProviderNameForModel]. *)
Fixpoint firstCanHandle (registrations : Registry) (lowerModel : string) : option string :=
  match registrations with
  | [] => None
  | (n, reg) :: rest =>
      if accepts reg lowerModel then Some n else firstCanHandle rest lowerModel
  end.

(** Second loop of [getProviderNameForModel]. *)
Fixpoint firstPrefix (registrations : Registry) (lowerModel : string) : option string :=
  match registrations with
  | [] => None
  | (n, _) :: rest =>
      if startsWith lowerModel (n +:+ "-") then Some n else firstPrefix rest lowerModel
  end.

Definition getProviderNameForModel (providerRegistry : Registry) (model : string) : string :=
  let lowerModel := toLowerCase model in
  let registrations := sortByPriority providerRegistry in
  match firstCanHandle registrations lowerModel with
  | Some n => n
  | None =>
      match firstPrefix registrations lowerModel with
      | Some n => n
      | None => "claude"
      end
  end.

(** The alias loop of [getProviderByName]. *)
Fixpoint firstAlias (entries : Registry) (lowerName : string) : option ProviderRegistration :=
  match entries with
  | [] => None
  | (_, reg) :: rest =>
      if existsb (String.eqb lowerName) (nullish (aliases reg) [])
      then Some reg else firstAlias rest lowerName
  end.

(** [null] is [None]. *)
Definition getProviderByName (providerRegistry : Registry) (providerName : string)
  : option BaseProvider :=
  let lowerName := toLowerCase providerName in
  match map_get lowerName providerRegistry with
  | Some directReg => Some (factory directReg tt)
  | None =>
      match firstAlias providerRegistry lowerName with
      | Some reg => Some (factory reg tt)
      | None => None
      end
  end.

Definition getProviderForModel (providerRegistry : Registry) (modelId : string)
  : result BaseProvider :=
  let providerName := getProviderNameForModel providerRegistry modelId in
  match getProviderByName providerRegistry providerName with
  | Some provider => Ok provider
  | None =>
      match map_get "claude" providerRegistry with
      | Some claudeReg => Ok (factory claudeReg tt)
      | None => Throw (newError ("No provider found for model: " +:+ modelId))
      end
  end.

(** The [throw] of the source answers a type outside [ProviderProfileType]. *)
Definition createProviderFromProfile (profile : ProviderProfile) : BaseProvider :=
  match type profile with
  | AnthropicCompatible => AnthropicProxyProvider profile
  | OpenaiCompatible => OpenAIProxyProvider profile
  end.

(** The model-family test shared by the factory and the Claude registration. *)
Definition isClaudeModel (lowerModel : string) : bool :=
  startsWith lowerModel "claude-" ||
  existsb (fun n => includes lowerModel n) ["opus"; "sonnet"; "haiku"].

Definition isOpenAIModel (lowerModel : string) : bool :=
  startsWith lowerModel "gpt-" || startsWith lowerModel "o1" || startsWith lowerModel "o3".

Definition profileTypeFor (lowerModel : string) : option ProviderProfileType :=
  if isClaudeModel lowerModel then Some AnthropicCompatible
  else if isOpenAIModel lowerModel then Some OpenaiCompatible
  else None.

Definition matchingProfiles (profileType : ProviderProfileType) (profiles : list ProviderProfile)
  : list ProviderProfile :=
  List.filter (fun p => ProviderProfileType_eqb (type p) profileType && isActive p) profiles.

Definition getFallbackProviders (providerRegistry : Registry) (modelId : string)
  (profiles : list ProviderProfile) : result (list BaseProvider) :=
  let lowerModel := toLowerCase modelId in
  let providers :=
    match profileTypeFor lowerModel with
    | Some profileType => List.map createProviderFromProfile (matchingProfiles profileType profiles)
    | None => []
    end in
  let! standardProvider := getProviderForModel providerRegistry modelId in
  Ok (providers ++ [standardProvider]).

(** ** provider-factory.ts: execution with fallback *)

Inductive LogEntry : Type :=
| LogDebug (message : string)
| LogInfo (message : string)
| LogWarn (message : string).

Definition isWarn (e : LogEntry) : bool :=
  match e with LogWarn _ => true | _ => false end.

(** A value an operation rejects with.  JavaScript lets any value be thrown,
    and the [catch] of the loop takes whatever it is given: [error as Error]
    checks nothing. *)
Inductive Thrown : Type :=
| ThrownError (e : Error)
    (** an [Error] object *)
| ThrownUndefined
| ThrownNull
| ThrownValue (isTruthy : bool) (message : string)
    (** any other value whose [message] can be read: whether the value is
        truthy, and the text of [`${value.message}`], ["undefined"] for a
        value that has no such property *)
| ThrownUnreadable (raised : Thrown).
    (** a value whose [message] cannot be read or rendered as text, a getter
        or a conversion that throws: what the attempt throws *)

(** How a promise settles. *)
Inductive Settled (T : Type) : Type :=
| Fulfilled (value : T)
| Rejected (thrown : Thrown).
Arguments Fulfilled {T} value.
Arguments Rejected {T} thrown.

(** [lastError || ...]: whether the value is truthy.  An object is. *)
Definition truthyThrown (v : Thrown) : bool :=
  match v with
  | ThrownError _ => true
  | ThrownUndefined | ThrownNull => false
  | ThrownValue isTruthy _ => isTruthy
  | ThrownUnreadable _ => true
  end.

(** [`${lastError.message}`]: the text, or what reading it throws.  Reading a
    property of [undefined] or [null] throws a [TypeError]. *)
Definition readMessage (v : Thrown) : string + Thrown :=
  match v with
  | ThrownError e => inl (err_message e)
  | ThrownUndefined =>
      inr (ThrownError (typeError "Cannot read properties of undefined (reading 'message')"))
  | ThrownNull =>
      inr (ThrownError (typeError "Cannot read properties of null (reading 'message')"))
  | ThrownValue _ message => inl message
  | ThrownUnreadable raised => inr raised
  end.

(** What one call of [executeWithFallback] does: how it settles, the log
    records it wrote and the providers the executor was called with, both in
    order, and the state the executor's calls have left. *)
Record Execution (T State : Type) : Type := mkExecution {
  outcome : Settled T;
  logged : list LogEntry;
  invoked : list BaseProvider;
  final : State
}.
Arguments mkExecution {T State} _ _ _ _.
Arguments outcome {T State} _.
Arguments logged {T State} _.
Arguments invoked {T State} _.
Arguments final {T State} _.

Definition attemptMessage (i total : nat) (provider : BaseProvider) : string :=
  "Attempting provider " +:+ show_Z (Z.of_nat i + 1) +:+ "/" +:+ show_Z (Z.of_nat total) +:+
  ": " +:+ getName provider.

Definition failureMessage (i total : nat) (provider : BaseProvider) (message : string) : string :=
  "Provider " +:+ getName provider +:+ " failed: " +:+ message +:+ ". " +:+
  (if Z.of_nat i <? Z.of_nat total - 1 then "Trying next provider..." else "No more fallbacks.").

(** The [for] loop from index [i] on, [providers] being the candidates left,
    and the final [throw].  The executor is any function of the caller: a
    call may change the caller's state, and settles with a value or with
    whatever was thrown.  Inside the [catch] the template of the warning
    reads [lastError.message]; when that read throws, the throw leaves the
    loop and the function.  (A call that never settles leaves the function
    pending for ever; the executors here are those whose calls settle.) *)
Fixpoint fallbackLoop {T State : Type} (executor : BaseProvider -> State -> Settled T * State)
  (modelId : string) (total i : nat) (providers : list BaseProvider)
  (lastError : option Thrown) (s : State) : Execution T State :=
  match providers with
  | [] =>
      let allFailed := ThrownError (newError ("All providers failed for model: " +:+ modelId)) in
      mkExecution
        (Rejected (match lastError with
                   | Some thrown => if truthyThrown thrown then thrown else allFailed
                   | None => allFailed
                   end))
        [] [] s
  | provider :: rest =>
      let attempt := LogDebug (attemptMessage i total provider) in
      match executor provider s with
      | (Fulfilled value, s') => mkExecution (Fulfilled value) [attempt] [provider] s'
      | (Rejected thrown, s') =>
          match readMessage thrown with
          | inr raised => mkExecution (Rejected raised) [attempt] [provider] s'
          | inl message =>
              let later := fallbackLoop executor modelId total (S i) rest (Some thrown) s' in
              mkExecution (outcome later)
                (attempt :: LogWarn (failureMessage i total provider message) :: logged later)
                (provider :: invoked later)
                (final later)
          end
      end
  end.

Definition executeWithFallback {T State : Type} (providerRegistry : Registry) (modelId : string)
  (profiles : list ProviderProfile) (executor : BaseProvider -> State -> Settled T * State) (s : State)
  : Execution T State :=
  match getFallbackProviders providerRegistry modelId profiles with
  | Throw e => mkExecution (Rejected (ThrownError e)) [] [] s
  | Ok providers => fallbackLoop executor modelId (length providers) 0%nat providers None s
  end.

Section Registrations.

(** [isCursorModel] of the types package, and what the two registered
    factories construct. *)
Variable isCursorModel : string -> bool.
Variable claudeProvider cursorProvider : BaseProvider.

(** The two [registerProvider] calls the module makes when it is loaded. *)
Definition initialRegistry : Registry :=
  registerProvider "cursor"
    (mkRegistration (fun _ => cursorProvider) None (Some isCursorModel) (Some 10))
    (registerProvider "claude"
       (mkRegistration (fun _ => claudeProvider) (Some ["anthropic"]) (Some isClaudeModel) (Some 0))
       []).

End Registrations.

(** ** anthropic-proxy-provider.ts: the environment handed to the SDK *)

Definition ALLOWED_ENV_VARS : list string :=
  ["PATH"; "HOME"; "SHELL"; "TERM"; "USER"; "LANG"; "LC_ALL"].

(** One turn of the loop: [if (process.env[key]) env[key] = process.env[key]]. *)
Definition copyIfSet (process_env : gmap string string) (env : gmap string string)
  (key : string) : gmap string string :=
  match process_env !! key with
  | Some value => if truthy_string value then <[key := value]> env else env
  | None => env
  end.

Definition buildEnv (process_env : gmap string string) (profile : ProviderProfile)
  : gmap string string :=
  let env := foldl (copyIfSet process_env) ∅ ALLOWED_ENV_VARS in
  <["ANTHROPIC_API_KEY" := apiKey profile]> (<["ANTHROPIC_BASE_URL" := baseUrl profile]> env).

(** ** Reading JSON values the way JavaScript does *)

Definition dquote : ascii := ascii_of_nat 34.
Definition LF : ascii := ascii_of_nat 10.

(** A text with double quotes, written with apostrophes in their place. *)
Fixpoint quoted (s : string) : string :=
  match s with
  | EmptyString => EmptyString
  | String c s' => String (if Ascii.eqb c "'" then dquote else c) (quoted s')
  end.

(** The member an object built by [JSON.parse] holds under [key]: of two
    members with one key the later stands. *)
Fixpoint member (key : string) (members : list (string * json)) : option json :=
  match members with
  | [] => None
  | (k, v) :: rest =>
      match member key rest with
      | Some later => Some later
      | None => if String.eqb k key then Some v else None
      end
  end.

(** [v.key], where [v] is a JSON value or [undefined] ([None]) and [key] is
    no built-in property: reading a property of [null] or [undefined] throws,
    and only an object has the property. *)
Definition getProp (v : option json) (key : string) : result (option json) :=
  match v with
  | None | Some JNull => Throw (typeError ("Cannot read properties of null or undefined: " +:+ key))
  | Some (JObj members) => Ok (member key members)
  | Some _ => Ok None
  end.

(** ** The provider profile service: CRUD over the settings store *)

(** Modelled from the spec: the settings store ([settings-service.js] is not
    among the sources).  [getGlobalSettings() -> {providerProfiles}] reads the
    stored settings and [updateGlobalSettings(partial)] writes the profile
    list; the store is the sole source of truth and caches nothing. *)
Record GlobalSettings : Type := mkSettings {
  providerProfiles : option (list ProviderProfile)
}.

(** What a service method did, in order. *)
Inductive ServiceEvent : Type :=
| CalledValidateBaseUrlSsrf (url : string) (allowInternal : option bool)
| CalledGetGlobalSettings
| CalledUpdateGlobalSettings (profiles : list ProviderProfile)
| LoggedInfo (message : string).

Record World : Type := mkWorld {
  stored : GlobalSettings;
  events : list ServiceEvent
}.

Definition note (e : ServiceEvent) (w : World) : World :=
  mkWorld (stored w) (events w ++ [e]).

Definition getGlobalSettings (w : World) : GlobalSettings * World :=
  (stored w, note CalledGetGlobalSettings w).

Definition updateGlobalSettings (profiles : list ProviderProfile) (w : World) : World :=
  note (CalledUpdateGlobalSettings profiles) (mkWorld (mkSettings (Some profiles)) (events w)).

(** [profiles.length > 0 ? Math.max(...profiles.map((p) => p.priority)) : 0] *)
Definition maxPriorityOf (profiles : list ProviderProfile) : Z :=
  match profiles with
  | [] => 0
  | p :: rest => fold_left Z.max (List.map priority rest) (priority p)
  end.

(** The double nearest to an integer, ties going to the even significand.
    Every integer up to [2^53] in magnitude is a double; beyond, the doubles
    are the multiples of a power of two with a significand of 53 bits.  (The
    integers beyond the largest double, near [2^1024], are not numbers of
    the program.) *)
Definition toDouble (z : Z) : Z :=
  let a := Z.abs z in
  if a <=? 2 ^ 53 then z
  else
    let q := 2 ^ (Z.log2 a - 52) in
    let lo := a / q in
    let r := a mod q in
    let significand :=
      if 2 * r <? q then lo
      else if q <? 2 * r then lo + 1
      else if Z.even lo then lo else lo + 1 in
    Z.sgn z * (significand * q).

(** [x + 1] on a number that holds an integer: the sum is rounded to a
    double. *)
Definition plusOne (x : Z) : Z := toDouble (x + 1).

(** [a ?? b] where both sides may be absent *)
Definition orElse {A : Type} (a b : option A) : option A :=
  match a with Some x => Some x | None => b end.

(** [array.findIndex(f)]; [-1] is [None]. *)
Fixpoint findIndex {A : Type} (f : A -> bool) (l : list A) : option nat :=
  match l with
  | [] => None
  | x :: rest => if f x then Some 0%nat else option_map S (findIndex f rest)
  end.

(** [`${ssrfResult.reason}`] *)
Definition showOptional (s : option string) : string := nullish s "undefined".

Section ProfileService.

Variable newURL : string -> result URL.
(** What [randomUUID()] and [new Date().toISOString()] return in the call. *)
Variable randomUUID : string.
Variable isoNow : string.

Definition createProfile (input : CreateProviderProfileInput) (w : World)
  : result ProviderProfile * World :=
  let w1 := note (CalledValidateBaseUrlSsrf (c_baseUrl input) (c_allowInternalUrls input)) w in
  match validateBaseUrlSsrf newURL (c_baseUrl input) (c_allowInternalUrls input) with
  | Throw e => (Throw e, w1)
  | Ok ssrfResult =>
      if negb (safe ssrfResult) then
        (Throw (newError ("Invalid base URL: " +:+ showOptional (reason ssrfResult))), w1)
      else
        let now := isoNow in
        let '(settings, w2) := getGlobalSettings w1 in
        let profiles := nullish (providerProfiles settings) [] in
        let maxPriority := maxPriorityOf profiles in
        let profile :=
          {| id := randomUUID;
             name := c_name input;
             type := c_type input;
             baseUrl := c_baseUrl input;
             apiKey := c_apiKey input;
             modelMapping := nullish (c_modelMapping input) [];
             isActive := nullish (c_isActive input) true;
             priority := nullish (c_priority input) (plusOne maxPriority);
             timeout := Some (nullish (c_timeout input) DEFAULT_PROVIDER_TIMEOUT);
             description := c_description input;
             customCaCert := c_customCaCert input;
             allowInternalUrls := Some (nullish (c_allowInternalUrls input) false);
             rateLimitRpm := Some (nullish (c_rateLimitRpm input) 0);
             lastConnectionTest := None;
             createdAt := now;
             updatedAt := now |} in
        let w3 := updateGlobalSettings (profiles ++ [profile]) w2 in
        (Ok profile,
         note (LoggedInfo ("Created provider profile: " +:+ name profile +:+ " (" +:+
                           show_type (type profile) +:+ ")")) w3)
  end.

(** The tail of [updateProfile], after the base URL check. *)
Definition applyUpdate (input : UpdateProviderProfileInput) (profiles : list ProviderProfile)
  (index : nat) (existing : ProviderProfile) (w : World) : result ProviderProfile * World :=
  let updated :=
    {| id := id existing;
       name := nullish (u_name input) (name existing);
       type := nullish (u_type input) (type existing);
       baseUrl := nullish (u_baseUrl input) (baseUrl existing);
       apiKey := nullish (u_apiKey input) (apiKey existing);
       modelMapping := nullish (u_modelMapping input) (modelMapping existing);
       isActive := nullish (u_isActive input) (isActive existing);
       priority := nullish (u_priority input) (priority existing);
       timeout := orElse (u_timeout input) (timeout existing);
       description := orElse (u_description input) (description existing);
       customCaCert := orElse (u_customCaCert input) (customCaCert existing);
       allowInternalUrls := orElse (u_allowInternalUrls input) (allowInternalUrls existing);
       rateLimitRpm := orElse (u_rateLimitRpm input) (rateLimitRpm existing);
       lastConnectionTest := lastConnectionTest existing;
       createdAt := createdAt existing;
       updatedAt := isoNow |} in
  let w' := updateGlobalSettings (<[index := updated]> profiles) w in
  (Ok updated, note (LoggedInfo ("Updated provider profile: " +:+ name updated)) w').

(** [input.baseUrl && input.baseUrl !== existing.baseUrl] *)
Definition baseUrlChanging (input : UpdateProviderProfileInput) (existing : ProviderProfile)
  : option string :=
  match u_baseUrl input with
  | Some url =>
      if truthy_string url && negb (String.eqb url (baseUrl existing)) then Some url else None
  | None => None
  end.

Definition updateProfile (input : UpdateProviderProfileInput) (w : World)
  : result ProviderProfile * World :=
  let '(settings, w1) := getGlobalSettings w in
  let profiles := nullish (providerProfiles settings) [] in
  match findIndex (fun p => String.eqb (id p) (u_id input)) profiles with
  | None => (Throw (newError ("Provider profile not found: " +:+ u_id input)), w1)
  | Some index =>
      match profiles !! index with
      | None => (Throw (typeError "Cannot read properties of undefined"), w1)
      | Some existing =>
          match baseUrlChanging input existing with
          | Some url =>
              let allowInternal := orElse (u_allowInternalUrls input) (allowInternalUrls existing) in
              let w2 := note (CalledValidateBaseUrlSsrf url allowInternal) w1 in
              match validateBaseUrlSsrf newURL url allowInternal with
              | Throw e => (Throw e, w2)
              | Ok ssrfResult =>
                  if negb (safe ssrfResult) then
                    (Throw (newError ("Invalid base URL: " +:+ showOptional (reason ssrfResult))), w2)
                  else applyUpdate input profiles index existing w2
              end
          | None => applyUpdate input profiles index existing w1
          end
      end
  end.

End ProfileService.

(** ** The provider profile service: the connection test *)

Record Request : Type := mkRequest {
  req_method : string;
  req_url : string;
  req_headers : list (string * string);
  req_body : option string
}.

(** What the test reads of a [Response]; [response.text()] and
    [response.json()] may each reject. *)
Record Response : Type := mkResponse {
  status : Z;
  statusText : string;
  text : result string;
  json_body : result json
}.

(** [response.ok], by the Fetch standard: the status is in the range 200-299. *)
Definition response_ok (r : Response) : bool := (200 <=? status r) && (status r <=? 299).

(** The part of a profile the test reads. *)
Record ConnectionTestInput : Type := mkTestInput {
  t_type : ProviderProfileType;
  t_baseUrl : string;
  t_apiKey : string;
  t_timeout : option Z
}.

Definition authFailureMessage : string := "Authentication failed. Please check your API key.".

(** The ids read off a models list: [data.data.map((m) => m.id)] inside its
    own [try]; any throw leaves [availableModels] undefined. *)
Fixpoint modelIds (items : list json) : result (list (option json)) :=
  match items with
  | [] => Ok []
  | m :: rest =>
      let! i := getProp (Some m) "id" in
      let! others := modelIds rest in
      Ok (i :: others)
  end.

Definition harvestModels (body : result json) : option (list (option json)) :=
  match (let! data := body in
         let! d := getProp (Some data) "data" in
         match d with
         | Some (JArr items) => let! ids := modelIds items in Ok (Some ids)
         | _ => Ok None
         end) with
  | Ok found => found
  | Throw _ => None
  end.

(** [`Unexpected response: ${status} ${statusText}${errorText ? ` - ${errorText.slice(0, 200)}` : ''}`] *)
Definition unexpectedMessage (response : Response) : string :=
  let errorText := match text response with Ok t => t | Throw _ => "" end in
  "Unexpected response: " +:+ show_Z (status response) +:+ " " +:+ statusText response +:+
  (if truthy_string errorText then " - " +:+ String.substring 0 200 errorText else "").

Section ConnectionTest.

(** The platform's [fetch]: the response, or the [Error] it rejects with (an
    [AbortError] when the timeout's abort signal fired first).  [fetch]
    rejects with nothing but [Error] objects, so the last [return] of the
    source, for other thrown values, is never reached. *)
Variable fetch : Request -> result Response.
(** The two readings of [Date.now()] and the [new Date().toISOString()] of
    the call. *)
Variable startTime endTime : Z.
Variable isoNow : string.

Definition anthropicTestRequest (testUrl apiKey : string) : Request :=
  mkRequest "POST" testUrl
    [("Content-Type", "application/json"); ("x-api-key", apiKey);
     ("anthropic-version", "2023-06-01")]
    (Some (quoted "{'model':'claude-3-haiku-20240307','max_tokens':1,'messages':[{'role':'user','content':'test'}]}")).

Definition openaiTestRequest (testUrl apiKey : string) : Request :=
  mkRequest "GET" testUrl [("Authorization", "Bearer " +:+ apiKey)] None.

Definition failed (message : string) : ConnectionTestResult :=
  mkTest false (Some (endTime - startTime)) (Some message) None isoNow.

Definition succeeded (models : option (list (option json))) : ConnectionTestResult :=
  mkTest true (Some (endTime - startTime)) None models isoNow.

Definition testProfileConnection (profile : ConnectionTestInput) : ConnectionTestResult :=
  let timeout := nullish (t_timeout profile) DEFAULT_PROVIDER_TIMEOUT in
  let baseUrl := stripTrailingSlashes (t_baseUrl profile) in
  let testUrl :=
    match t_type profile with
    | AnthropicCompatible => baseUrl +:+ "/v1/messages"
    | OpenaiCompatible => baseUrl +:+ "/v1/models"
    end in
  let attempt : result ConnectionTestResult :=
    match t_type profile with
    | AnthropicCompatible =>
        let! response := fetch (anthropicTestRequest testUrl (t_apiKey profile)) in
        if (status response =? 401) || (status response =? 403) then
          Ok (failed authFailureMessage)
        else if response_ok response || (status response =? 400) || (status response =? 404) then
          Ok (succeeded None)
        else Ok (failed (unexpectedMessage response))
    | OpenaiCompatible =>
        let! response := fetch (openaiTestRequest testUrl (t_apiKey profile)) in
        if (status response =? 401) || (status response =? 403) then
          Ok (failed authFailureMessage)
        else if response_ok response then
          Ok (succeeded (harvestModels (json_body response)))
        else Ok (failed (unexpectedMessage response))
    end in
  match attempt with
  | Ok r => r
  | Throw e =>
      if String.eqb (err_name e) "AbortError" then
        failed ("Connection timeout after " +:+ show_Z timeout +:+ "ms")
      else failed (err_message e)
  end.

End ConnectionTest.

(** ** JSON.parse *)

(** A parser's answer: the value read and the text left, a [SyntaxError], or
    [Unsupported] where this model gives no answer (a [\u] escape in a
    string, whose UTF-16 reading the 8-bit strings do not follow). *)
Inductive parsed (A : Type) : Type :=
| Parsed (a : A) (rest : string)
| SyntaxError
| Unsupported.
Arguments Parsed {A} a rest.
Arguments SyntaxError {A}.
Arguments Unsupported {A}.

Definition parsed_map {A B : Type} (f : A -> B) (p : parsed A) : parsed B :=
  match p with
  | Parsed a rest => Parsed (f a) rest
  | SyntaxError => SyntaxError
  | Unsupported => Unsupported
  end.

Definition is_ws (c : ascii) : bool :=
  let n := N_of_ascii c in ((n =? 32) || (n =? 9) || (n =? 10) || (n =? 13))%N.

Definition is_digit (c : ascii) : bool :=
  let n := N_of_ascii c in ((48 <=? n) && (n <=? 57))%N.

Fixpoint skip_ws (s : string) : string :=
  match s with
  | String c s' => if is_ws c then skip_ws s' else s
  | EmptyString => EmptyString
  end.

(** The character an escape letter stands for; [Some None] is [\u]. *)
Definition unescape (c : ascii) : option (option ascii) :=
  if Ascii.eqb c dquote then Some (Some dquote)
  else if Ascii.eqb c "\" then Some (Some "\"%char)
  else if Ascii.eqb c "/" then Some (Some "/"%char)
  else if Ascii.eqb c "b" then Some (Some (ascii_of_nat 8))
  else if Ascii.eqb c "f" then Some (Some (ascii_of_nat 12))
  else if Ascii.eqb c "n" then Some (Some (ascii_of_nat 10))
  else if Ascii.eqb c "r" then Some (Some (ascii_of_nat 13))
  else if Ascii.eqb c "t" then Some (Some (ascii_of_nat 9))
  else if Ascii.eqb c "u" then Some None
  else None.

(** A string's characters, after its opening quote. *)
Fixpoint parse_string_body (s : string) : parsed string :=
  match s with
  | EmptyString => SyntaxError
  | String c rest =>
      if Ascii.eqb c dquote then Parsed EmptyString rest
      else if Ascii.eqb c "\" then
        match rest with
        | EmptyString => SyntaxError
        | String e rest' =>
            match unescape e with
            | Some (Some ch) => parsed_map (String ch) (parse_string_body rest')
            | Some None => Unsupported
            | None => SyntaxError
            end
        end
      else if (N_of_ascii c <? 32)%N then SyntaxError
      else parsed_map (String c) (parse_string_body rest)
  end.

Fixpoint take_digits (s : string) : string * string :=
  match s with
  | String c s' =>
      if is_digit c then let '(ds, rest) := take_digits s' in (String c ds, rest)
      else (EmptyString, s)
  | EmptyString => (EmptyString, EmptyString)
  end.

(** One or more digits. *)
Definition digits1 (s : string) : parsed string :=
  match take_digits s with
  | (EmptyString, _) => SyntaxError
  | (ds, rest) => Parsed ds rest
  end.

(** [-? (0 | [1-9] digits) (. digits+)? ([eE] [+-]? digits+)?], as its text. *)
Definition parse_number (s : string) : parsed string :=
  let '(sign, s1) :=
    match s with
    | String "-" r => ("-", r)
    | _ => (EmptyString, s)
    end in
  let int_part :=
    match s1 with
    | String "0" r => Parsed "0" r
    | _ => digits1 s1
    end in
  match int_part with
  | Parsed i s2 =>
      let frac :=
        match s2 with
        | String "." r => parsed_map (String ".") (digits1 r)
        | _ => Parsed EmptyString s2
        end in
      match frac with
      | Parsed f s3 =>
          let exponent :=
            match s3 with
            | String e r =>
                if Ascii.eqb e "e" || Ascii.eqb e "E" then
                  match r with
                  | String sg r' =>
                      if Ascii.eqb sg "+" || Ascii.eqb sg "-"
                      then parsed_map (fun d => String e (String sg d)) (digits1 r')
                      else parsed_map (String e) (digits1 r)
                  | EmptyString => SyntaxError
                  end
                else Parsed EmptyString s3
            | EmptyString => Parsed EmptyString s3
            end in
          match exponent with
          | Parsed x s4 => Parsed (sign +:+ i +:+ f +:+ x) s4
          | SyntaxError => SyntaxError
          | Unsupported => Unsupported
          end
      | SyntaxError => SyntaxError
      | Unsupported => Unsupported
      end
  | SyntaxError => SyntaxError
  | Unsupported => Unsupported
  end.

(** A keyword ([true], [false], [null]) at the head of the text. *)
Definition parse_keyword (word : string) (v : json) (s : string) : parsed json :=
  if String.prefix word s then Parsed v (slice_from (String.length word) s) else SyntaxError.

(** The elements of an array after its first one: [(, value)* ]]. *)
Fixpoint parse_elements (value : string -> parsed json) (fuel : nat) (s : string)
  : parsed (list json) :=
  match fuel with
  | O => Unsupported
  | S fuel' =>
      match skip_ws s with
      | String "]" rest => Parsed [] rest
      | String "," rest =>
          match value rest with
          | Parsed v rest' => parsed_map (cons v) (parse_elements value fuel' rest')
          | SyntaxError => SyntaxError
          | Unsupported => Unsupported
          end
      | _ => SyntaxError
      end
  end.

(** One member of an object: ["key" : value]. *)
Definition parse_member (value : string -> parsed json) (s : string) : parsed (string * json) :=
  match skip_ws s with
  | String q rest =>
      if Ascii.eqb q dquote then
        match parse_string_body rest with
        | Parsed key rest' =>
            match skip_ws rest' with
            | String ":" rest'' => parsed_map (pair key) (value rest'')
            | _ => SyntaxError
            end
        | SyntaxError => SyntaxError
        | Unsupported => Unsupported
        end
      else SyntaxError
  | EmptyString => SyntaxError
  end.

(** The members of an object after its first one: [(, member)* }]. *)
Fixpoint parse_members (value : string -> parsed json) (fuel : nat) (s : string)
  : parsed (list (string * json)) :=
  match fuel with
  | O => Unsupported
  | S fuel' =>
      match skip_ws s with
      | String "}" rest => Parsed [] rest
      | String "," rest =>
          match parse_member value rest with
          | Parsed m rest' => parsed_map (cons m) (parse_members value fuel' rest')
          | SyntaxError => SyntaxError
          | Unsupported => Unsupported
          end
      | _ => SyntaxError
      end
  end.

Fixpoint parse_value (fuel : nat) (s : string) : parsed json :=
  match fuel with
  | O => Unsupported
  | S fuel' =>
      match skip_ws s with
      | EmptyString => SyntaxError
      | String c rest =>
          if Ascii.eqb c "{" then
            match skip_ws rest with
            | String "}" rest' => Parsed (JObj []) rest'
            | _ =>
                match parse_member (parse_value fuel') rest with
                | Parsed m rest' =>
                    parsed_map (fun ms => JObj (m :: ms))
                               (parse_members (parse_value fuel') fuel' rest')
                | SyntaxError => SyntaxError
                | Unsupported => Unsupported
                end
            end
          else if Ascii.eqb c "[" then
            match skip_ws rest with
            | String "]" rest' => Parsed (JArr []) rest'
            | _ =>
                match parse_value fuel' rest with
                | Parsed v rest' =>
                    parsed_map (fun vs => JArr (v :: vs))
                               (parse_elements (parse_value fuel') fuel' rest')
                | SyntaxError => SyntaxError
                | Unsupported => Unsupported
                end
            end
          else if Ascii.eqb c dquote then parsed_map JStr (parse_string_body rest)
          else if Ascii.eqb c "t" then parse_keyword "true" (JBool true) (String c rest)
          else if Ascii.eqb c "f" then parse_keyword "false" (JBool false) (String c rest)
          else if Ascii.eqb c "n" then parse_keyword "null" JNull (String c rest)
          else if Ascii.eqb c "-" || is_digit c then parsed_map JNum (parse_number (String c rest))
          else SyntaxError
      end
  end.

(** [JSON.parse(text)]: one value, then nothing but white space.  The fuel
    bounds the nesting and the number of elements, each below the length. *)
Definition JSON_parse (text : string) : parsed json :=
  match parse_value (S (String.length text)) text with
  | Parsed v rest =>
      match skip_ws rest with
      | EmptyString => Parsed v EmptyString
      | _ => SyntaxError
      end
  | SyntaxError => SyntaxError
  | Unsupported => Unsupported
  end.

(** ** openai-proxy-provider.ts: decoding the response stream *)

Inductive ContentBlock : Type :=
| TextBlock (content_text : string)
| ToolUseBlock (tool_name : string) (tool_use_id : string) (input : json).

Inductive ProviderMessage : Type :=
| AssistantMessage (session_id : string) (content : list ContentBlock)
| ResultMessage (subtype : string) (session_id : string) (result_text : string).

Record ToolCall : Type := mkToolCall {
  tc_id : string;
  tc_name : string;
  tc_arguments : string
}.

(** A key of [accumulatedToolCalls]: [toolDelta.index]. *)
Inductive MapKey : Type :=
| KeyUndefined
| KeyNumber (n : Z).

Definition MapKey_eqb (a b : MapKey) : bool :=
  match a, b with
  | KeyUndefined, KeyUndefined => true
  | KeyNumber x, KeyNumber y => x =? y
  | _, _ => false
  end.

(** The [Map<number, ...>] in insertion order. *)
Definition ToolCalls : Type := list (MapKey * ToolCall).

Fixpoint toolCalls_get (key : MapKey) (m : ToolCalls) : option ToolCall :=
  match m with
  | [] => None
  | (k, v) :: rest => if MapKey_eqb k key then Some v else toolCalls_get key rest
  end.

Fixpoint toolCalls_set (key : MapKey) (value : ToolCall) (m : ToolCalls) : ToolCalls :=
  match m with
  | [] => [(key, value)]
  | (k, v) :: rest =>
      if MapKey_eqb k key then (k, value) :: rest else (k, v) :: toolCalls_set key value rest
  end.

(** The generator's variables besides [buffer], with what it has yielded and
    the warnings it has logged. *)
Record Decoder : Type := mkDecoder {
  accumulatedContent : string;
  accumulatedToolCalls : ToolCalls;
  yielded : list ProviderMessage;
  warned : list string
}.

(** One step inside the [try] of the loop body: it goes on, it throws (the
    [catch] logs and the loop goes on), or the payload lies [Beyond] the
    values modelled here: a value of another type than the
    [OpenAIStreamChunk] interface declares, where JavaScript would coerce. *)
Inductive step (A : Type) : Type :=
| Next (a : A) (d : Decoder)
| Raised (d : Decoder)
| Beyond.
Arguments Next {A} a d.
Arguments Raised {A} d.
Arguments Beyond {A}.

Definition Step (A : Type) : Type := Decoder -> step A.

Definition ret {A : Type} (a : A) : Step A := fun d => Next a d.

Definition andThen {A B : Type} (m : Step A) (k : A -> Step B) : Step B :=
  fun d =>
    match m d with
    | Next a d' => k a d'
    | Raised d' => Raised d'
    | Beyond => Beyond
    end.

Notation "'do' x '<-' m ';' k" := (andThen m (fun x => k))
  (at level 10, x name, m at level 100, k at level 200).

Definition attempt {A : Type} (r : result A) : Step A :=
  fun d => match r with Ok a => Next a d | Throw _ => Raised d end.

Definition modelled {A : Type} (o : option A) : Step A :=
  fun d => match o with Some a => Next a d | None => Beyond end.

Definition yield (m : ProviderMessage) : Step unit :=
  fun d => Next tt (mkDecoder (accumulatedContent d) (accumulatedToolCalls d)
                              (yielded d ++ [m]) (warned d)).

Definition appendContent (s : string) : Step unit :=
  fun d => Next tt (mkDecoder (accumulatedContent d +:+ s) (accumulatedToolCalls d)
                              (yielded d) (warned d)).

Definition getToolCalls : Step ToolCalls := fun d => Next (accumulatedToolCalls d) d.

Definition setToolCall (key : MapKey) (value : ToolCall) : Step unit :=
  fun d => Next tt (mkDecoder (accumulatedContent d)
                              (toolCalls_set key value (accumulatedToolCalls d))
                              (yielded d) (warned d)).

Definition warn (message : string) (d : Decoder) : Decoder :=
  mkDecoder (accumulatedContent d) (accumulatedToolCalls d) (yielded d) (warned d ++ [message]).

(** An integer literal [-?digits] as its value. *)
Fixpoint digitsValue (acc : Z) (s : string) : option Z :=
  match s with
  | EmptyString => Some acc
  | String c s' =>
      if is_digit c then digitsValue (10 * acc + (Z.of_N (N_of_ascii c) - 48)) s' else None
  end.

Definition intLiteral (s : string) : option Z :=
  match s with
  | String "-" (String c r) => option_map Z.opp (digitsValue 0 (String c r))
  | String c r => digitsValue 0 (String c r)
  | EmptyString => None
  end.

(** Truthiness of a JSON value or [undefined]; a number is read when its
    literal is an integer. *)
Definition truthy (v : option json) : option bool :=
  match v with
  | None | Some JNull => Some false
  | Some (JBool b) => Some b
  | Some (JStr s) => Some (truthy_string s)
  | Some (JNum l) => option_map (fun z => negb (z =? 0)) (intLiteral l)
  | Some (JArr _) | Some (JObj _) => Some true
  end.

(** [v[0]] *)
Definition getIndex0 (v : option json) : result (option json) :=
  match v with
  | None | Some JNull => Throw (typeError "Cannot read properties of null or undefined: 0")
  | Some (JArr items) => Ok (head items)
  | Some (JObj members) => Ok (member "0" members)
  | Some (JStr (String c _)) => Ok (Some (JStr (String c EmptyString)))
  | Some _ => Ok None
  end.

(** A value the interface declares [string | null | undefined]: the string
    it holds, the empty string standing for the two falsy others. *)
Definition stringOrNothing (v : option json) : option string :=
  match v with
  | None | Some JNull => Some EmptyString
  | Some (JStr s) => Some s
  | Some _ => None
  end.

(** [toolDelta.index] as a map key. *)
Definition asKey (v : option json) : option MapKey :=
  match v with
  | None => Some KeyUndefined
  | Some (JNum l) => option_map KeyNumber (intLiteral l)
  | Some _ => None
  end.

(** [fn?.key] *)
Definition getPropOptional (fn : option json) (key : string) : result (option json) :=
  match fn with
  | None | Some JNull => Ok None
  | _ => getProp fn key
  end.

(** The body of [for (const toolDelta of choice.delta.tool_calls)]. *)
Definition handleToolDelta (toolDelta : json) : Step unit :=
  do index <- attempt (getProp (Some toolDelta) "index");
  do key <- modelled (asKey index);
  do calls <- getToolCalls;
  let existing := nullish (toolCalls_get key calls) (mkToolCall "" "" "") in
  do idv <- attempt (getProp (Some toolDelta) "id");
  do newId <- modelled (stringOrNothing idv);
  let existing1 :=
    if truthy_string newId then mkToolCall newId (tc_name existing) (tc_arguments existing)
    else existing in
  do fn <- attempt (getProp (Some toolDelta) "function");
  do namev <- attempt (getPropOptional fn "name");
  do newName <- modelled (stringOrNothing namev);
  let existing2 :=
    if truthy_string newName then mkToolCall (tc_id existing1) newName (tc_arguments existing1)
    else existing1 in
  do argsv <- attempt (getPropOptional fn "arguments");
  do newArgs <- modelled (stringOrNothing argsv);
  let existing3 :=
    if truthy_string newArgs
    then mkToolCall (tc_id existing2) (tc_name existing2) (tc_arguments existing2 +:+ newArgs)
    else existing2 in
  setToolCall key existing3.

Fixpoint forEach {A : Type} (f : A -> Step unit) (l : list A) : Step unit :=
  match l with
  | [] => ret tt
  | x :: rest => do _ <- f x; forEach f rest
  end.

(** The body of [for (const [, toolCall] of accumulatedToolCalls)]. *)
Definition emitToolCall (sessionId : string) (entry : MapKey * ToolCall) : Step unit :=
  let toolCall := snd entry in
  if truthy_string (tc_id toolCall) && truthy_string (tc_name toolCall) then
    do input <- modelled
         (match JSON_parse (tc_arguments toolCall) with
          | Parsed v _ => Some v
          | SyntaxError => Some (JObj [("raw", JStr (tc_arguments toolCall))])
          | Unsupported => None
          end);
    yield (AssistantMessage sessionId
             [ToolUseBlock (tc_name toolCall) (tc_id toolCall) input])
  else ret tt.

Definition isFinished (finish_reason : option json) : bool :=
  match finish_reason with
  | Some (JStr s) => String.eqb s "tool_calls" || String.eqb s "stop"
  | _ => false
  end.

(** The statements of the [try] after [JSON.parse]. *)
Definition handleChunk (sessionId : string) (chunk : json) : Step unit :=
  do choices <- attempt (getProp (Some chunk) "choices");
  do choice <- attempt (getIndex0 choices);
  do present <- modelled (truthy choice);
  if negb present then ret tt
  else
    do delta <- attempt (getProp choice "delta");
    do content <- attempt (getProp delta "content");
    do hasContent <- modelled (truthy content);
    do _ <- (if hasContent then
               do piece <- modelled (match content with Some (JStr s) => Some s | _ => None end);
               do _ <- appendContent piece;
               yield (AssistantMessage sessionId [TextBlock piece])
             else ret tt);
    do tool_calls <- attempt (getProp delta "tool_calls");
    do hasTools <- modelled (truthy tool_calls);
    do _ <- (if hasTools then
               match tool_calls with
               | Some (JArr items) => forEach handleToolDelta items
               | _ => modelled None
               end
             else ret tt);
    do finish_reason <- attempt (getProp choice "finish_reason");
    if isFinished finish_reason then
      do calls <- getToolCalls;
      forEach (emitToolCall sessionId) calls
    else ret tt.

(** The body of [for (const line of lines)]; [None] when the payload lies
    beyond the values modelled. *)
Definition processLine (sessionId : string) (line : string) (d : Decoder) : option Decoder :=
  if startsWith line "data: " then
    let data := slice_from 6 line in
    if String.eqb data "[DONE]" then Some d
    else
      match JSON_parse data with
      | Unsupported => None
      | SyntaxError => Some (warn ("Failed to parse SSE chunk: " +:+ data) d)
      | Parsed chunk _ =>
          match handleChunk sessionId chunk d with
          | Next _ d' => Some d'
          | Raised d' => Some (warn ("Failed to parse SSE chunk: " +:+ data) d')
          | Beyond => None
          end
      end
  else Some d.

Fixpoint processLines (sessionId : string) (lines : list string) (d : Decoder) : option Decoder :=
  match lines with
  | [] => Some d
  | line :: rest =>
      match processLine sessionId line d with
      | Some d' => processLines sessionId rest d'
      | None => None
      end
  end.

(** [s.split('\n')] *)
Fixpoint split_newline (s : string) : list string :=
  match s with
  | EmptyString => [EmptyString]
  | String c s' =>
      if Ascii.eqb c LF then EmptyString :: split_newline s'
      else
        match split_newline s' with
        | first :: others => String c first :: others
        | [] => [String c EmptyString]
        end
  end.

(** The [while (true)] loop over the reads of the body, [chunks] being the
    decoded text of each read in order. *)
Fixpoint readLoop (sessionId : string) (chunks : list string) (buffer : string) (d : Decoder)
  : option Decoder :=
  match chunks with
  | [] => Some d
  | value :: later =>
      let lines := split_newline (buffer +:+ value) in
      let buffer' := List.last lines EmptyString in
      match processLines sessionId (removelast lines) d with
      | Some d' => readLoop sessionId later buffer' d'
      | None => None
      end
  end.

(** Lines 184-296 of [executeQuery]: what the generator yields for the body
    whose reads are [chunks], with [now] the reading of [Date.now()]. *)
Definition decodeStream (now : Z) (chunks : list string) : option (list ProviderMessage) :=
  let sessionId := "openai-" +:+ show_Z now in
  match readLoop sessionId chunks EmptyString (mkDecoder EmptyString [] [] []) with
  | Some d => Some (yielded d ++ [ResultMessage "success" sessionId (accumulatedContent d)])
  | None => None
  end.

(** ** The registry at run time *)

(** The registry after further [registerProvider] calls on the loaded module. *)
Definition registryAfter (isCursorModel : string -> bool) (claudeProvider cursorProvider : BaseProvider)
  (calls : list (string * ProviderRegistration)) : Registry :=
  fold_left (fun r call => registerProvider (fst call) (snd call) r) calls
            (initialRegistry isCursorModel claudeProvider cursorProvider).

(** ** The claims' words as definitions *)

Definition priorityOf (entry : string * ProviderRegistration) : Z :=
  nullish (reg_priority (snd entry)) 0.

(** Highest priority first. *)
Definition descending (a b : string * ProviderRegistration) : Prop :=
  priorityOf b <= priorityOf a.

(** Name resolution as the specification words it: the prefix test reads the
    model id as given. *)
Definition resolveProviderName_claimed (providerRegistry : Registry) (modelId : string) : string :=
  let sorted := sortByPriority providerRegistry in
  match List.find (fun entry => accepts (snd entry) (toLowerCase modelId)) sorted with
  | Some entry => fst entry
  | None =>
      match List.find (fun entry => String.prefix (fst entry +:+ "-") modelId) sorted with
      | Some entry => fst entry
      | None => "claude"
      end
  end.

(** The same resolution with the prefix test on the lower-cased model id. *)
Definition resolveProviderName_lowered (providerRegistry : Registry) (modelId : string) : string :=
  let sorted := sortByPriority providerRegistry in
  match List.find (fun entry => accepts (snd entry) (toLowerCase modelId)) sorted with
  | Some entry => fst entry
  | None =>
      match List.find (fun entry => String.prefix (fst entry +:+ "-") (toLowerCase modelId)) sorted with
      | Some entry => fst entry
      | None => "claude"
      end
  end.

(** How many mapping entries have [m] as their [localModel]. *)
Definition localOccurrences (m : string) (p : ProviderProfile) : nat :=
  length (List.filter (fun e => String.eqb (localModel e) m) (modelMapping p)).

(** The guard's two refusals. *)
Definition rejectedForHostname (r : SsrfValidationResult) : Prop :=
  exists host, r = mkSsrf false (Some (internalReason host)) None.

Definition rejectedForScheme (r : SsrfValidationResult) : Prop :=
  r = mkSsrf false (Some schemeReason) None.

(** The executor, called on the providers in order from the state [s],
    rejects each time: with the values [values], leaving the state [s']. *)
Inductive rejections {T State : Type} (executor : BaseProvider -> State -> Settled T * State)
  : list BaseProvider -> State -> list Thrown -> State -> Prop :=
| rejections_none (s : State) : rejections executor [] s [] s
| rejections_more (p : BaseProvider) (ps : list BaseProvider) (s s1 s' : State)
    (thrown : Thrown) (values : list Thrown) :
    executor p s = (Rejected thrown, s1) ->
    rejections executor ps s1 values s' ->
    rejections executor (p :: ps) s (thrown :: values) s'.

(** A thrown value whose [message] the warning can show. *)
Definition readable (v : Thrown) : bool :=
  match readMessage v with inl _ => true | inr _ => false end.

(** What the function throws when the loop has run out of candidates. *)
Definition raisedAtTheEnd (modelId : string) (last : Thrown) : Thrown :=
  if truthyThrown last then last
  else ThrownError (newError ("All providers failed for model: " +:+ modelId)).

Definition warnings (l : list LogEntry) : list LogEntry := List.filter isWarn l.

Definition isValidation (e : ServiceEvent) : bool :=
  match e with CalledValidateBaseUrlSsrf _ _ => true | _ => false end.

Definition isStoreWrite (e : ServiceEvent) : bool :=
  match e with CalledUpdateGlobalSettings _ => true | _ => false end.

(** What the loop copies for a key: the value the process environment holds
    under it, when that value is a non-empty string. *)
Definition forwarded (process_env : gmap string string) (key : string) : option string :=
  match process_env !! key with
  | Some value => if truthy_string value then Some value else None
  | None => None
  end.

(** The text of a body read in pieces. *)
Definition joined (chunks : list string) : string := fold_right String.append EmptyString chunks.

(** [buffer.split('\n')] with its last element popped: the complete lines and
    the text kept for the next read. *)
Definition cut (s : string) : list string * string :=
  (removelast (split_newline s), List.last (split_newline s) EmptyString).

(** ** Sample inputs *)

(** A small URL reader for running the guard on sample URLs of the shape
    [scheme://host[:port][/path]]; the properties below hold for every
    reader, the platform's included. *)
Fixpoint takeUntil (stop : ascii -> bool) (s : string) : string * string :=
  match s with
  | EmptyString => (EmptyString, EmptyString)
  | String c s' =>
      if stop c then (EmptyString, s)
      else let '(taken, rest) := takeUntil stop s' in (String c taken, rest)
  end.

Definition sampleURL (url : string) : result URL :=
  let '(scheme, rest) := takeUntil (Ascii.eqb ":") url in
  if truthy_string scheme && String.prefix "://" rest then
    let afterSlashes := slice_from 3 rest in
    let host :=
      match afterSlashes with
      | String "[" _ =>
          let '(inside, _) := takeUntil (Ascii.eqb "]") afterSlashes in inside +:+ "]"
      | _ =>
          fst (takeUntil (fun c => Ascii.eqb c ":" || Ascii.eqb c "/" || Ascii.eqb c "?" ||
                                   Ascii.eqb c "#") afterSlashes)
      end in
    Ok (mkURL (toLowerCase scheme +:+ ":") (toLowerCase host))
  else Throw (typeError "Invalid URL").

Definition sampleProfile (profileId profileName : string) (t : ProviderProfileType)
  (active : bool) (prio : Z) (mapping : list ModelMappingEntry) : ProviderProfile :=
  {| id := profileId; name := profileName; type := t;
     baseUrl := "https://proxy.example.com"; apiKey := "sk-test";
     modelMapping := mapping; isActive := active; priority := prio;
     timeout := None; description := None; customCaCert := None;
     allowInternalUrls := None; rateLimitRpm := None; lastConnectionTest := None;
     createdAt := "2025-01-01T00:00:00.000Z"; updatedAt := "2025-01-01T00:00:00.000Z" |}.

Definition profileA : ProviderProfile :=
  sampleProfile "id-a" "A" AnthropicCompatible true 2 [].
Definition profileB : ProviderProfile :=
  sampleProfile "id-b" "B" AnthropicCompatible true 1 [].

(** Two entries that share their remote model. *)
Definition sharedRemoteProfile : ProviderProfile :=
  sampleProfile "id-m" "M" OpenaiCompatible true 1 [mkMapping "a" "r"; mkMapping "b" "r"].

Definition opusProfile : ProviderProfile :=
  sampleProfile "id-o" "O" AnthropicCompatible true 1
    [mkMapping "claude-3-opus" "proxy-claude-opus-v1"; mkMapping "claude-3-haiku" "proxy-haiku"].

(** The registry of the loaded module, with a Cursor test that accepts the
    ids starting with [cursor-]. *)
Definition sampleRegistry : Registry :=
  initialRegistry (fun m => String.prefix "cursor-" m)
                  (ExternalProvider "claude") (ExternalProvider "cursor").

(** A registry holding one provider [foo] with no [canHandleModel]. *)
Definition fooRegistry : Registry :=
  registerProvider "foo" (mkRegistration (fun _ => ExternalProvider "foo") None None None) [].

(** Two process environments that agree on the allowlisted variables only. *)
Definition processEnv1 : gmap string string :=
  <["PATH" := "/usr/bin"]> (<["HOME" := "/root"]> (<["AWS_SECRET_ACCESS_KEY" := "s3cr3t"]>
    (<["LANG" := ""]> ∅))).
Definition processEnv2 : gmap string string :=
  <["PATH" := "/usr/bin"]> (<["HOME" := "/root"]> (<["GITHUB_TOKEN" := "ghp"]> (<["LANG" := ""]> ∅))).

(** An executor on which every provider fails with an error of its own. *)
Definition allFail (p : BaseProvider) (s : unit) : Settled string * unit :=
  (Rejected (ThrownError (newError (getName p +:+ " is down"))), s).

(** An executor on which the two proxies fail and the default provider answers. *)
Definition proxiesFail (p : BaseProvider) (s : unit) : Settled string * unit :=
  match p with
  | ExternalProvider n => (Fulfilled ("answer from " +:+ n), s)
  | _ => (Rejected (ThrownError (newError (getName p +:+ " is down"))), s)
  end.

(** An executor that counts its calls: the first one fails, every later one
    answers. *)
Definition failsOnce (p : BaseProvider) (callsSoFar : nat) : Settled string * nat :=
  match callsSoFar with
  | O => (Rejected (ThrownError (newError (getName p +:+ " is down"))), 1%nat)
  | S _ => (Fulfilled ("answer from " +:+ getName p), S callsSoFar)
  end.

(** Executors that reject with [null], as [Promise.reject(null)] does, and
    with the number [0]. *)
Definition rejectsWithNull (p : BaseProvider) (s : unit) : Settled string * unit :=
  (Rejected ThrownNull, s).

Definition rejectsWithZero (p : BaseProvider) (s : unit) : Settled string * unit :=
  (Rejected (ThrownValue false "undefined"), s).

(** The stream of the specification's decoding example. *)
Definition sseExample : string :=
  "data: " +:+
  quoted "{'id':'1','object':'x','created':0,'model':'m','choices':[{'index':0,'delta':{'content':'Hi'},'finish_reason':null}]}" +:+
  String LF (String LF ("data: [DONE]" +:+ String LF (String LF EmptyString))).

(** A [fetch] that answers every request with the given status and no body. *)
Definition fetchStatus (code : Z) (_ : Request) : result Response :=
  Ok (mkResponse code "" (Ok EmptyString) (Throw (mkError "SyntaxError" "Unexpected end of JSON input"))).

Definition sampleTestInput (t : ProviderProfileType) : ConnectionTestInput :=
  mkTestInput t "https://proxy.example.com/" "sk-test" None.

Definition emptyWorld : World := mkWorld (mkSettings None) [].

Definition worldWith (profiles : list ProviderProfile) : World :=
  mkWorld (mkSettings (Some profiles)) [].

Definition sampleCreate (url : string) (allow : option bool) : CreateProviderProfileInput :=
  mkCreate "New" AnthropicCompatible url "sk-test" None None None None None None allow None.

(** An update that carries only a base URL. *)
Definition baseUrlUpdate (profileId : string) (url : option string) : UpdateProviderProfileInput :=
  mkUpdate profileId None None url None None None None None None None None None.


(* ===================================================================== *)
(** * Part I, continued: the rest of the cited files *)
(* ===================================================================== *)

(** ** The provider profile service: the other methods *)

(** [Array.prototype.sort(compare)] on any array, as [sortByPriority] has it
    for the registry: a stable sort, written as an insertion that puts an
    element before the first one it does not compare greater than. *)
Fixpoint insertBy {A : Type} (compare : A -> A -> Z) (x : A) (l : list A) : list A :=
  match l with
  | [] => [x]
  | y :: rest => if compare x y <=? 0 then x :: y :: rest else y :: insertBy compare x rest
  end.

Fixpoint stableSort {A : Type} (compare : A -> A -> Z) (l : list A) : list A :=
  match l with
  | [] => []
  | x :: rest => insertBy compare x (stableSort compare rest)
  end.

(** [(a, b) => b.priority - a.priority] *)
Definition byPriorityDescending (a b : ProviderProfile) : Z := priority b - priority a.

(** Highest priority first. *)
Definition priorityDescending (a b : ProviderProfile) : Prop := priority b <= priority a.

(** [(p) => p.type === type && p.isActive] *)
Definition isActiveOfType (t : ProviderProfileType) (p : ProviderProfile) : bool :=
  ProviderProfileType_eqb (type p) t && isActive p.

Record ActiveCount : Type := mkActiveCount {
  count_anthropic_compatible : nat;
  count_openai_compatible : nat
}.

Record ProviderProfileList : Type := mkProfileList {
  profiles : list ProviderProfile;
  activeCount : ActiveCount
}.

Definition listProfiles (w : World) : ProviderProfileList * World :=
  let '(settings, w1) := getGlobalSettings w in
  let profiles := nullish (providerProfiles settings) [] in
  let activeCount :=
    mkActiveCount (length (List.filter (isActiveOfType AnthropicCompatible) profiles))
                  (length (List.filter (isActiveOfType OpenaiCompatible) profiles)) in
  (mkProfileList profiles activeCount, w1).

(** [null] is [None]. *)
Definition getProfile (profileId : string) (w : World) : option ProviderProfile * World :=
  let '(settings, w1) := getGlobalSettings w in
  (match providerProfiles settings with
   | Some profiles => List.find (fun p => String.eqb (id p) profileId) profiles
   | None => None
   end, w1).

Definition deleteProfile (profileId : string) (w : World) : result unit * World :=
  let '(settings, w1) := getGlobalSettings w in
  let profiles := nullish (providerProfiles settings) [] in
  match List.find (fun p => String.eqb (id p) profileId) profiles with
  | None => (Throw (newError ("Provider profile not found: " +:+ profileId)), w1)
  | Some profile =>
      let w2 := updateGlobalSettings
                  (List.filter (fun p => negb (String.eqb (id p) profileId)) profiles) w1 in
      (Ok tt, note (LoggedInfo ("Deleted provider profile: " +:+ name profile)) w2)
  end.

Definition duplicateProfile (newURL : string -> result URL) (randomUUID isoNow : string)
  (profileId : string) (w : World) : result ProviderProfile * World :=
  match getProfile profileId w with
  | (None, w1) => (Throw (newError ("Provider profile not found: " +:+ profileId)), w1)
  | (Some profile, w1) =>
      createProfile newURL randomUUID isoNow
        {| c_name := name profile +:+ " (Copy)";
           c_type := type profile;
           c_baseUrl := baseUrl profile;
           c_apiKey := apiKey profile;
           c_modelMapping := Some (modelMapping profile);
           c_isActive := Some false;
           c_priority := None;
           c_timeout := timeout profile;
           c_description := description profile;
           c_customCaCert := customCaCert profile;
           c_allowInternalUrls := allowInternalUrls profile;
           c_rateLimitRpm := rateLimitRpm profile |}
        w1
  end.

(** [orderedIds.indexOf(x)]; [-1] is [None]. *)
Definition indexOf (x : string) (l : list string) : option nat :=
  findIndex (fun y => String.eqb y x) l.

(** [{ ...p, priority, updatedAt }] *)
Definition withPriority (p : ProviderProfile) (newPriority : Z) (now : string) : ProviderProfile :=
  {| id := id p; name := name p; type := type p; baseUrl := baseUrl p; apiKey := apiKey p;
     modelMapping := modelMapping p; isActive := isActive p;
     priority := newPriority;
     timeout := timeout p; description := description p; customCaCert := customCaCert p;
     allowInternalUrls := allowInternalUrls p; rateLimitRpm := rateLimitRpm p;
     lastConnectionTest := lastConnectionTest p; createdAt := createdAt p;
     updatedAt := now |}.

(** The [map] callback of [reorderProfiles]. *)
Definition reprioritize (orderedIds : list string) (isoNow : string) (p : ProviderProfile)
  : ProviderProfile :=
  match indexOf (id p) orderedIds with
  | None => p
  | Some newPriority =>
      withPriority p (Z.of_nat (length orderedIds) - Z.of_nat newPriority) isoNow
  end.

Definition reorderProfiles (isoNow : string) (orderedIds : list string) (w : World)
  : list ProviderProfile * World :=
  let '(settings, w1) := getGlobalSettings w in
  let profiles := nullish (providerProfiles settings) [] in
  let updatedProfiles :=
    stableSort byPriorityDescending (List.map (reprioritize orderedIds isoNow) profiles) in
  let w2 := updateGlobalSettings updatedProfiles w1 in
  (updatedProfiles,
   note (LoggedInfo ("Reordered " +:+ show_Z (Z.of_nat (length orderedIds)) +:+
                     " provider profiles")) w2).

(** The fields of a stored profile that [testProfileConnection] reads. *)
Definition asTestInput (p : ProviderProfile) : ConnectionTestInput :=
  mkTestInput (type p) (baseUrl p) (apiKey p) (timeout p).

Definition testConnection (fetch : Request -> result Response) (startTime endTime : Z)
  (isoNow : string) (profileId : string) (w : World) : ConnectionTestResult * World :=
  match getProfile profileId w with
  | (None, w1) =>
      (mkTest false None (Some ("Profile not found: " +:+ profileId)) None isoNow, w1)
  | (Some profile, w1) =>
      (testProfileConnection fetch startTime endTime isoNow (asTestInput profile), w1)
  end.

(** [{ ...profiles[index], lastConnectionTest: result, updatedAt }] *)
Definition withConnectionTest (p : ProviderProfile) (r : ConnectionTestResult) (now : string)
  : ProviderProfile :=
  {| id := id p; name := name p; type := type p; baseUrl := baseUrl p; apiKey := apiKey p;
     modelMapping := modelMapping p; isActive := isActive p; priority := priority p;
     timeout := timeout p; description := description p; customCaCert := customCaCert p;
     allowInternalUrls := allowInternalUrls p; rateLimitRpm := rateLimitRpm p;
     lastConnectionTest := Some r; createdAt := createdAt p;
     updatedAt := now |}.

Definition saveConnectionTestResult (isoNow : string) (profileId : string)
  (r : ConnectionTestResult) (w : World) : World :=
  let '(settings, w1) := getGlobalSettings w in
  let profiles := nullish (providerProfiles settings) [] in
  match findIndex (fun p => String.eqb (id p) profileId) profiles with
  | None => w1
  | Some index =>
      match profiles !! index with
      | Some existing =>
          updateGlobalSettings (<[index := withConnectionTest existing r isoNow]> profiles) w1
      | None => w1
      end
  end.

Definition getActiveProfilesByType (t : ProviderProfileType) (w : World)
  : list ProviderProfile * World :=
  let '(settings, w1) := getGlobalSettings w in
  let profiles := nullish (providerProfiles settings) [] in
  (stableSort byPriorityDescending (List.filter (isActiveOfType t) profiles), w1).

Definition getActiveProfile (t : ProviderProfileType) (w : World)
  : option ProviderProfile * World :=
  let '(settings, w1) := getGlobalSettings w in
  let profiles := nullish (providerProfiles settings) [] in
  let activeProfiles := stableSort byPriorityDescending (List.filter (isActiveOfType t) profiles) in
  (head activeProfiles, w1).

Definition hasActiveProfiles (t : ProviderProfileType) (w : World) : bool * World :=
  let '(profile, w1) := getActiveProfile t w in
  (match profile with Some _ => true | None => false end, w1).

(** ** The two proxy providers: installation status and model lists *)

Record InstallationStatus : Type := mkInstallation {
  installed : bool;
  method : string;
  hasApiKey : bool;
  authenticated : bool;
  path : string
}.

(** [detectInstallation] of both proxy providers. *)
Definition detectInstallation (profile : ProviderProfile) : InstallationStatus :=
  let hasApiKey := truthy_string (apiKey profile) in
  {| installed := true;
     method := "sdk";
     hasApiKey := hasApiKey;
     authenticated :=
       match lastConnectionTest profile with
       | Some lastTest => success lastTest
       | None => hasApiKey
       end;
     path := baseUrl profile |}.

Record ModelDefinition : Type := mkModel {
  md_id : string;
  md_name : string;
  md_modelString : string;
  md_provider : string;
  md_description : string;
  md_contextWindow : option Z;
  md_maxOutputTokens : option Z;
  md_supportsVision : bool;
  md_supportsTools : bool;
  md_tier : option string
}.

(** A model read off a mapping entry. *)
Definition mappedModel (providerLabel profileName : string) (vision : bool)
  (mapping : ModelMappingEntry) : ModelDefinition :=
  {| md_id := localModel mapping;
     md_name := localModel mapping;
     md_modelString := remoteModel mapping;
     md_provider := providerLabel;
     md_description := "Mapped to " +:+ remoteModel mapping +:+ " on " +:+ profileName;
     md_contextWindow := None;
     md_maxOutputTokens := None;
     md_supportsVision := vision;
     md_supportsTools := true;
     md_tier := None |}.

Definition defaultModel (providerLabel profileName : string) (modelId modelName : string)
  (contextWindow maxOutputTokens : Z) (vision : bool) (tier : string) : ModelDefinition :=
  {| md_id := modelId;
     md_name := modelName;
     md_modelString := modelId;
     md_provider := providerLabel;
     md_description := "Via " +:+ profileName;
     md_contextWindow := Some contextWindow;
     md_maxOutputTokens := Some maxOutputTokens;
     md_supportsVision := vision;
     md_supportsTools := true;
     md_tier := Some tier |}.

(** [AnthropicProxyProvider.getAvailableModels] *)
Definition anthropicAvailableModels (profile : ProviderProfile) : list ModelDefinition :=
  let label := "anthropic-proxy:" +:+ name profile in
  match modelMapping profile with
  | _ :: _ => List.map (mappedModel label (name profile) true) (modelMapping profile)
  | [] =>
      [ defaultModel label (name profile) "claude-opus-4-5-20251101" "Claude Opus 4.5"
          200000 16000 true "premium";
        defaultModel label (name profile) "claude-sonnet-4-20250514" "Claude Sonnet 4"
          200000 16000 true "standard";
        defaultModel label (name profile) "claude-haiku-4-5-20251001" "Claude Haiku 4.5"
          200000 8000 true "basic" ]
  end.

(** [OpenAIProxyProvider.getAvailableModels] *)
Definition openaiAvailableModels (profile : ProviderProfile) : list ModelDefinition :=
  let label := "openai-proxy:" +:+ name profile in
  match modelMapping profile with
  | _ :: _ => List.map (mappedModel label (name profile) false) (modelMapping profile)
  | [] =>
      [ defaultModel label (name profile) "gpt-4o" "GPT-4o" 128000 16384 true "premium";
        defaultModel label (name profile) "gpt-4o-mini" "GPT-4o Mini" 128000 16384 true "standard";
        defaultModel label (name profile) "gpt-3.5-turbo" "GPT-3.5 Turbo" 16385 4096 false "basic" ]
  end.

(** [supportsFeature] of the two proxy providers. *)
Definition anthropicSupportsFeature (feature : string) : bool :=
  existsb (String.eqb feature) ["tools"; "text"; "vision"; "thinking"].

Definition openaiSupportsFeature (feature : string) : bool :=
  existsb (String.eqb feature) ["tools"; "text"].

(** ** provider-factory.ts: the other methods *)

Definition getAllProviders (providerRegistry : Registry) : list BaseProvider :=
  List.map (fun entry => factory (snd entry) tt) providerRegistry.

Definition getRegisteredProviderNames (providerRegistry : Registry) : list string :=
  List.map fst providerRegistry.

(** [s.split(sep)] for a separator of one character. *)
Fixpoint split_on (sep : ascii) (s : string) : list string :=
  match s with
  | EmptyString => [EmptyString]
  | String c s' =>
      if Ascii.eqb c sep then EmptyString :: split_on sep s'
      else
        match split_on sep s' with
        | first :: others => String c first :: others
        | [] => [String c EmptyString]
        end
  end.

(** [parts.join(sep)] *)
Definition join (sep : string) (parts : list string) : string := String.concat sep parts.

(** The first matching active profile, as each of the three routing steps
    takes it: [profiles.filter(...)[0]]. *)
Definition firstActive (t : ProviderProfileType) (profiles : list ProviderProfile)
  : option ProviderProfile :=
  head (List.filter (fun p => ProviderProfileType_eqb (type p) t && isActive p) profiles).

(** What [getProviderForModelWithProfiles] returns or throws, with the debug
    records it logs. *)
Definition getProviderForModelWithProfiles (providerRegistry : Registry) (modelId : string)
  (profiles : list ProviderProfile) (preferredProfileType : option ProviderProfileType)
  : result BaseProvider * list LogEntry :=
  let explicit :=
    if startsWith modelId "profile:" then
      match split_on "/" (slice_from 8 modelId) with
      | profileId :: modelParts =>
          match List.find (fun p => String.eqb (id p) profileId) profiles with
          | Some profile => Some (profile, modelParts)
          | None => None
          end
      | [] => None
      end
    else None in
  match explicit with
  | Some (profile, modelParts) =>
      (Ok (createProviderFromProfile profile),
       [LogDebug ("Using profile " +:+ name profile +:+ " for model " +:+ join "/" modelParts)])
  | None =>
      let preferred :=
        match preferredProfileType with
        | Some t => firstActive t profiles
        | None => None
        end in
      match preferred with
      | Some profile =>
          (Ok (createProviderFromProfile profile),
           [LogDebug ("Using " +:+ show_type (type profile) +:+ " profile: " +:+ name profile)])
      | None =>
          let lowerModel := toLowerCase modelId in
          let claude :=
            if isClaudeModel lowerModel then firstActive AnthropicCompatible profiles else None in
          match claude with
          | Some profile =>
              (Ok (createProviderFromProfile profile),
               [LogDebug ("Routing Claude model " +:+ modelId +:+ " to profile: " +:+
                          name profile)])
          | None =>
              let openai :=
                if isOpenAIModel lowerModel then firstActive OpenaiCompatible profiles else None in
              match openai with
              | Some profile =>
                  (Ok (createProviderFromProfile profile),
                   [LogDebug ("Routing OpenAI model " +:+ modelId +:+ " to profile: " +:+
                              name profile)])
              | None => (getProviderForModel providerRegistry modelId, [])
              end
          end
      end
  end.

(** The place of an id in [orderedIds], [-1] when it is not listed. *)
Definition placeOf (orderedIds : list string) (x : string) : Z :=
  match indexOf x orderedIds with
  | Some k => Z.of_nat k
  | None => -1
  end.

Definition byPlace (orderedIds : list string) (a b : string) : Prop :=
  placeOf orderedIds a <= placeOf orderedIds b.

(** A registry as [registerProvider] builds it: one entry per name, every
    name in lower case. *)
Definition wellFormed (providerRegistry : Registry) : Prop :=
  NoDup (getRegisteredProviderNames providerRegistry) /\
  Forall (fun n => toLowerCase n = n) (getRegisteredProviderNames providerRegistry).

(** The registry after a sequence of [registerProvider] calls on an empty map. *)
Definition registered (calls : list (string * ProviderRegistration)) : Registry :=
  fold_left (fun r call => registerProvider (fst call) (snd call) r) calls [].

Definition hasSlash (s : string) : Prop := In "/"%char (list_ascii_of_string s).

(** ** What a pattern of the guard matches *)

(** The strings a regular expression denotes. *)
Inductive lang : regex -> string -> Prop :=
| lang_eps : lang REps EmptyString
| lang_class (p : ascii -> bool) (c : ascii) :
    p c = true -> lang (RClass p) (String c EmptyString)
| lang_seq (r1 r2 : regex) (s1 s2 : string) :
    lang r1 s1 -> lang r2 s2 -> lang (RSeq r1 r2) (s1 +:+ s2)
| lang_alt_l (r1 r2 : regex) (s : string) : lang r1 s -> lang (RAlt r1 r2) s
| lang_alt_r (r1 r2 : regex) (s : string) : lang r2 s -> lang (RAlt r1 r2) s
| lang_star_nil (r : regex) : lang (RStar r) EmptyString
| lang_star_more (r : regex) (s1 s2 : string) :
    lang r s1 -> lang (RStar r) s2 -> lang (RStar r) (s1 +:+ s2).

(** A non-empty string of decimal digits. *)
Fixpoint allDigits (s : string) : bool :=
  match s with
  | EmptyString => true
  | String c s' => is_digit c && allDigits s'
  end.

Definition decimal (s : string) : bool := truthy_string s && allDigits s.

(** Dotted addresses of the loopback, private and link-local ranges, each
    group a non-empty string of digits. *)
Definition privateDotted (host : string) : Prop :=
  exists a b c,
    decimal a = true /\ decimal b = true /\ decimal c = true /\
    (host = "127." +:+ a +:+ "." +:+ b +:+ "." +:+ c \/
     host = "10." +:+ a +:+ "." +:+ b +:+ "." +:+ c \/
     (host = "192.168." +:+ b +:+ "." +:+ c) \/
     (host = "169.254." +:+ b +:+ "." +:+ c)).

(** ** The response stream: lines and text *)

(** A string that holds no line feed. *)
Fixpoint noNewline (s : string) : bool :=
  match s with
  | EmptyString => true
  | String c s' => negb (Ascii.eqb c LF) && noNewline s'
  end.

(** [line.startsWith('data: ')] *)
Definition isDataLine (line : string) : bool := startsWith line "data: ".

(** ** Trailing slashes *)

(** [n] slashes. *)
Fixpoint slashes (n : nat) : string :=
  match n with
  | O => EmptyString
  | S n' => String "/" (slashes n')
  end.

(** [s.endsWith('/')] *)
Fixpoint endsWithSlash (s : string) : bool :=
  match s with
  | EmptyString => false
  | String c EmptyString => Ascii.eqb c "/"
  | String _ s' => endsWithSlash s'
  end.

(** Hostnames of the other patterns, in lower case: [localhost], [0.0.0.0],
    the IPv6 loopback with or without brackets, a name that starts with
    [fe80:], [fc00:] or [fd00:], with or without an opening bracket, and the
    dotted addresses [172.n.b.c] for [n] from 16 to 31. *)
Definition internalOther (lowerHost : string) : Prop :=
  In lowerHost ["localhost"; "0.0.0.0"; "::1"; "[::1]"; "[::1"; "::1]"] \/
  (exists prefix tail,
     In prefix ["fe80:"; "fc00:"; "fd00:"; "[fe80:"; "[fc00:"; "[fd00:"] /\
     lowerHost = prefix +:+ tail) \/
  (exists n b c,
     16 <= n <= 31 /\ decimal b = true /\ decimal c = true /\
     lowerHost = "172." +:+ show_Z n +:+ "." +:+ b +:+ "." +:+ c).
(* ===================================================================== *)
(** * Part II: properties *)
(* ===================================================================== *)

(** ** Strings *)

Lemma prefix_toLowerCase (p s : string) :
  String.prefix p s = true -> String.prefix (toLowerCase p) (toLowerCase s) = true.
Proof.
  revert s. induction p as [|c p IH]; intros s H; [destruct s; reflexivity|].
  destruct s as [|d s]; simpl in *; [discriminate|].
  destruct (ascii_dec c d) as [->|Hne]; [|discriminate].
  destruct (ascii_dec (lower_ascii d) (lower_ascii d)); [auto|congruence].
Qed.

Lemma prefix_append (p s : string) : String.prefix p (p +:+ s) = true.
Proof.
  induction p as [|c p IH]; simpl; [now destruct s|].
  destruct (ascii_dec c c); [exact IH|congruence].
Qed.

Lemma includes_toLowerCase (s sub : string) :
  includes s sub = true -> includes (toLowerCase s) (toLowerCase sub) = true.
Proof.
  induction s as [|c s IH]; intros H.
  - change (String.prefix sub "" || false = true) in H.
    apply orb_true_iff in H as [H|H]; [|discriminate].
    apply prefix_toLowerCase in H.
    change (String.prefix (toLowerCase sub) (toLowerCase "") || false = true).
    now rewrite H.
  - change (String.prefix sub (String c s) || includes s sub = true) in H.
    change (String.prefix (toLowerCase sub) (toLowerCase (String c s))
            || includes (toLowerCase s) (toLowerCase sub) = true).
    apply orb_true_iff in H as [H|H].
    + apply prefix_toLowerCase in H. now rewrite H.
    + rewrite (IH H). apply orb_true_r.
Qed.

Lemma isClaudeModel_toLowerCase (modelId : string) :
  isClaudeModel modelId = true -> isClaudeModel (toLowerCase modelId) = true.
Proof.
  unfold isClaudeModel, startsWith, existsb. intros H.
  repeat (apply orb_true_iff in H as [H|H]); try discriminate.
  - apply prefix_toLowerCase in H. change (toLowerCase "claude-") with "claude-" in H.
    now rewrite H.
  - apply includes_toLowerCase in H. change (toLowerCase "opus") with "opus" in H.
    rewrite H. now rewrite !orb_true_r.
  - apply includes_toLowerCase in H. change (toLowerCase "sonnet") with "sonnet" in H.
    rewrite H. now rewrite !orb_true_r.
  - apply includes_toLowerCase in H. change (toLowerCase "haiku") with "haiku" in H.
    rewrite H. now rewrite !orb_true_r.
Qed.

(** ** The model mapper *)

Lemma find_the_only {A : Type} (f : A -> bool) (l : list A) (x : A) :
  In x l -> f x = true -> (forall y, In y l -> f y = true -> y = x) ->
  List.find f l = Some x.
Proof.
  intros Hin Hfx Hall.
  destruct (List.find f l) as [y|] eqn:E.
  - apply List.find_some in E as [Hy Hfy]. f_equal. now apply Hall.
  - apply (List.find_none _ _ E) in Hin. congruence.
Qed.

(** C4, as amended: the round trip [mapModelFromRemote (mapModelToRemote m p) p = m]
    holds when [m] is the [localModel] of an entry [e] of the mapping, no other
    entry's [localModel] equals [m] ignoring case, and no other entry's
    [remoteModel] equals [e]'s ignoring case. *)
Theorem mapModel_round_trip (p : ProviderProfile) (m : string) (e : ModelMappingEntry) :
  In e (modelMapping p) ->
  localModel e = m ->
  (forall e', In e' (modelMapping p) ->
              toLowerCase (localModel e') = toLowerCase m -> e' = e) ->
  (forall e', In e' (modelMapping p) ->
              toLowerCase (remoteModel e') = toLowerCase (remoteModel e) -> e' = e) ->
  mapModelFromRemote (mapModelToRemote m p) p = m.
Proof.
  intros Hin Hm Hlocal Hremote.
  unfold mapModelToRemote.
  rewrite (find_the_only _ _ e Hin).
  - unfold mapModelFromRemote. rewrite (find_the_only _ _ e Hin); auto.
    + apply String.eqb_refl.
    + intros y Hy Hf. apply String.eqb_eq in Hf. auto.
  - rewrite Hm. apply String.eqb_refl.
  - intros y Hy Hf. apply String.eqb_eq in Hf. auto.
Qed.

Lemma mapModel_round_trip_witness :
  mapModelFromRemote (mapModelToRemote "claude-3-opus" opusProfile) opusProfile = "claude-3-opus".
Proof.
  apply (mapModel_round_trip opusProfile "claude-3-opus"
           (mkMapping "claude-3-opus" "proxy-claude-opus-v1")).
  - simpl. left. reflexivity.
  - reflexivity.
  - intros e' [<-|[<-|[]]] H; try reflexivity; vm_compute in H; discriminate.
  - intros e' [<-|[<-|[]]] H; try reflexivity; vm_compute in H; discriminate.
Defined.

(** C4, as stated, fails: ["b"] is the [localModel] of exactly one entry, and
    the round trip returns ["a"], the first entry with the same remote model. *)
Lemma mapModel_round_trip_shared_remote :
  localOccurrences "b" sharedRemoteProfile = 1%nat /\
  mapModelFromRemote (mapModelToRemote "b" sharedRemoteProfile) sharedRemoteProfile = "a" /\
  "a" <> "b".
Proof. split; [reflexivity|split; [reflexivity|discriminate]]. Qed.

(** ** The SSRF guard *)

Section SsrfGuardProperties.

Variable newURL : string -> result URL.

Lemma scanPatterns_refuses (patterns : list regex) (host : string) (r : SsrfValidationResult) :
  scanPatterns patterns host false = Some r ->
  r = mkSsrf false (Some (internalReason host)) None /\
  scanPatterns patterns host true = Some (mkSsrf true None (Some true)).
Proof.
  induction patterns as [|pattern rest IH]; simpl; [discriminate|].
  destruct (test pattern host); [|exact IH].
  intros [= <-]. split; reflexivity.
Qed.

Lemma scanPatterns_passes (patterns : list regex) (host : string) :
  scanPatterns patterns host false = None -> scanPatterns patterns host true = None.
Proof.
  induction patterns as [|pattern rest IH]; simpl; [reflexivity|].
  destruct (test pattern host); [discriminate|exact IH].
Qed.

Lemma reasons_differ (host message : string) :
  internalReason host <> schemeReason /\
  internalReason host <> invalidReason message /\
  invalidReason message <> schemeReason.
Proof.
  unfold internalReason, schemeReason, invalidReason.
  split; [|split]; simpl; discriminate.
Qed.

(** The three ways the guard refuses a URL, read off the source. *)
Lemma validateBaseUrlSsrf_cases (url : string) (allow : option bool) :
  (exists message, newURL url = Throw message /\
     validateBaseUrlSsrf newURL url allow =
       Ok (mkSsrf false (Some (invalidReason (err_message message))) None)) \/
  (exists parsed, newURL url = Ok parsed /\
     existsb (String.eqb (protocol parsed)) ["http:"; "https:"] = false /\
     validateBaseUrlSsrf newURL url allow = Ok (mkSsrf false (Some schemeReason) None)) \/
  (exists parsed, newURL url = Ok parsed /\
     existsb (String.eqb (protocol parsed)) ["http:"; "https:"] = true /\
     validateBaseUrlSsrf newURL url allow =
       Ok (match scanPatterns internalPatterns (toLowerCase (hostname parsed))
                             (nullish allow false) with
           | Some r => r
           | None => mkSsrf true None None
           end)).
Proof.
  unfold validateBaseUrlSsrf, try_catch, bind.
  destruct (newURL url) as [parsed|e].
  - right. destruct (existsb _ _) eqn:E.
    + right. exists parsed. split; [reflexivity|split; [exact E|]].
      cbn [negb].
      now destruct (scanPatterns internalPatterns _ _).
    + left. exists parsed. split; [reflexivity|split; [exact E|reflexivity]].
  - left. exists e. split; reflexivity.
Qed.

Lemma validateBaseUrlSsrf_returns (url : string) (allow : option bool) :
  exists r, validateBaseUrlSsrf newURL url allow = Ok r.
Proof.
  destruct (validateBaseUrlSsrf_cases url allow)
    as [(m & _ & ->)|[(p & _ & _ & ->)|(p & _ & _ & ->)]]; eauto.
Qed.

(** C5: the guard returns for every input (its [try] catches what the URL
    parser throws); a URL refused for its hostname without the bypass flag
    is accepted, marked [bypassedByUser], with it; a URL refused for its
    scheme gets the identical refusal with the flag. *)
Theorem validateBaseUrlSsrf_total_and_bypass (url : string) :
  (forall allow, exists r, validateBaseUrlSsrf newURL url allow = Ok r) /\
  (forall r, validateBaseUrlSsrf newURL url (Some false) = Ok r ->
             rejectedForHostname r ->
             validateBaseUrlSsrf newURL url (Some true) = Ok (mkSsrf true None (Some true))) /\
  (forall r, validateBaseUrlSsrf newURL url (Some false) = Ok r ->
             rejectedForScheme r ->
             validateBaseUrlSsrf newURL url (Some true) = Ok r).
Proof.
  split; [|split].
  - intros allow. apply validateBaseUrlSsrf_returns.
  - intros r Hfalse [host ->].
    destruct (validateBaseUrlSsrf_cases url (Some false))
      as [(m & Hm & E)|[(p & Hp & Hs & E)|(p & Hp & Hs & E)]];
      rewrite E in Hfalse.
    + exfalso. apply (proj1 (proj2 (reasons_differ host (err_message m)))). congruence.
    + exfalso. apply (proj1 (reasons_differ host "")). congruence.
    + destruct (validateBaseUrlSsrf_cases url (Some true))
        as [(m' & Hm' & _)|[(p' & Hp' & Hs' & _)|(p' & Hp' & _ & ->)]];
        try congruence.
      assert (p' = p) as -> by congruence.
      cbn [nullish] in *.
      destruct (scanPatterns internalPatterns (toLowerCase (hostname p)) false) as [r0|] eqn:S.
      * apply scanPatterns_refuses in S as [_ ->]. reflexivity.
      * discriminate.
  - intros r Hfalse ->.
    destruct (validateBaseUrlSsrf_cases url (Some false))
      as [(m & Hm & E)|[(p & Hp & Hs & E)|(p & Hp & Hs & E)]];
      rewrite E in Hfalse.
    + exfalso. apply (proj2 (proj2 (reasons_differ "" (err_message m)))). congruence.
    + destruct (validateBaseUrlSsrf_cases url (Some true))
        as [(m' & Hm' & _)|[(p' & Hp' & Hs' & ->)|(p' & Hp' & Hs' & _)]];
        congruence.
    + exfalso. cbn [nullish] in Hfalse.
      destruct (scanPatterns internalPatterns (toLowerCase (hostname p)) false) as [r0|] eqn:S.
      * apply scanPatterns_refuses in S as [-> _].
        apply (proj1 (reasons_differ (toLowerCase (hostname p)) "")). congruence.
      * discriminate.
Qed.

End SsrfGuardProperties.

Lemma validateBaseUrlSsrf_total_and_bypass_witness :
  validateBaseUrlSsrf sampleURL "http://127.0.0.1:8080" (Some true)
    = Ok (mkSsrf true None (Some true)) /\
  validateBaseUrlSsrf sampleURL "ftp://example.com/file" (Some true)
    = Ok (mkSsrf false (Some schemeReason) None).
Proof.
  split.
  - apply (proj1 (proj2 (validateBaseUrlSsrf_total_and_bypass sampleURL "http://127.0.0.1:8080"))
             (mkSsrf false (Some (internalReason "127.0.0.1")) None)).
    + vm_compute. reflexivity.
    + exists "127.0.0.1". reflexivity.
  - apply (proj2 (proj2 (validateBaseUrlSsrf_total_and_bypass sampleURL "ftp://example.com/file"))
             (mkSsrf false (Some schemeReason) None)).
    + vm_compute. reflexivity.
    + reflexivity.
Defined.

(** ** The registry: sorting by priority *)

Lemma comparePriority_le (x y : string * ProviderRegistration) :
  (comparePriority x y <=? 0) = (priorityOf y <=? priorityOf x).
Proof.
  unfold comparePriority, priorityOf.
  destruct (Z.leb_spec (nullish (reg_priority (snd y)) 0 - nullish (reg_priority (snd x)) 0) 0);
    destruct (Z.leb_spec (nullish (reg_priority (snd y)) 0) (nullish (reg_priority (snd x)) 0));
    auto; lia.
Qed.

Lemma insertSorted_permutation (x : string * ProviderRegistration) (l : Registry) :
  Permutation (insertSorted x l) (x :: l).
Proof.
  induction l as [|y l IH]; simpl; [reflexivity|].
  destruct (comparePriority x y <=? 0); [reflexivity|].
  rewrite IH. apply perm_swap.
Qed.

Lemma sortByPriority_permutation (l : Registry) : Permutation (sortByPriority l) l.
Proof.
  induction l as [|x l IH]; simpl; [reflexivity|].
  rewrite insertSorted_permutation. now constructor.
Qed.

Lemma insertSorted_sorted (x : string * ProviderRegistration) (l : Registry) :
  StronglySorted descending l -> StronglySorted descending (insertSorted x l).
Proof.
  induction 1 as [|y l Hl IH Hy]; simpl.
  - constructor; constructor.
  - rewrite comparePriority_le.
    destruct (Z.leb_spec (priorityOf y) (priorityOf x)) as [Hle|Hlt].
    + constructor; [now constructor|].
      constructor; [exact Hle|].
      eapply Forall_impl; [exact Hy|]. unfold descending. intros z Hz. lia.
    + constructor; [exact IH|].
      rewrite insertSorted_permutation.
      constructor; [unfold descending; lia|exact Hy].
  Qed.

Lemma sortByPriority_sorted (l : Registry) : StronglySorted descending (sortByPriority l).
Proof.
  induction l as [|x l IH]; simpl; [constructor|].
  now apply insertSorted_sorted.
Qed.

(** Entries of one priority keep their order: the sort is stable. *)
Lemma insertSorted_stable (p : Z) (x : string * ProviderRegistration) (l : Registry) :
  List.filter (fun e => priorityOf e =? p) (insertSorted x l) =
  List.filter (fun e => priorityOf e =? p) (x :: l).
Proof.
  induction l as [|y l IH]; [reflexivity|].
  cbn [insertSorted]. rewrite comparePriority_le.
  destruct (Z.leb_spec (priorityOf y) (priorityOf x)) as [Hle|Hlt]; [reflexivity|].
  cbn [List.filter] in *. rewrite IH.
  destruct (Z.eqb_spec (priorityOf x) p), (Z.eqb_spec (priorityOf y) p); auto; lia.
Qed.

Lemma sortByPriority_stable (p : Z) (l : Registry) :
  List.filter (fun e => priorityOf e =? p) (sortByPriority l) =
  List.filter (fun e => priorityOf e =? p) l.
Proof.
  induction l as [|x l IH]; [reflexivity|].
  cbn [sortByPriority]. rewrite insertSorted_stable.
  cbn [List.filter]. now rewrite IH.
Qed.

Lemma firstCanHandle_find (registrations : Registry) (lowerModel : string) :
  firstCanHandle registrations lowerModel =
  option_map fst (List.find (fun entry => accepts (snd entry) lowerModel) registrations).
Proof.
  induction registrations as [|[n reg] rest IH]; simpl; [reflexivity|].
  now destruct (accepts reg lowerModel).
Qed.

Lemma firstPrefix_find (registrations : Registry) (lowerModel : string) :
  firstPrefix registrations lowerModel =
  option_map fst (List.find (fun entry => String.prefix (fst entry +:+ "-") lowerModel)
                            registrations).
Proof.
  induction registrations as [|[n reg] rest IH]; simpl; [reflexivity|].
  unfold startsWith. now destruct (String.prefix (n +:+ "-") lowerModel).
Qed.

(** C3, as amended: the registrations are sorted by priority, highest first
    and stably; the name returned is that of the first registration whose
    [canHandleModel] accepts the lower-cased model id, otherwise of the first
    whose name followed by a dash is a prefix of the lower-cased model id,
    otherwise ["claude"]; equal registries and model ids give equal names. *)
Theorem getProviderNameForModel_resolution (providerRegistry : Registry) (modelId : string) :
  Permutation (sortByPriority providerRegistry) providerRegistry /\
  StronglySorted descending (sortByPriority providerRegistry) /\
  (forall p, List.filter (fun e => priorityOf e =? p) (sortByPriority providerRegistry) =
             List.filter (fun e => priorityOf e =? p) providerRegistry) /\
  getProviderNameForModel providerRegistry modelId =
    resolveProviderName_lowered providerRegistry modelId /\
  (forall registry' modelId',
      registry' = providerRegistry -> modelId' = modelId ->
      getProviderNameForModel registry' modelId' =
      getProviderNameForModel providerRegistry modelId).
Proof.
  split; [apply sortByPriority_permutation|].
  split; [apply sortByPriority_sorted|].
  split; [intros p; apply sortByPriority_stable|].
  split; [|intros ? ? -> ->; reflexivity].
  unfold getProviderNameForModel, resolveProviderName_lowered.
  rewrite firstCanHandle_find, firstPrefix_find.
  destruct (List.find _ (sortByPriority providerRegistry)) as [e|]; [reflexivity|].
  simpl. now destruct (List.find _ (sortByPriority providerRegistry)).
Qed.

Lemma getProviderNameForModel_resolution_witness :
  getProviderNameForModel sampleRegistry "Claude-Opus-4" =
  getProviderNameForModel sampleRegistry "Claude-Opus-4".
Proof.
  apply (proj2 (proj2 (proj2 (proj2
           (getProviderNameForModel_resolution sampleRegistry "Claude-Opus-4")))));
    reflexivity.
Defined.

(** C3, as stated, fails: for the model id ["FOO-1"] the code answers ["foo"],
    whose name with a dash is a prefix of the lower-cased id only; the
    case-sensitive reading of the claim answers ["claude"]. *)
Lemma getProviderNameForModel_prefix_ignores_case :
  getProviderNameForModel fooRegistry "FOO-1" = "foo" /\
  resolveProviderName_claimed fooRegistry "FOO-1" = "claude" /\
  "foo" <> "claude".
Proof. split; [reflexivity|split; [reflexivity|discriminate]]. Qed.

(** ** The registry: the default resolution always finds a provider *)

Lemma map_get_map_set (key key' : string) (value : ProviderRegistration) (m : Registry) :
  map_get key m <> None -> map_get key (map_set key' value m) <> None.
Proof.
  induction m as [|[k v] rest IH]; simpl; [congruence|].
  destruct (String.eqb k key'); simpl;
    destruct (String.eqb k key); auto; congruence.
Qed.

Lemma registryAfter_has_claude (isCursorModel : string -> bool) (cp cup : BaseProvider)
  (calls : list (string * ProviderRegistration)) :
  map_get "claude" (registryAfter isCursorModel cp cup calls) <> None.
Proof.
  unfold registryAfter.
  assert (map_get "claude" (initialRegistry isCursorModel cp cup) <> None) as H
    by (vm_compute; discriminate).
  revert H. generalize (initialRegistry isCursorModel cp cup).
  induction calls as [|call calls IH]; intros r H; simpl; [exact H|].
  apply IH. unfold registerProvider. now apply map_get_map_set.
Qed.

Lemma getProviderForModel_total (providerRegistry : Registry) (modelId : string) :
  map_get "claude" providerRegistry <> None ->
  exists provider, getProviderForModel providerRegistry modelId = Ok provider.
Proof.
  intros H. unfold getProviderForModel.
  destruct (getProviderByName _ _) as [provider|]; [eauto|].
  destruct (map_get "claude" providerRegistry); [eauto|congruence].
Qed.

(** ** The fallback chain *)

Lemma createProviderFromProfile_matching (profiles : list ProviderProfile) :
  List.map createProviderFromProfile (matchingProfiles AnthropicCompatible profiles) =
  List.map AnthropicProxyProvider (matchingProfiles AnthropicCompatible profiles).
Proof.
  unfold matchingProfiles.
  induction profiles as [|p rest IH]; [reflexivity|].
  cbn [List.filter].
  destruct (ProviderProfileType_eqb (type p) AnthropicCompatible && isActive p) eqn:E;
    [|exact IH].
  cbn [List.map]. rewrite IH. f_equal.
  unfold createProviderFromProfile. destruct (type p); [reflexivity|discriminate].
Qed.

(** C2: for a Claude-family model id the chain holds one Anthropic proxy per
    active [anthropic-compatible] profile, in the order given, and then the
    provider of the registry's default resolution: N+1 candidates for N such
    profiles.  The registry is the loaded module's after any further
    registrations. *)
Theorem getFallbackProviders_claude_family (isCursorModel : string -> bool)
  (claudeProvider cursorProvider : BaseProvider)
  (calls : list (string * ProviderRegistration))
  (modelId : string) (profiles : list ProviderProfile) :
  isClaudeModel modelId = true \/ isClaudeModel (toLowerCase modelId) = true ->
  let providerRegistry := registryAfter isCursorModel claudeProvider cursorProvider calls in
  let active := matchingProfiles AnthropicCompatible profiles in
  exists standardProvider,
    getProviderForModel providerRegistry modelId = Ok standardProvider /\
    getFallbackProviders providerRegistry modelId profiles =
      Ok (List.map AnthropicProxyProvider active ++ [standardProvider]) /\
    length (List.map AnthropicProxyProvider active ++ [standardProvider]) = S (length active).
Proof.
  intros Hfamily providerRegistry active.
  assert (isClaudeModel (toLowerCase modelId) = true) as Hlower
    by (destruct Hfamily; [now apply isClaudeModel_toLowerCase|assumption]).
  destruct (getProviderForModel_total providerRegistry modelId) as [standard Hstd];
    [apply registryAfter_has_claude|].
  exists standard. split; [exact Hstd|]. split.
  - unfold getFallbackProviders, profileTypeFor. rewrite Hlower, Hstd.
    cbn [bind]. now rewrite createProviderFromProfile_matching.
  - rewrite length_app, length_map. cbn [length]. lia.
Qed.

Lemma getFallbackProviders_claude_family_witness :
  getFallbackProviders sampleRegistry "Claude-3-Opus"
    [profileA; sampleProfile "id-x" "X" OpenaiCompatible true 5 [];
     sampleProfile "id-y" "Y" AnthropicCompatible false 4 []; profileB] =
  Ok [AnthropicProxyProvider profileA; AnthropicProxyProvider profileB;
      ExternalProvider "claude"].
Proof.
  destruct (getFallbackProviders_claude_family
              (fun m => String.prefix "cursor-" m)
              (ExternalProvider "claude") (ExternalProvider "cursor") []
              "Claude-3-Opus"
              [profileA; sampleProfile "id-x" "X" OpenaiCompatible true 5 [];
               sampleProfile "id-y" "Y" AnthropicCompatible false 4 []; profileB])
    as (standard & Hstd & Hchain & _).
  - right. vm_compute. reflexivity.
  - vm_compute in Hstd. injection Hstd as <-. exact Hchain.
Defined.

(** ** Execution with fallback *)

Section Fallback.

Context {T State : Type}.
Variable executor : BaseProvider -> State -> Settled T * State.
Variable modelId : string.

(** The value [lastError] holds after the rejections. *)
Local Abbreviation lastOf values lastError :=
  (fold_left (fun (_ : option Thrown) (v : Thrown) => Some v) values lastError).

Lemma lastOf_nonempty (values : list Thrown) :
  forall lastError, values <> [] ->
    exists earlier last, values = earlier ++ [last] /\ lastOf values lastError = Some last.
Proof.
  induction values as [|v values IH]; intros lastError Hne; [congruence|].
  destruct values as [|v' values].
  - exists [], v. split; reflexivity.
  - destruct (IH (Some v)) as (earlier & last & -> & Hlast); [discriminate|].
    exists (v :: earlier), last. split; [reflexivity|exact Hlast].
Qed.

Lemma rejections_length (providers : list BaseProvider) (s s' : State) (values : list Thrown) :
  rejections executor providers s values s' -> length values = length providers.
Proof. induction 1; cbn [length]; congruence. Qed.

(** After candidates that reject with readable values the loop goes on with
    the candidates left, having logged one warning for each. *)
Lemma fallbackLoop_after_rejections (total : nat) (failed rest : list BaseProvider)
  (s s1 : State) (values : list Thrown) :
  rejections executor failed s values s1 ->
  Forall (fun v => readable v = true) values ->
  forall (i : nat) (lastError : option Thrown),
    let run := fallbackLoop executor modelId total i (failed ++ rest) lastError s in
    let later :=
      fallbackLoop executor modelId total (i + length failed) rest (lastOf values lastError) s1 in
    outcome run = outcome later /\
    invoked run = failed ++ invoked later /\
    final run = final later /\
    length (warnings (logged run)) = (length failed + length (warnings (logged later)))%nat.
Proof.
  induction 1 as [s|p ps s s1 s' thrown values Hp _ IH]; intros Hreadable i lastError.
  - cbn [app length fold_left]. rewrite Nat.add_0_r. auto.
  - inversion Hreadable as [|? ? Hthrown Hvalues]; subst.
    cbn [app fallbackLoop]. rewrite Hp.
    unfold readable in Hthrown.
    destruct (readMessage thrown) as [message|raised]; [|discriminate].
    cbn [outcome logged invoked final fold_left length].
    destruct (IH Hvalues (S i) (Some thrown)) as (Ho & Hi & Hf & Hw).
    replace (i + S (length ps))%nat with (S i + length ps)%nat by lia.
    split; [exact Ho|]. split; [now rewrite Hi|]. split; [exact Hf|].
    unfold warnings in *. cbn [List.filter isWarn length]. now rewrite Hw.
Qed.

End Fallback.

(** C1, as amended: the candidates of the chain are invoked in order.  As
    long as the candidates reject with values whose [message] can be read
    (an [Error] object, and any value but [undefined] and [null]), one
    warning is logged for each and the next is tried: the result of the
    first one that succeeds is returned and no later one is invoked; when
    every candidate has rejected, the last rejected value itself is thrown,
    unwrapped, if it is truthy (an [Error] object is), and a new
    [All providers failed] error if it is falsy.  A candidate that rejects
    with [undefined], [null] or a value whose [message] cannot be read makes
    the [catch] throw: that throw is the outcome and no later candidate is
    invoked.  The registry is the loaded module's after any further
    registrations; the executor may keep a state of its own. *)
Theorem executeWithFallback_first_success_or_last_error {T State : Type}
  (isCursorModel : string -> bool) (claudeProvider cursorProvider : BaseProvider)
  (calls : list (string * ProviderRegistration))
  (modelId : string) (profiles : list ProviderProfile)
  (executor : BaseProvider -> State -> Settled T * State) (s : State) :
  let providerRegistry := registryAfter isCursorModel claudeProvider cursorProvider calls in
  let run := executeWithFallback providerRegistry modelId profiles executor s in
  exists chain,
    getFallbackProviders providerRegistry modelId profiles = Ok chain /\
    (forall failed c later values s1 value s2,
        chain = failed ++ c :: later ->
        rejections executor failed s values s1 ->
        Forall (fun v => readable v = true) values ->
        executor c s1 = (Fulfilled value, s2) ->
        outcome run = Fulfilled value /\
        invoked run = failed ++ [c] /\
        final run = s2 /\
        length (warnings (logged run)) = length failed) /\
    (forall values s1,
        rejections executor chain s values s1 ->
        Forall (fun v => readable v = true) values ->
        exists earlier last,
          values = earlier ++ [last] /\
          outcome run = Rejected (raisedAtTheEnd modelId last) /\
          (forall e, last = ThrownError e -> outcome run = Rejected (ThrownError e)) /\
          invoked run = chain /\
          final run = s1 /\
          length (warnings (logged run)) = length chain) /\
    (forall failed c later values s1 thrown raised s2,
        chain = failed ++ c :: later ->
        rejections executor failed s values s1 ->
        Forall (fun v => readable v = true) values ->
        executor c s1 = (Rejected thrown, s2) ->
        readMessage thrown = inr raised ->
        outcome run = Rejected raised /\
        invoked run = failed ++ [c] /\
        final run = s2 /\
        length (warnings (logged run)) = length failed).
Proof.
  intros providerRegistry run.
  destruct (getProviderForModel_total providerRegistry modelId) as [standard Hstd];
    [apply registryAfter_has_claude|].
  assert (exists earlier, getFallbackProviders providerRegistry modelId profiles =
                          Ok (earlier ++ [standard])) as [front Hchain].
  { unfold getFallbackProviders. rewrite Hstd. cbn [bind]. eauto. }
  exists (front ++ [standard]). split; [exact Hchain|].
  subst run. unfold executeWithFallback. rewrite Hchain. split; [|split].
  - intros failed c later values s1 value s2 -> Hfailed Hreadable Hc.
    destruct (fallbackLoop_after_rejections executor modelId
                (length (failed ++ c :: later)) failed (c :: later) s s1 values
                Hfailed Hreadable 0%nat None) as (Ho & Hi & Hf & Hw).
    cbn [fallbackLoop] in Ho, Hi, Hf, Hw. rewrite Hc in Ho, Hi, Hf, Hw.
    cbn [outcome invoked final logged] in Ho, Hi, Hf, Hw.
    split; [exact Ho|]. split; [exact Hi|]. split; [exact Hf|].
    rewrite Hw. unfold warnings. cbn. lia.
  - intros values s1 Hall Hreadable.
    destruct (fallbackLoop_after_rejections executor modelId
                (length (front ++ [standard])) (front ++ [standard]) [] s s1 values
                Hall Hreadable 0%nat None) as (Ho & Hi & Hf & Hw).
    rewrite app_nil_r in Ho, Hi, Hf, Hw.
    cbn [fallbackLoop outcome invoked final logged] in Ho, Hi, Hf, Hw.
    destruct (lastOf_nonempty values None) as (earlier & last & Hvalues & Hlast).
    { apply rejections_length in Hall. rewrite length_app in Hall. cbn in Hall.
      destruct values; [cbn in Hall; lia|discriminate]. }
    rewrite Hlast in Ho.
    exists earlier, last. split; [exact Hvalues|].
    split; [exact Ho|]. split; [intros e ->; exact Ho|].
    split; [now rewrite Hi, app_nil_r|]. split; [exact Hf|].
    rewrite Hw. unfold warnings. cbn. lia.
  - intros failed c later values s1 thrown raised s2 -> Hfailed Hreadable Hc Hraised.
    destruct (fallbackLoop_after_rejections executor modelId
                (length (failed ++ c :: later)) failed (c :: later) s s1 values
                Hfailed Hreadable 0%nat None) as (Ho & Hi & Hf & Hw).
    cbn [fallbackLoop] in Ho, Hi, Hf, Hw. rewrite Hc, Hraised in Ho, Hi, Hf, Hw.
    cbn [outcome invoked final logged] in Ho, Hi, Hf, Hw.
    split; [exact Ho|]. split; [exact Hi|]. split; [exact Hf|].
    rewrite Hw. unfold warnings. cbn. lia.
Qed.

Lemma executeWithFallback_first_success_or_last_error_witness :
  let run := executeWithFallback sampleRegistry "claude-3-opus" [profileA; profileB]
               proxiesFail tt in
  outcome run = Fulfilled "answer from claude" /\
  invoked run = [AnthropicProxyProvider profileA; AnthropicProxyProvider profileB;
                 ExternalProvider "claude"] /\
  final run = tt /\
  length (warnings (logged run)) = 2%nat.
Proof.
  destruct (executeWithFallback_first_success_or_last_error
              (fun m => String.prefix "cursor-" m)
              (ExternalProvider "claude") (ExternalProvider "cursor") []
              "claude-3-opus" [profileA; profileB] proxiesFail tt)
    as (chain & Hchain & Hfirst & _).
  vm_compute in Hchain. injection Hchain as <-.
  apply (Hfirst [AnthropicProxyProvider profileA; AnthropicProxyProvider profileB]
                (ExternalProvider "claude") []
                [ThrownError (newError "anthropic-proxy:A is down");
                 ThrownError (newError "anthropic-proxy:B is down")] tt
                "answer from claude" tt).
  - reflexivity.
  - repeat (eapply rejections_more; [reflexivity|]). apply rejections_none.
  - repeat constructor.
  - reflexivity.
Defined.

(** C1, as stated, fails: with the chain [A(fails), B(fails)] the error raised
    is the value the last candidate raised, with no wrapper, and it is the
    same outcome a chain of that candidate alone gives. *)
Lemma executeWithFallback_raises_unwrapped :
  let two := executeWithFallback sampleRegistry "claude-3-opus" [profileA] allFail tt in
  let one := executeWithFallback sampleRegistry "claude-3-opus" [] allFail tt in
  invoked two = [AnthropicProxyProvider profileA; ExternalProvider "claude"] /\
  invoked one = [ExternalProvider "claude"] /\
  outcome two = fst (allFail (ExternalProvider "claude") tt) /\
  outcome two = outcome one.
Proof. repeat split. Qed.

(** What the claim leaves out.  A profile listed twice is tried twice, and
    the second call may answer where the first failed.  An executor that
    rejects with [null] ends the loop at the first candidate with a
    [TypeError], and one that rejects with the number [0] ends in the
    [All providers failed] error. *)
Example executeWithFallback_other_rejections :
  let twice := executeWithFallback sampleRegistry "claude-3-opus" [profileA; profileA]
                 failsOnce 0%nat in
  let null := executeWithFallback sampleRegistry "claude-3-opus" [profileA; profileB]
                rejectsWithNull tt in
  let zero := executeWithFallback sampleRegistry "claude-3-opus" [profileA]
                rejectsWithZero tt in
  (outcome twice = Fulfilled "answer from anthropic-proxy:A" /\
   invoked twice = [AnthropicProxyProvider profileA; AnthropicProxyProvider profileA]) /\
  (outcome null =
     Rejected (ThrownError
                 (typeError "Cannot read properties of null (reading 'message')")) /\
   invoked null = [AnthropicProxyProvider profileA] /\
   warnings (logged null) = []) /\
  (outcome zero =
     Rejected (ThrownError (newError "All providers failed for model: claude-3-opus")) /\
   invoked zero = [AnthropicProxyProvider profileA; ExternalProvider "claude"]).
Proof. repeat split. Qed.

(** ** The environment handed to the SDK *)

Lemma copyIfSet_lookup (process_env env : gmap string string) (key k : string) :
  copyIfSet process_env env key !! k =
  if decide (key = k) then
    match forwarded process_env k with Some v => Some v | None => env !! k end
  else env !! k.
Proof.
  unfold copyIfSet, forwarded.
  destruct (decide (key = k)) as [->|Hne].
  - destruct (process_env !! k) as [v|]; [|reflexivity].
    destruct (truthy_string v); [|reflexivity]. apply lookup_insert_eq.
  - destruct (process_env !! key) as [v|]; [|reflexivity].
    destruct (truthy_string v); [|reflexivity]. now apply lookup_insert_ne.
Qed.

Lemma foldl_copyIfSet_lookup (process_env : gmap string string) (keys : list string) :
  forall (env : gmap string string) (k : string),
    foldl (copyIfSet process_env) env keys !! k = None \/
    foldl (copyIfSet process_env) env keys !! k = env !! k \/
    (In k keys /\ foldl (copyIfSet process_env) env keys !! k = process_env !! k).
Proof.
  induction keys as [|key keys IH]; intros env k; cbn [foldl].
  - right. left. reflexivity.
  - destruct (IH (copyIfSet process_env env key) k) as [H|[H|[Hin H]]].
    + left. exact H.
    + rewrite H, copyIfSet_lookup. destruct (decide (key = k)) as [->|Hne].
      * unfold forwarded. destruct (process_env !! k) as [v|] eqn:E.
        -- destruct (truthy_string v); [|now (right; left)].
           right. right. split; [now left|reflexivity].
        -- right. left. reflexivity.
      * right. left. reflexivity.
    + right. right. split; [now right|exact H].
Qed.

Lemma foldl_copyIfSet_agree (env1 env2 : gmap string string) (keys : list string) :
  (forall k, In k keys -> env1 !! k = env2 !! k) ->
  forall env, foldl (copyIfSet env1) env keys = foldl (copyIfSet env2) env keys.
Proof.
  induction keys as [|key keys IH]; intros Hagree env; cbn [foldl]; [reflexivity|].
  assert (copyIfSet env1 env key = copyIfSet env2 env key) as ->.
  { unfold copyIfSet. rewrite (Hagree key); [reflexivity|now left]. }
  apply IH. intros k Hk. apply Hagree. now right.
Qed.

(** C7: every variable of the forwarded environment is an allowlisted one
    with the value the process environment gives it, or one of the two
    overrides; [ANTHROPIC_BASE_URL] and [ANTHROPIC_API_KEY] hold the
    profile's [baseUrl] and [apiKey]; two process environments that agree on
    the allowlisted variables give the same forwarded environment. *)
Theorem buildEnv_allowlist (profile : ProviderProfile) :
  (forall (process_env : gmap string string) (k v : string),
      buildEnv process_env profile !! k = Some v ->
      (In k ALLOWED_ENV_VARS /\ process_env !! k = Some v) \/
      (k = "ANTHROPIC_BASE_URL" /\ v = baseUrl profile) \/
      (k = "ANTHROPIC_API_KEY" /\ v = apiKey profile)) /\
  (forall process_env : gmap string string,
      buildEnv process_env profile !! "ANTHROPIC_BASE_URL" = Some (baseUrl profile) /\
      buildEnv process_env profile !! "ANTHROPIC_API_KEY" = Some (apiKey profile)) /\
  (forall env1 env2 : gmap string string,
      (forall k, In k ALLOWED_ENV_VARS -> env1 !! k = env2 !! k) ->
      buildEnv env1 profile = buildEnv env2 profile).
Proof.
  split; [|split].
  - intros process_env k v. unfold buildEnv.
    destruct (decide (k = "ANTHROPIC_API_KEY")) as [->|Hkey].
    { rewrite lookup_insert_eq. intros [= <-]. right. right. auto. }
    rewrite lookup_insert_ne by congruence.
    destruct (decide (k = "ANTHROPIC_BASE_URL")) as [->|Hurl].
    { rewrite lookup_insert_eq. intros [= <-]. right. left. auto. }
    rewrite lookup_insert_ne by congruence.
    destruct (foldl_copyIfSet_lookup process_env ALLOWED_ENV_VARS ∅ k) as [H|[H|[Hin H]]];
      rewrite H.
    + discriminate.
    + rewrite lookup_empty. discriminate.
    + intros Hv. left. auto.
  - intros process_env. unfold buildEnv. split.
    + rewrite lookup_insert_ne by discriminate. apply lookup_insert_eq.
    + apply lookup_insert_eq.
  - intros env1 env2 Hagree. unfold buildEnv.
    now rewrite (foldl_copyIfSet_agree env1 env2 ALLOWED_ENV_VARS Hagree).
Qed.

Lemma buildEnv_allowlist_witness :
  buildEnv processEnv1 profileA = buildEnv processEnv2 profileA.
Proof.
  apply (proj2 (proj2 (buildEnv_allowlist profileA)) processEnv1 processEnv2).
  intros k Hk. unfold ALLOWED_ENV_VARS in Hk. cbn [In] in Hk.
  repeat (destruct Hk as [<-|Hk]; [vm_compute; reflexivity|]).
  destruct Hk.
Defined.

(** ** The connection test *)

Section ConnectionTestProperties.

Variable fetch : Request -> result Response.
Variable startTime endTime : Z.
Variable isoNow : string.

Local Abbreviation run := (testProfileConnection fetch startTime endTime isoNow).

Lemma testProfileConnection_stamped (profile : ConnectionTestInput) :
  testedAt (run profile) = isoNow /\
  responseTimeMs (run profile) = Some (endTime - startTime).
Proof.
  unfold testProfileConnection, bind.
  destruct (t_type profile);
    (destruct (fetch _) as [response|e];
     [ repeat match goal with |- context [if ?c then _ else _] => destruct c end
     | destruct (String.eqb _ _) ]);
    split; reflexivity.
Qed.

(** C8, as amended: every result carries [testedAt] and [responseTimeMs].
    For an [anthropic-compatible] profile the one [POST] to
    [{baseUrl}/v1/messages] answers 401 or 403: authentication failure;
    200, 400 or 404: success.  For an [openai-compatible] profile the one
    [GET] to [{baseUrl}/v1/models] answers 401 or 403: authentication
    failure; any status from 200 to 299: success, with the models read off
    the body; any other status: failure with an unexpected-response error. *)
Theorem testProfileConnection_classification (profile : ConnectionTestInput) :
  (testedAt (run profile) = isoNow /\
   responseTimeMs (run profile) = Some (endTime - startTime)) /\
  (forall response,
      t_type profile = AnthropicCompatible ->
      fetch (anthropicTestRequest
               (stripTrailingSlashes (t_baseUrl profile) +:+ "/v1/messages")
               (t_apiKey profile)) = Ok response ->
      (status response = 401 \/ status response = 403 ->
         success (run profile) = false /\
         error (run profile) = Some authFailureMessage) /\
      (status response = 200 \/ status response = 400 \/ status response = 404 ->
         success (run profile) = true)) /\
  (forall response,
      t_type profile = OpenaiCompatible ->
      fetch (openaiTestRequest
               (stripTrailingSlashes (t_baseUrl profile) +:+ "/v1/models")
               (t_apiKey profile)) = Ok response ->
      (status response = 401 \/ status response = 403 ->
         success (run profile) = false /\
         error (run profile) = Some authFailureMessage) /\
      (200 <= status response <= 299 ->
         success (run profile) = true /\
         availableModels (run profile) = harvestModels (json_body response)) /\
      (status response <> 401 -> status response <> 403 ->
       ~ (200 <= status response <= 299) ->
         success (run profile) = false /\
         error (run profile) = Some (unexpectedMessage response) /\
         String.prefix "Unexpected response: " (unexpectedMessage response) = true)).
Proof.
  split; [apply testProfileConnection_stamped|]. split.
  - intros response Htype Hfetch.
    unfold testProfileConnection. rewrite Htype, Hfetch. cbn [bind]. split.
    + intros Hs. destruct Hs as [Hs | Hs]; rewrite Hs; split; reflexivity.
    + intros Hs. unfold response_ok.
      destruct Hs as [Hs | [Hs | Hs]]; rewrite Hs; reflexivity.
  - intros response Htype Hfetch.
    unfold testProfileConnection. rewrite Htype, Hfetch. cbn [bind]. split; [|split].
    + intros Hs. destruct Hs as [Hs | Hs]; rewrite Hs; split; reflexivity.
    + intros Hrange.
      assert ((status response =? 401) || (status response =? 403) = false) as ->
        by (apply orb_false_iff; split; apply Z.eqb_neq; lia).
      assert (response_ok response = true) as ->
        by (unfold response_ok; apply andb_true_iff; split; apply Z.leb_le; lia).
      split; reflexivity.
    + intros H401 H403 Hrange.
      assert ((status response =? 401) || (status response =? 403) = false) as ->
        by (apply orb_false_iff; split; now apply Z.eqb_neq).
      assert (response_ok response = false) as ->.
      { unfold response_ok. apply andb_false_iff.
        destruct (Z.leb_spec 200 (status response)); [right|now left].
        apply Z.leb_gt. lia. }
      repeat split. unfold unexpectedMessage. apply prefix_append.
Qed.

End ConnectionTestProperties.

Lemma testProfileConnection_classification_witness :
  success (testProfileConnection (fetchStatus 403) 100 142 "2025-01-01T00:00:00.000Z"
             (sampleTestInput AnthropicCompatible)) = false /\
  error (testProfileConnection (fetchStatus 403) 100 142 "2025-01-01T00:00:00.000Z"
           (sampleTestInput AnthropicCompatible)) = Some authFailureMessage.
Proof.
  apply (proj1 (proj1 (proj2 (testProfileConnection_classification (fetchStatus 403) 100 142
                                "2025-01-01T00:00:00.000Z" (sampleTestInput AnthropicCompatible)))
                  (mkResponse 403 "" (Ok EmptyString)
                     (Throw (mkError "SyntaxError" "Unexpected end of JSON input")))
                  eq_refl eq_refl)).
  right. reflexivity.
Defined.

(** C8, as stated, fails: an [openai-compatible] endpoint answering 204, a
    status other than 200, 401 and 403, is reported as a success. *)
Lemma testProfileConnection_accepts_204 :
  success (testProfileConnection (fetchStatus 204) 100 142 "2025-01-01T00:00:00.000Z"
             (sampleTestInput OpenaiCompatible)) = true /\
  error (testProfileConnection (fetchStatus 204) 100 142 "2025-01-01T00:00:00.000Z"
           (sampleTestInput OpenaiCompatible)) = None /\
  204 <> 200 /\ 204 <> 401 /\ 204 <> 403.
Proof. repeat split; discriminate. Qed.

(** ** The profile service: creating a profile *)

(** Up to [2^53] in magnitude the sum is exact. *)
Lemma plusOne_exact (x : Z) : - 2 ^ 53 <= x < 2 ^ 53 -> plusOne x = x + 1.
Proof.
  intros Hx. unfold plusOne, toDouble.
  destruct (Z.abs (x + 1) <=? 2 ^ 53) eqn:E; [reflexivity|].
  apply Z.leb_gt in E. lia.
Qed.

Lemma fold_left_max_bounds (l : list Z) :
  forall a, a <= fold_left Z.max l a /\ Forall (fun x => x <= fold_left Z.max l a) l.
Proof.
  induction l as [|x l IH]; intros a; simpl.
  - split; [lia|constructor].
  - destruct (IH (Z.max a x)) as [Ha Hl]. split; [lia|].
    constructor; [lia|exact Hl].
Qed.

Lemma maxPriorityOf_bounds (profiles : list ProviderProfile) :
  Forall (fun p => priority p <= maxPriorityOf profiles) profiles.
Proof.
  destruct profiles as [|p rest]; [constructor|].
  unfold maxPriorityOf.
  destruct (fold_left_max_bounds (List.map priority rest) (priority p)) as [Hp Hrest].
  constructor; [exact Hp|].
  exact (proj1 (List.Forall_map priority _ rest) Hrest).
Qed.

Section ProfileServiceProperties.

Variable newURL : string -> result URL.
Variable randomUUID : string.
Variable isoNow : string.

Local Abbreviation create := (createProfile newURL randomUUID isoNow).


End ProfileServiceProperties.



(** The same base URL with [allowInternalUrls] set is accepted, and the new
    profile is stored behind the existing one with the next priority. *)
Example createProfile_internal_allowed :
  exists profile,
    createProfile sampleURL "uuid-1" "2025-06-01T00:00:00.000Z"
      (sampleCreate "http://127.0.0.1:8080" (Some true)) (worldWith [profileA]) =
    (Ok profile,
     mkWorld (mkSettings (Some [profileA; profile]))
       [CalledValidateBaseUrlSsrf "http://127.0.0.1:8080" (Some true);
        CalledGetGlobalSettings;
        CalledUpdateGlobalSettings [profileA; profile];
        LoggedInfo "Created provider profile: New (anthropic-compatible)"]) /\
    priority profile = 3 /\ isActive profile = true /\ timeout profile = Some 30000.
Proof. eexists. vm_compute. repeat split. Qed.

(** ** The profile service: updating a profile *)

Lemma findIndex_Some {A : Type} (f : A -> bool) (l : list A) (i : nat) :
  findIndex f l = Some i -> exists x, l !! i = Some x /\ f x = true.
Proof.
  revert i. induction l as [|y l IH]; intros i; simpl; [discriminate|].
  destruct (f y) eqn:E.
  - intros [= <-]. eauto.
  - destruct (findIndex f l) as [j|]; simpl; [|discriminate].
    intros [= <-]. destruct (IH j eq_refl) as (x & Hx & Hf). eauto.
Qed.

Lemma findIndex_None {A : Type} (f : A -> bool) (l : list A) :
  findIndex f l = None <-> Forall (fun x => f x = false) l.
Proof.
  induction l as [|y l IH]; simpl.
  - split; [constructor|reflexivity].
  - destruct (f y) eqn:E.
    + split; [discriminate|]. intros H. inversion H; congruence.
    + destruct (findIndex f l) as [j|]; simpl.
      * split; [discriminate|]. intros H. inversion H as [|? ? _ Hl]; subst.
        apply IH in Hl. discriminate.
      * split; [|reflexivity]. intros _. constructor; [exact E|]. now apply IH.
Qed.

Lemma not_found_is_not_invalid (a b : string) :
  newError ("Invalid base URL: " +:+ a) <> newError ("Provider profile not found: " +:+ b).
Proof. unfold newError. simpl. discriminate. Qed.

Section UpdateProperties.

Variable newURL : string -> result URL.
Variable isoNow : string.

Local Abbreviation update := (updateProfile newURL isoNow).

(** [updateProfile] throws its not-found error exactly when no stored
    profile has the id, and then it has written nothing. *)
Lemma updateProfile_not_found (input : UpdateProviderProfileInput) (w : World) :
  let existing := nullish (providerProfiles (stored w)) [] in
  (fst (update input w) = Throw (newError ("Provider profile not found: " +:+ u_id input)) <->
   Forall (fun p => String.eqb (id p) (u_id input) = false) existing) /\
  (Forall (fun p => String.eqb (id p) (u_id input) = false) existing ->
   stored (snd (update input w)) = stored w /\
   events (snd (update input w)) = events w ++ [CalledGetGlobalSettings]).
Proof.
  intros existing. rewrite <- findIndex_None.
  unfold updateProfile. cbn [getGlobalSettings]. fold existing.
  destruct (findIndex _ existing) as [index|] eqn:Hfind.
  - split; [|discriminate]. split; [|discriminate].
    destruct (findIndex_Some _ _ _ Hfind) as (p & -> & _).
    destruct (baseUrlChanging input p) as [url|].
    + destruct (validateBaseUrlSsrf_returns newURL url
                  (orElse (u_allowInternalUrls input) (allowInternalUrls p))) as [r ->].
      destruct (safe r); cbn [negb fst]; [discriminate|].
      intros H. exfalso.
      apply (not_found_is_not_invalid (showOptional (reason r)) (u_id input)).
      congruence.
    + cbn. discriminate.
  - cbn. repeat split.
Qed.

(** The guard is run exactly when the update carries a non-empty base URL
    other than the stored one; an update that carries none, or the stored
    one, succeeds whatever [allowInternalUrls] it sets. *)
Lemma updateProfile_validation (input : UpdateProviderProfileInput) (w : World)
  (index : nat) (existing : ProviderProfile) :
  findIndex (fun p => String.eqb (id p) (u_id input))
            (nullish (providerProfiles (stored w)) []) = Some index ->
  nullish (providerProfiles (stored w)) [] !! index = Some existing ->
  (forall url, baseUrlChanging input existing = Some url ->
     List.filter isValidation (events (snd (update input w))) =
     List.filter isValidation (events w) ++
     [CalledValidateBaseUrlSsrf url
        (orElse (u_allowInternalUrls input) (allowInternalUrls existing))]) /\
  (baseUrlChanging input existing = None ->
     List.filter isValidation (events (snd (update input w))) =
       List.filter isValidation (events w) /\
     exists updated, fst (update input w) = Ok updated) /\
  (u_baseUrl input = None \/ u_baseUrl input = Some (baseUrl existing) ->
     baseUrlChanging input existing = None).
Proof.
  intros Hfind Hget. unfold updateProfile. cbn [getGlobalSettings].
  rewrite Hfind, Hget. split; [|split].
  - intros url ->.
    destruct (validateBaseUrlSsrf_returns newURL url
                (orElse (u_allowInternalUrls input) (allowInternalUrls existing))) as [r ->].
    destruct (safe r); cbn; rewrite ?List.filter_app; cbn; now rewrite ?app_nil_r.
  - intros ->. cbn. rewrite ?List.filter_app. cbn. rewrite ?app_nil_r. eauto.
  - unfold baseUrlChanging. intros [-> | ->]; [reflexivity|].
    rewrite String.eqb_refl. now rewrite andb_false_r.
Qed.

(** C10, at the failing input: an update whose [baseUrl] is the empty
    string succeeds without the guard being run, whatever the URL parser,
    and the empty string is stored as the profile's base URL. *)
Theorem updateProfile_empty_baseUrl_unvalidated :
  let w := worldWith [profileA] in
  let input := baseUrlUpdate "id-a" (Some EmptyString) in
  (exists updated,
      fst (update input w) = Ok updated /\
      baseUrl updated = EmptyString /\
      providerProfiles (stored (snd (update input w))) = Some [updated]) /\
  List.filter isValidation (events (snd (update input w))) = [] /\
  u_baseUrl input <> None /\
  u_baseUrl input <> Some (baseUrl profileA).
Proof.
  cbn zeta. split; [|split; [|split]].
  - eexists. vm_compute. repeat split.
  - vm_compute. reflexivity.
  - discriminate.
  - discriminate.
Qed.

End UpdateProperties.

(** [createProfile] refuses the base URL that [updateProfile] stores. *)
Example createProfile_refuses_empty_baseUrl :
  fst (createProfile sampleURL "uuid-2" "2025-06-01T00:00:00.000Z"
         (sampleCreate EmptyString None) (worldWith [profileA])) =
  Throw (newError "Invalid base URL: Invalid URL: Invalid URL").
Proof. reflexivity. Qed.

(** ** Decoding the response stream *)

Lemma append_nil (t : string) : EmptyString +:+ t = t.
Proof. reflexivity. Qed.

Lemma append_cons (c : ascii) (s t : string) : String c s +:+ t = String c (s +:+ t).
Proof. reflexivity. Qed.

Lemma append_empty_r (s : string) : s +:+ EmptyString = s.
Proof. induction s as [|c s IH]; [reflexivity|]. rewrite append_cons. now f_equal. Qed.

Lemma append_associative (a b c : string) : (a +:+ b) +:+ c = a +:+ (b +:+ c).
Proof.
  induction a as [|x a IH]; [reflexivity|]. rewrite !append_cons. now f_equal.
Qed.

Lemma split_newline_nonempty (s : string) : split_newline s <> [].
Proof.
  destruct s as [|c s]; simpl; [discriminate|].
  destruct (Ascii.eqb c LF); [discriminate|].
  destruct (split_newline s); discriminate.
Qed.

(** [cut] by recursion on the text. *)
Lemma cut_cons (c : ascii) (s : string) :
  cut (String c s) =
  if Ascii.eqb c LF then (EmptyString :: fst (cut s), snd (cut s))
  else match fst (cut s) with
       | [] => ([], String c (snd (cut s)))
       | line :: lines => (String c line :: lines, snd (cut s))
       end.
Proof.
  unfold cut. cbn [split_newline].
  pose proof (split_newline_nonempty s) as Hne.
  destruct (Ascii.eqb c LF).
  - destruct (split_newline s) as [|first others]; [congruence|]. reflexivity.
  - destruct (split_newline s) as [|first others]; [congruence|].
    destruct others as [|second others]; reflexivity.
Qed.

Lemma cut_append (s t : string) :
  cut (s +:+ t) =
  (fst (cut s) ++ fst (cut (snd (cut s) +:+ t)), snd (cut (snd (cut s) +:+ t))).
Proof.
  induction s as [|c s IH].
  - rewrite append_nil. change (cut EmptyString) with (@nil string, EmptyString).
    cbn [fst snd app]. rewrite append_nil. now destruct (cut t).
  - rewrite append_cons, !cut_cons, IH. cbn [fst snd].
    destruct (Ascii.eqb c LF) eqn:Hc; cbn [fst snd]; [reflexivity|].
    destruct (fst (cut s)) as [|line lines]; cbn [fst snd app].
    + rewrite append_cons, cut_cons, Hc.
      destruct (fst (cut (snd (cut s) +:+ t))); reflexivity.
    + reflexivity.
Qed.

(** The text kept for the next read holds no complete line. *)
Lemma cut_rest_has_no_line (s : string) : fst (cut (snd (cut s))) = [].
Proof.
  induction s as [|c s IH]; [reflexivity|].
  rewrite cut_cons.
  destruct (Ascii.eqb c LF) eqn:Hc; cbn [snd]; [exact IH|].
  destruct (fst (cut s)) as [|line lines]; cbn [snd]; [|exact IH].
  rewrite cut_cons, Hc, IH. reflexivity.
Qed.

Lemma processLines_app (sessionId : string) (l1 l2 : list string) (d : Decoder) :
  processLines sessionId (l1 ++ l2) d =
  match processLines sessionId l1 d with
  | Some d' => processLines sessionId l2 d'
  | None => None
  end.
Proof.
  revert d. induction l1 as [|line l1 IH]; intros d; cbn [app processLines]; [reflexivity|].
  destruct (processLine sessionId line d); [apply IH|reflexivity].
Qed.

(** However the body is split into reads, the loop handles the complete
    lines of the whole text, in order. *)
Lemma readLoop_joined (sessionId : string) (chunks : list string) :
  forall (buffer : string) (d : Decoder),
    fst (cut buffer) = [] ->
    readLoop sessionId chunks buffer d =
    processLines sessionId (fst (cut (buffer +:+ joined chunks))) d.
Proof.
  induction chunks as [|value later IH]; intros buffer d Hbuffer.
  - cbn [joined fold_right readLoop]. rewrite append_empty_r, Hbuffer. reflexivity.
  - cbn [joined fold_right readLoop]. fold (joined later).
    change (removelast (split_newline (buffer +:+ value))) with (fst (cut (buffer +:+ value))).
    change (List.last (split_newline (buffer +:+ value)) EmptyString)
      with (snd (cut (buffer +:+ value))).
    rewrite <- (append_associative buffer value (joined later)).
    rewrite (cut_append (buffer +:+ value) (joined later)). cbn [fst].
    rewrite processLines_app.
    destruct (processLines sessionId (fst (cut (buffer +:+ value))) d) as [d'|]; [|reflexivity].
    apply IH. apply cut_rest_has_no_line.
Qed.

(** C6: for the specification's stream, however it is split into reads, the
    generator yields one assistant message with the text ["Hi"] and then one
    result message with the accumulated text ["Hi"], and nothing else; a
    [data: [DONE]] line yields nothing and changes nothing. *)
Theorem decodeStream_example (now : Z) (chunks : list string) :
  joined chunks = sseExample ->
  decodeStream now chunks =
    Some [AssistantMessage ("openai-" +:+ show_Z now) [TextBlock "Hi"];
          ResultMessage "success" ("openai-" +:+ show_Z now) "Hi"] /\
  (forall sessionId d, processLine sessionId "data: [DONE]" d = Some d).
Proof.
  intros Hjoined. split; [|reflexivity].
  unfold decodeStream.
  rewrite readLoop_joined by reflexivity.
  rewrite append_nil, Hjoined.
  generalize ("openai-" +:+ show_Z now). intros sessionId.
  vm_compute. reflexivity.
Qed.

Lemma decodeStream_example_witness :
  decodeStream 1700000000000
    [String.substring 0 40 sseExample; EmptyString; String.substring 40 200 sseExample] =
  Some [AssistantMessage "openai-1700000000000" [TextBlock "Hi"];
        ResultMessage "success" "openai-1700000000000" "Hi"].
Proof.
  apply (decodeStream_example 1700000000000
           [String.substring 0 40 sseExample; EmptyString; String.substring 40 200 sseExample]).
  vm_compute. reflexivity.
Defined.

(* ===================================================================== *)
(** * Part II, continued: properties of the rest of the cited files *)
(* ===================================================================== *)

(** ** Lists: finding, filtering, stable sorting *)

Lemma find_filter {A : Type} (f g : A -> bool) (l : list A) :
  List.find f (List.filter g l) = List.find (fun x => g x && f x) l.
Proof.
  induction l as [|x l IH]; [reflexivity|].
  cbn [List.filter List.find]. destruct (g x); cbn [andb List.find]; [|exact IH].
  destruct (f x); [reflexivity|exact IH].
Qed.

Lemma find_ext {A : Type} (f g : A -> bool) (l : list A) :
  (forall x, In x l -> f x = g x) -> List.find f l = List.find g l.
Proof.
  induction l as [|x l IH]; intros H; [reflexivity|].
  cbn [List.find]. rewrite (H x) by now left.
  destruct (g x); [reflexivity|]. apply IH. intros y Hy. apply H. now right.
Qed.

Lemma find_app_fresh {A : Type} (f : A -> bool) (l : list A) (x : A) :
  Forall (fun y => f y = false) l -> List.find f (l ++ [x]) = if f x then Some x else None.
Proof.
  induction 1 as [|y l Hy _ IH]; [reflexivity|].
  cbn [app List.find]. now rewrite Hy.
Qed.

Lemma find_app_other {A : Type} (f : A -> bool) (l : list A) (x : A) :
  f x = false -> List.find f (l ++ [x]) = List.find f l.
Proof.
  intros Hx. induction l as [|y l IH]; cbn [app List.find]; [now rewrite Hx|].
  destruct (f y); [reflexivity|exact IH].
Qed.

Lemma find_head_filter {A : Type} (f : A -> bool) (l : list A) :
  List.find f l = head (List.filter f l).
Proof.
  induction l as [|x l IH]; [reflexivity|].
  cbn [List.find List.filter]. now destruct (f x).
Qed.

Lemma filter_none {A : Type} (f : A -> bool) (l : list A) :
  Forall (fun x => f x = false) l -> List.filter f l = [].
Proof.
  induction 1 as [|x l Hx _ IH]; [reflexivity|].
  cbn [List.filter]. now rewrite Hx.
Qed.

Lemma insertBy_permutation {A : Type} (compare : A -> A -> Z) (x : A) (l : list A) :
  Permutation (insertBy compare x l) (x :: l).
Proof.
  induction l as [|y l IH]; cbn [insertBy]; [reflexivity|].
  destruct (compare x y <=? 0); [reflexivity|].
  rewrite IH. apply perm_swap.
Qed.

Lemma stableSort_permutation {A : Type} (compare : A -> A -> Z) (l : list A) :
  Permutation (stableSort compare l) l.
Proof.
  induction l as [|x l IH]; cbn [stableSort]; [reflexivity|].
  rewrite insertBy_permutation. now constructor.
Qed.

Lemma insertBy_priority_sorted (x : ProviderProfile) (l : list ProviderProfile) :
  StronglySorted priorityDescending l ->
  StronglySorted priorityDescending (insertBy byPriorityDescending x l).
Proof.
  induction 1 as [|y l Hl IH Hy]; cbn [insertBy].
  - constructor; constructor.
  - unfold byPriorityDescending at 1.
    destruct (Z.leb_spec (priority y - priority x) 0) as [Hle|Hlt].
    + constructor; [now constructor|].
      constructor; [unfold priorityDescending; lia|].
      eapply Forall_impl; [exact Hy|]. unfold priorityDescending. intros z Hz. lia.
    + constructor; [exact IH|].
      rewrite insertBy_permutation.
      constructor; [unfold priorityDescending; lia|exact Hy].
Qed.

Lemma stableSort_priority_sorted (l : list ProviderProfile) :
  StronglySorted priorityDescending (stableSort byPriorityDescending l).
Proof.
  induction l as [|x l IH]; cbn [stableSort]; [constructor|].
  now apply insertBy_priority_sorted.
Qed.

Lemma insertBy_priority_stable (m : Z) (x : ProviderProfile) (l : list ProviderProfile) :
  List.filter (fun p => priority p =? m) (insertBy byPriorityDescending x l) =
  List.filter (fun p => priority p =? m) (x :: l).
Proof.
  induction l as [|y l IH]; [reflexivity|].
  cbn [insertBy]. unfold byPriorityDescending at 1.
  destruct (Z.leb_spec (priority y - priority x) 0) as [Hle|Hlt]; [reflexivity|].
  cbn [List.filter] in *. rewrite IH.
  destruct (Z.eqb_spec (priority x) m), (Z.eqb_spec (priority y) m); auto; lia.
Qed.

Lemma stableSort_priority_stable (m : Z) (l : list ProviderProfile) :
  List.filter (fun p => priority p =? m) (stableSort byPriorityDescending l) =
  List.filter (fun p => priority p =? m) l.
Proof.
  induction l as [|x l IH]; [reflexivity|].
  cbn [stableSort]. rewrite insertBy_priority_stable.
  cbn [List.filter]. now rewrite IH.
Qed.

(** ** The profile service: deleting, reading back, selecting *)

(** X1: [deleteProfile] throws its not-found error, having written nothing,
    when no stored profile has the id; otherwise it succeeds, [getProfile]
    no longer finds the id, and every other id reads back as before. *)
Theorem deleteProfile_then_getProfile (profileId : string) (w : World) :
  let existing := nullish (providerProfiles (stored w)) [] in
  (List.find (fun p => String.eqb (id p) profileId) existing = None ->
     fst (deleteProfile profileId w) =
       Throw (newError ("Provider profile not found: " +:+ profileId)) /\
     stored (snd (deleteProfile profileId w)) = stored w /\
     List.filter isStoreWrite (events (snd (deleteProfile profileId w))) =
       List.filter isStoreWrite (events w)) /\
  (forall p,
     List.find (fun p => String.eqb (id p) profileId) existing = Some p ->
     fst (deleteProfile profileId w) = Ok tt /\
     fst (getProfile profileId (snd (deleteProfile profileId w))) = None /\
     (forall other, other <> profileId ->
        fst (getProfile other (snd (deleteProfile profileId w))) = fst (getProfile other w))).
Proof.
  intros existing. unfold deleteProfile. cbn [getGlobalSettings]. fold existing. split.
  - intros ->. cbn. rewrite List.filter_app. cbn. now rewrite app_nil_r.
  - intros p ->. split; [reflexivity|].
    unfold getProfile. cbn. split.
    + rewrite find_filter.
      destruct (List.find _ existing) as [q|] eqn:E; [|reflexivity].
      apply List.find_some in E as [_ E]. now destruct (String.eqb (id q) profileId).
    + intros other Hother. rewrite find_filter. unfold existing.
      destruct (providerProfiles (stored w)) as [l|]; [|reflexivity]. cbn [nullish].
      apply find_ext. intros q _.
      destruct (String.eqb_spec (id q) profileId) as [Hq|Hq]; [|reflexivity].
      cbn. symmetry. apply String.eqb_neq. congruence.
Qed.

Lemma deleteProfile_then_getProfile_witness :
  fst (deleteProfile "id-a" (worldWith [profileA; profileB])) = Ok tt /\
  fst (getProfile "id-a" (snd (deleteProfile "id-a" (worldWith [profileA; profileB])))) = None /\
  fst (getProfile "id-b" (snd (deleteProfile "id-a" (worldWith [profileA; profileB])))) =
    Some profileB.
Proof.
  destruct (proj2 (deleteProfile_then_getProfile "id-a" (worldWith [profileA; profileB]))
              profileA eq_refl) as (Hok & Hgone & Hothers).
  split; [exact Hok|]. split; [exact Hgone|].
  rewrite (Hothers "id-b"); [reflexivity|discriminate].
Defined.

Lemma createProfile_success (newURL : string -> result URL) (randomUUID isoNow : string)
  (input : CreateProviderProfileInput) (w : World) (profile : ProviderProfile) :
  fst (createProfile newURL randomUUID isoNow input w) = Ok profile ->
  id profile = randomUUID /\
  name profile = c_name input /\
  type profile = c_type input /\
  baseUrl profile = c_baseUrl input /\
  apiKey profile = c_apiKey input /\
  modelMapping profile = nullish (c_modelMapping input) [] /\
  isActive profile = nullish (c_isActive input) true /\
  priority profile =
    nullish (c_priority input) (plusOne (maxPriorityOf (nullish (providerProfiles (stored w)) []))) /\
  stored (snd (createProfile newURL randomUUID isoNow input w)) =
    mkSettings (Some (nullish (providerProfiles (stored w)) [] ++ [profile])).
Proof.
  unfold createProfile.
  destruct (validateBaseUrlSsrf _ _ _) as [r|e]; [|discriminate].
  destruct (safe r); cbn [negb]; [|discriminate].
  cbn. intros [= <-]. repeat split.
Qed.

(** X2: a profile that [createProfile] has stored under an id no stored
    profile had is what [getProfile] returns for that id, and every other id
    reads back as before. *)
Theorem createProfile_then_getProfile (newURL : string -> result URL)
  (randomUUID isoNow : string) (input : CreateProviderProfileInput) (w : World)
  (profile : ProviderProfile) :
  fst (createProfile newURL randomUUID isoNow input w) = Ok profile ->
  ~ In randomUUID (List.map id (nullish (providerProfiles (stored w)) [])) ->
  fst (getProfile randomUUID (snd (createProfile newURL randomUUID isoNow input w))) =
    Some profile /\
  (forall other, other <> randomUUID ->
     fst (getProfile other (snd (createProfile newURL randomUUID isoNow input w))) =
     fst (getProfile other w)).
Proof.
  intros Hok Hfresh.
  destruct (createProfile_success _ _ _ _ _ _ Hok) as (Hid & _ & _ & _ & _ & _ & _ & _ & Hstored).
  unfold getProfile. cbn [getGlobalSettings fst snd]. rewrite Hstored. cbn [providerProfiles].
  split.
  - rewrite find_app_fresh.
    + rewrite Hid, String.eqb_refl. reflexivity.
    + apply Forall_forall. intros q Hq. apply String.eqb_neq. intros Heq.
      apply Hfresh. rewrite <- Heq. apply in_map. now apply list_elem_of_In.
  - intros other Hother. rewrite find_app_other.
    + now destruct (providerProfiles (stored w)).
    + rewrite Hid. apply String.eqb_neq. congruence.
Qed.

Lemma createProfile_then_getProfile_witness :
  exists profile,
    fst (createProfile sampleURL "uuid-1" "2025-06-01T00:00:00.000Z"
           (sampleCreate "https://api.example.com" None) (worldWith [profileA])) = Ok profile /\
    fst (getProfile "uuid-1"
           (snd (createProfile sampleURL "uuid-1" "2025-06-01T00:00:00.000Z"
                   (sampleCreate "https://api.example.com" None) (worldWith [profileA])))) =
      Some profile.
Proof.
  eexists. split; [vm_compute; reflexivity|].
  apply (createProfile_then_getProfile sampleURL "uuid-1" "2025-06-01T00:00:00.000Z"
           (sampleCreate "https://api.example.com" None) (worldWith [profileA])).
  - vm_compute. reflexivity.
  - vm_compute. intros [H|[]]. discriminate.
Defined.

Lemma head_filter_stable (l : list ProviderProfile) (p : ProviderProfile) :
  head (stableSort byPriorityDescending l) = Some p ->
  List.find (fun q => priority q =? priority p) l = Some p.
Proof.
  intros Hhead. rewrite find_head_filter, <- stableSort_priority_stable.
  destruct (stableSort byPriorityDescending l) as [|x rest]; [discriminate|].
  injection Hhead as ->. cbn [List.filter]. now rewrite Z.eqb_refl.
Qed.

(** X3: [getActiveProfile] returns [null] exactly when no stored profile of
    the type is active; the profile it returns is stored, active and of the
    type, no active profile of the type has a higher priority, and among
    those of equal priority it is the first in stored order. *)
Theorem getActiveProfile_highest_priority (t : ProviderProfileType) (w : World) :
  let existing := nullish (providerProfiles (stored w)) [] in
  (fst (getActiveProfile t w) = None <->
   Forall (fun p => isActiveOfType t p = false) existing) /\
  (forall p, fst (getActiveProfile t w) = Some p ->
     In p existing /\ type p = t /\ isActive p = true /\
     (forall q, In q existing -> isActiveOfType t q = true -> priority q <= priority p) /\
     List.find (fun q => isActiveOfType t q && (priority q =? priority p)) existing = Some p).
Proof.
  intros existing. unfold getActiveProfile. cbn [getGlobalSettings fst]. fold existing.
  pose proof (stableSort_permutation byPriorityDescending
                (List.filter (isActiveOfType t) existing)) as Hperm.
  pose proof (stableSort_priority_sorted (List.filter (isActiveOfType t) existing)) as Hsorted.
  split.
  - split.
    + intros Hnone. apply Forall_forall. intros q Hq.
      destruct (isActiveOfType t q) eqn:E; [|reflexivity].
      assert (In q (List.filter (isActiveOfType t) existing)) as Hin
        by (apply List.filter_In; split; [now apply list_elem_of_In|exact E]).
      destruct (stableSort _ _) as [|x rest]; [|discriminate].
      apply Permutation_nil in Hperm. rewrite Hperm in Hin. destruct Hin.
    + intros Hall.
      now rewrite (filter_none _ _ Hall).
  - intros p Hhead.
    assert (In p (List.filter (isActiveOfType t) existing)) as Hin.
    { apply (Permutation_in _ Hperm).
      destruct (stableSort _ _) as [|x rest]; [discriminate|].
      injection Hhead as ->. now left. }
    apply List.filter_In in Hin as [Hin Hactive].
    split; [exact Hin|].
    unfold isActiveOfType in Hactive. apply andb_true_iff in Hactive as [Htype Hact].
    split; [destruct (type p), t; (reflexivity || discriminate)|].
    split; [exact Hact|]. split.
    + intros q Hq Hqa.
      assert (In q (stableSort byPriorityDescending (List.filter (isActiveOfType t) existing)))
        as Hq' by (apply (Permutation_in _ (Permutation_sym Hperm)), List.filter_In; auto).
      destruct (stableSort _ _) as [|x rest]; [discriminate|].
      injection Hhead as ->. inversion Hsorted as [|? ? _ Hall]; subst.
      destruct Hq' as [->|Hq']; [lia|].
      rewrite Forall_forall in Hall. apply Hall. now apply list_elem_of_In.
    + rewrite <- find_filter. now apply head_filter_stable.
Qed.

Lemma getActiveProfile_highest_priority_witness :
  fst (getActiveProfile AnthropicCompatible
         (worldWith [profileB; sampleProfile "id-x" "X" OpenaiCompatible true 9 [];
                     sampleProfile "id-y" "Y" AnthropicCompatible false 7 []; profileA])) =
    Some profileA /\
  priority profileB <= priority profileA.
Proof.
  split; [reflexivity|].
  apply (proj1 (proj2 (proj2 (proj2
          (proj2 (getActiveProfile_highest_priority AnthropicCompatible
                    (worldWith [profileB; sampleProfile "id-x" "X" OpenaiCompatible true 9 [];
                                sampleProfile "id-y" "Y" AnthropicCompatible false 7 [];
                                profileA]))
                 profileA eq_refl)))) profileB).
  - left. reflexivity.
  - reflexivity.
Defined.

(** X4: the three selection methods agree with the counts of [listProfiles]:
    [getActiveProfilesByType] returns as many profiles as [listProfiles]
    counts active for the type, each of them stored, active and of the type,
    sorted by priority, highest first; [getActiveProfile] is its first
    element, and [hasActiveProfiles] answers whether the count is positive.
    None of the four writes the store. *)
Theorem selection_agrees_with_counts (t : ProviderProfileType) (w : World) :
  let counted :=
    match t with
    | AnthropicCompatible => count_anthropic_compatible (activeCount (fst (listProfiles w)))
    | OpenaiCompatible => count_openai_compatible (activeCount (fst (listProfiles w)))
    end in
  length (fst (getActiveProfilesByType t w)) = counted /\
  Forall (fun p => In p (profiles (fst (listProfiles w))) /\ type p = t /\ isActive p = true)
         (fst (getActiveProfilesByType t w)) /\
  StronglySorted priorityDescending (fst (getActiveProfilesByType t w)) /\
  fst (getActiveProfile t w) = head (fst (getActiveProfilesByType t w)) /\
  fst (hasActiveProfiles t w) = (0 <? counted)%nat /\
  stored (snd (listProfiles w)) = stored w /\
  stored (snd (getActiveProfilesByType t w)) = stored w /\
  stored (snd (getActiveProfile t w)) = stored w /\
  stored (snd (hasActiveProfiles t w)) = stored w.
Proof.
  intros counted.
  unfold getActiveProfilesByType, getActiveProfile, hasActiveProfiles, getActiveProfile,
    listProfiles in *. cbn [getGlobalSettings fst snd] in *.
  set (existing := nullish (providerProfiles (stored w)) []) in *.
  pose proof (stableSort_permutation byPriorityDescending
                (List.filter (isActiveOfType t) existing)) as Hperm.
  assert (length (stableSort byPriorityDescending (List.filter (isActiveOfType t) existing))
          = counted) as Hlen.
  { rewrite (Permutation_length Hperm). subst counted. now destruct t. }
  split; [exact Hlen|]. split.
  { apply Forall_forall. intros p Hp. apply list_elem_of_In in Hp.
    apply (Permutation_in _ Hperm), List.filter_In in Hp as [Hin Hactive].
    cbn [profiles]. split; [exact Hin|].
    unfold isActiveOfType in Hactive. apply andb_true_iff in Hactive as [Htype Hact].
    split; [destruct (type p), t; (reflexivity || discriminate)|exact Hact]. }
  split; [apply stableSort_priority_sorted|].
  split; [reflexivity|].
  split; [|repeat split].
  rewrite <- Hlen.
  now destruct (stableSort byPriorityDescending (List.filter (isActiveOfType t) existing)).
Qed.

(** ** The profile service: connection tests and copies *)

Lemma findIndex_find {A : Type} (f : A -> bool) (l : list A) :
  match findIndex f l with
  | Some i => exists x, l !! i = Some x /\ List.find f l = Some x /\ f x = true
  | None => List.find f l = None
  end.
Proof.
  induction l as [|y l IH]; [reflexivity|].
  cbn [findIndex List.find]. destruct (f y) eqn:E.
  - exists y. auto.
  - destruct (findIndex f l) as [i|]; cbn [option_map]; [|exact IH].
    destruct IH as (x & Hx & Hfind & Hfx). exists x. auto.
Qed.

Lemma find_insert_first {A : Type} (f : A -> bool) (l : list A) (i : nat) (x y : A) :
  findIndex f l = Some i -> l !! i = Some x -> f y = true ->
  List.find f (<[i := y]> l) = Some y.
Proof.
  revert i. induction l as [|z l IH]; intros i; [discriminate|].
  cbn [findIndex]. destruct (f z) eqn:E.
  - intros [= <-] _ Hy. cbn. now rewrite Hy.
  - destruct (findIndex f l) as [j|]; cbn [option_map]; [|discriminate].
    intros [= <-] Hx Hy. cbn. rewrite E. now apply IH.
Qed.

Lemma find_insert_other {A : Type} (f : A -> bool) (l : list A) (i : nat) (x y : A) :
  l !! i = Some x -> f x = false -> f y = false ->
  List.find f (<[i := y]> l) = List.find f l.
Proof.
  revert i. induction l as [|z l IH]; intros i; [reflexivity|].
  destruct i as [|i]; cbn.
  - intros [= ->] Hx Hy. now rewrite Hx, Hy.
  - intros Hx Hfx Hfy. destruct (f z); [reflexivity|]. now apply IH.
Qed.

(** X5: [saveConnectionTestResult] writes nothing when no stored profile has
    the id; otherwise [getProfile] then returns the profile with the result
    as its [lastConnectionTest] and every other field but [updatedAt] as it
    was, a proxy provider built from it reports [authenticated] as the
    result's [success], and every other id reads back as before. *)
Theorem saveConnectionTestResult_then_getProfile (isoNow profileId : string)
  (r : ConnectionTestResult) (w : World) :
  (fst (getProfile profileId w) = None ->
     stored (saveConnectionTestResult isoNow profileId r w) = stored w /\
     List.filter isStoreWrite (events (saveConnectionTestResult isoNow profileId r w)) =
       List.filter isStoreWrite (events w)) /\
  (forall p, fst (getProfile profileId w) = Some p ->
     fst (getProfile profileId (saveConnectionTestResult isoNow profileId r w)) =
       Some (withConnectionTest p r isoNow) /\
     authenticated (detectInstallation (withConnectionTest p r isoNow)) = success r /\
     (forall other, other <> profileId ->
        fst (getProfile other (saveConnectionTestResult isoNow profileId r w)) =
        fst (getProfile other w))).
Proof.
  unfold getProfile, saveConnectionTestResult. cbn [getGlobalSettings fst].
  destruct (providerProfiles (stored w)) as [l|] eqn:Hl; cbn [nullish].
  2:{ split; [intros _|discriminate]. cbn. rewrite List.filter_app. cbn.
      now rewrite app_nil_r. }
  pose proof (findIndex_find (fun p => String.eqb (id p) profileId) l) as Hfind.
  destruct (findIndex _ l) as [i|] eqn:Hi.
  - destruct Hfind as (x & Hx & Hfx & Hidx). rewrite Hx, Hfx.
    split; [discriminate|]. intros p [= <-]. cbn. split; [|split; [reflexivity|]].
    + eapply find_insert_first; eauto.
    + intros other Hother. eapply find_insert_other; [exact Hx| |].
      * apply String.eqb_eq in Hidx. apply String.eqb_neq. congruence.
      * cbn. apply String.eqb_eq in Hidx. apply String.eqb_neq. congruence.
  - rewrite Hfind. split; [intros _|discriminate]. cbn. rewrite List.filter_app. cbn.
    now rewrite app_nil_r.
Qed.

Lemma saveConnectionTestResult_then_getProfile_witness :
  fst (getProfile "id-b"
         (saveConnectionTestResult "2025-06-01T00:00:00.000Z" "id-b"
            (mkTest false (Some 12) (Some authFailureMessage) None "2025-06-01T00:00:00.000Z")
            (worldWith [profileA; profileB]))) =
  Some (withConnectionTest profileB
          (mkTest false (Some 12) (Some authFailureMessage) None "2025-06-01T00:00:00.000Z")
          "2025-06-01T00:00:00.000Z").
Proof.
  apply (proj2 (saveConnectionTestResult_then_getProfile "2025-06-01T00:00:00.000Z" "id-b"
                  (mkTest false (Some 12) (Some authFailureMessage) None
                     "2025-06-01T00:00:00.000Z")
                  (worldWith [profileA; profileB])) profileB).
  reflexivity.
Defined.

Lemma getProfile_created (newURL : string -> result URL) (randomUUID isoNow : string)
  (input : CreateProviderProfileInput) (w : World) (profile : ProviderProfile) :
  fst (createProfile newURL randomUUID isoNow input w) = Ok profile ->
  ~ In randomUUID (List.map id (nullish (providerProfiles (stored w)) [])) ->
  fst (getProfile randomUUID (snd (createProfile newURL randomUUID isoNow input w))) =
    Some profile.
Proof.
  intros Hok Hfresh.
  destruct (createProfile_success _ _ _ _ _ _ Hok) as (Hid & _ & _ & _ & _ & _ & _ & _ & Hstored).
  unfold getProfile. cbn [getGlobalSettings fst snd]. rewrite Hstored. cbn [providerProfiles].
  rewrite find_app_fresh.
  - rewrite Hid, String.eqb_refl. reflexivity.
  - apply Forall_forall. intros q Hq. apply String.eqb_neq. intros Heq.
    apply Hfresh. rewrite <- Heq. apply in_map. now apply list_elem_of_In.
Qed.

Lemma createProfile_timeout (newURL : string -> result URL) (randomUUID isoNow : string)
  (input : CreateProviderProfileInput) (w : World) (profile : ProviderProfile) :
  fst (createProfile newURL randomUUID isoNow input w) = Ok profile ->
  timeout profile = Some (nullish (c_timeout input) DEFAULT_PROVIDER_TIMEOUT).
Proof.
  unfold createProfile.
  destruct (validateBaseUrlSsrf _ _ _) as [r|e]; [|discriminate].
  destruct (safe r); cbn [negb]; [|discriminate].
  cbn. now intros [= <-].
Qed.

(** The timeout the test falls back to is the one a stored profile holds
    when it was created with none. *)
Lemma testProfileConnection_default_timeout (fetch : Request -> result Response)
  (startTime endTime : Z) (isoNow : string) (t : ProviderProfileType) (url key : string)
  (given : option Z) :
  testProfileConnection fetch startTime endTime isoNow
    (mkTestInput t url key (Some (nullish given DEFAULT_PROVIDER_TIMEOUT))) =
  testProfileConnection fetch startTime endTime isoNow (mkTestInput t url key given).
Proof. unfold testProfileConnection. now destruct given. Qed.

(** X6: testing a profile after it was saved gives what testing it before
    gave: for every network, [testConnection] on the id of a profile that
    [createProfile] has just stored under a new id returns the result of
    [testProfileConnection] on the input's own type, base URL, key and
    timeout, also when the input gave no timeout and the stored profile
    holds the default one. *)
Theorem testConnection_of_created_profile (fetch : Request -> result Response)
  (startTime endTime : Z) (isoNow : string) (newURL : string -> result URL)
  (randomUUID savedAt : string) (input : CreateProviderProfileInput) (w : World)
  (profile : ProviderProfile) :
  fst (createProfile newURL randomUUID savedAt input w) = Ok profile ->
  ~ In randomUUID (List.map id (nullish (providerProfiles (stored w)) [])) ->
  fst (testConnection fetch startTime endTime isoNow randomUUID
         (snd (createProfile newURL randomUUID savedAt input w))) =
  testProfileConnection fetch startTime endTime isoNow
    (mkTestInput (c_type input) (c_baseUrl input) (c_apiKey input) (c_timeout input)).
Proof.
  intros Hok Hfresh.
  pose proof (getProfile_created _ _ _ _ _ _ Hok Hfresh) as Hget.
  destruct (createProfile_success _ _ _ _ _ _ Hok)
    as (_ & _ & Htype & Hurl & Hkey & _).
  pose proof (createProfile_timeout _ _ _ _ _ _ Hok) as Htimeout.
  unfold testConnection.
  destruct (getProfile randomUUID _) as [[found|] w1]; cbn [fst] in Hget |- *;
    [|discriminate].
  injection Hget as ->.
  unfold asTestInput. rewrite Htype, Hurl, Hkey, Htimeout.
  apply testProfileConnection_default_timeout.
Qed.

Lemma testConnection_of_created_profile_witness :
  fst (testConnection (fetchStatus 401) 100 142 "2025-06-02T00:00:00.000Z" "uuid-1"
         (snd (createProfile sampleURL "uuid-1" "2025-06-01T00:00:00.000Z"
                 (sampleCreate "https://api.example.com" None) (worldWith [profileA])))) =
  testProfileConnection (fetchStatus 401) 100 142 "2025-06-02T00:00:00.000Z"
    (mkTestInput AnthropicCompatible "https://api.example.com" "sk-test" None).
Proof.
  refine (testConnection_of_created_profile (fetchStatus 401) 100 142
            "2025-06-02T00:00:00.000Z" sampleURL "uuid-1" "2025-06-01T00:00:00.000Z"
            (sampleCreate "https://api.example.com" None) (worldWith [profileA]) _ _ _).
  - vm_compute. reflexivity.
  - cbn. intros [H|[]]. discriminate H.
Defined.

(** X7: [duplicateProfile] throws its not-found error, having written
    nothing, when no stored profile has the id.  When the guard accepts the
    stored base URL under the stored [allowInternalUrls], it appends one
    profile: inactive, named after the original with [" (Copy)"], with the
    original's type, base URL, key and model mapping, under the new id and
    with the priority [maxPriority + 1] as the sum of two doubles, which is
    above every stored profile's when the stored maximum is below [2^53] in
    magnitude. *)
Theorem duplicateProfile_copy (newURL : string -> result URL) (randomUUID isoNow : string)
  (profileId : string) (w : World) :
  let existing := nullish (providerProfiles (stored w)) [] in
  let run := duplicateProfile newURL randomUUID isoNow profileId w in
  (fst (getProfile profileId w) = None ->
     fst run = Throw (newError ("Provider profile not found: " +:+ profileId)) /\
     stored (snd run) = stored w) /\
  (forall p r,
     fst (getProfile profileId w) = Some p ->
     validateBaseUrlSsrf newURL (baseUrl p) (allowInternalUrls p) = Ok r ->
     safe r = true ->
     exists copy,
       fst run = Ok copy /\
       providerProfiles (stored (snd run)) = Some (existing ++ [copy]) /\
       id copy = randomUUID /\
       name copy = name p +:+ " (Copy)" /\
       isActive copy = false /\
       type copy = type p /\ baseUrl copy = baseUrl p /\ apiKey copy = apiKey p /\
       modelMapping copy = modelMapping p /\
       priority copy = plusOne (maxPriorityOf existing) /\
       (- 2 ^ 53 <= maxPriorityOf existing < 2 ^ 53 ->
          Forall (fun q => priority q < priority copy) existing)).
Proof.
  intros existing run. subst run. unfold duplicateProfile.
  destruct (getProfile profileId w) as [[p|] w1] eqn:E; cbn [fst snd];
    unfold getProfile in E; cbn in E; injection E as Hp <-.
  - split; [discriminate|]. intros q r [= <-] Hr Hsafe.
    unfold createProfile. cbn [c_baseUrl c_allowInternalUrls]. rewrite Hr, Hsafe.
    cbn [negb getGlobalSettings fst snd stored note].
    eexists. split; [reflexivity|]. cbn. fold existing.
    repeat (split; [reflexivity|]).
    intros Hrange. rewrite (plusOne_exact _ Hrange).
    eapply Forall_impl; [apply maxPriorityOf_bounds|].
    intros q Hq. cbn beta in Hq. lia.
  - split; [|discriminate]. intros _. split; reflexivity.
Qed.

Lemma duplicateProfile_copy_witness :
  exists copy,
    fst (duplicateProfile sampleURL "uuid-9" "2025-06-01T00:00:00.000Z" "id-a"
           (worldWith [profileA; profileB])) = Ok copy /\
    name copy = "A (Copy)" /\ isActive copy = false /\ priority copy = 3.
Proof.
  destruct (proj2 (duplicateProfile_copy sampleURL "uuid-9" "2025-06-01T00:00:00.000Z" "id-a"
                     (worldWith [profileA; profileB]))
              profileA (mkSsrf true None None) eq_refl eq_refl eq_refl)
    as (copy & Hok & _).
  exists copy. split; [exact Hok|].
  vm_compute in Hok. injection Hok as <-. repeat split.
Defined.

(** ** The profile service: reordering *)

Lemma indexOf_lookup (x : string) (l : list string) (k : nat) :
  indexOf x l = Some k -> l !! k = Some x.
Proof.
  intros H. apply findIndex_Some in H as (y & Hy & Heq).
  apply String.eqb_eq in Heq. congruence.
Qed.

Lemma indexOf_In (x : string) (l : list string) :
  In x l -> exists k, indexOf x l = Some k.
Proof.
  intros Hin. unfold indexOf.
  destruct (findIndex _ l) as [k|] eqn:E; [eauto|].
  apply findIndex_None in E. rewrite Forall_forall in E.
  apply list_elem_of_In, E, String.eqb_neq in Hin. congruence.
Qed.

Lemma indexOf_NoDup (l : list string) :
  NoDup l -> forall k x, l !! k = Some x -> indexOf x l = Some k.
Proof.
  unfold indexOf. induction 1 as [|y l Hy Hl IH]; intros k x Hk; [discriminate|].
  cbn [findIndex]. destruct k as [|k]; cbn in Hk.
  - injection Hk as ->. now rewrite String.eqb_refl.
  - destruct (String.eqb_spec y x) as [->|Hne].
    + exfalso. apply Hy. apply list_elem_of_lookup. eauto.
    + now rewrite (IH k x Hk).
Qed.

Lemma StronglySorted_by_lookup {A : Type} (R : A -> A -> Prop) (l : list A) :
  (forall i j x y, l !! i = Some x -> l !! j = Some y -> (i < j)%nat -> R x y) ->
  StronglySorted R l.
Proof.
  induction l as [|a l IH]; intros H; constructor.
  - apply IH. intros i j x y Hi Hj Hlt. apply (H (S i) (S j)); auto. lia.
  - apply Forall_forall. intros y Hy. apply list_elem_of_lookup in Hy as [j Hj].
    apply (H 0%nat (S j)); auto. lia.
Qed.

Lemma StronglySorted_map_in {A B : Type} (P : A -> A -> Prop) (Q : B -> B -> Prop)
  (f : A -> B) (l : list A) :
  StronglySorted P l ->
  (forall a b, In a l -> In b l -> P a b -> Q (f a) (f b)) ->
  StronglySorted Q (List.map f l).
Proof.
  induction 1 as [|a l Hl IH Ha]; intros H; cbn [List.map]; constructor.
  - apply IH. intros x y Hx Hy. apply H; now right.
  - apply Forall_forall. intros y Hy. apply list_elem_of_In, in_map_iff in Hy as (b & <- & Hb).
    apply H; [now left|now right|].
    rewrite Forall_forall in Ha. now apply Ha, list_elem_of_In.
Qed.

Lemma lookup_map {A B : Type} (f : A -> B) (l : list A) (i : nat) :
  List.map f l !! i = option_map f (l !! i).
Proof.
  revert i. induction l as [|x l IH]; intros [|i]; cbn; auto.
Qed.

Lemma reprioritize_id (orderedIds : list string) (isoNow : string) (p : ProviderProfile) :
  id (reprioritize orderedIds isoNow p) = id p.
Proof. unfold reprioritize. now destruct (indexOf (id p) orderedIds). Qed.

Lemma reprioritize_ids (orderedIds : list string) (isoNow : string) (l : list ProviderProfile) :
  List.map id (List.map (reprioritize orderedIds isoNow) l) = List.map id l.
Proof.
  rewrite List.map_map. apply List.map_ext. intros p. apply reprioritize_id.
Qed.

(** X8: [reorderProfiles] returns what it stores: the stored profiles, each
    one named in [orderedIds] given the priority [length - index] of its
    first place there and every other one kept as it was, sorted by
    priority, highest first. *)
Theorem reorderProfiles_result (isoNow : string) (orderedIds : list string) (w : World) :
  let existing := nullish (providerProfiles (stored w)) [] in
  let reordered := fst (reorderProfiles isoNow orderedIds w) in
  providerProfiles (stored (snd (reorderProfiles isoNow orderedIds w))) = Some reordered /\
  StronglySorted priorityDescending reordered /\
  Permutation reordered (List.map (reprioritize orderedIds isoNow) existing) /\
  Permutation (List.map id reordered) (List.map id existing) /\
  (forall p, In p existing -> ~ In (id p) orderedIds -> In p reordered) /\
  (forall p k, In p existing -> indexOf (id p) orderedIds = Some k ->
     exists q, In q reordered /\ id q = id p /\
               priority q = Z.of_nat (length orderedIds) - Z.of_nat k).
Proof.
  intros existing reordered. subst reordered.
  unfold reorderProfiles. cbn [getGlobalSettings fst snd]. fold existing.
  pose proof (stableSort_permutation byPriorityDescending
                (List.map (reprioritize orderedIds isoNow) existing)) as Hperm.
  split; [reflexivity|]. split; [apply stableSort_priority_sorted|].
  split; [exact Hperm|]. split.
  { rewrite Hperm. now rewrite reprioritize_ids. }
  split.
  - intros p Hp Hnot. apply (Permutation_in _ (Permutation_sym Hperm)).
    apply in_map_iff. exists p. split; [|exact Hp].
    unfold reprioritize. destruct (indexOf (id p) orderedIds) as [k|] eqn:E; [|reflexivity].
    exfalso. apply Hnot. apply indexOf_lookup in E.
    apply list_elem_of_In, list_elem_of_lookup. eauto.
  - intros p k Hp Hk. exists (reprioritize orderedIds isoNow p). split; [|split].
    + apply (Permutation_in _ (Permutation_sym Hperm)). now apply in_map.
    + apply reprioritize_id.
    + unfold reprioritize. now rewrite Hk.
Qed.

(** X9: when [orderedIds] names every stored profile once and nothing else,
    the stored order after [reorderProfiles] is the order of [orderedIds],
    and the profile at place [i] has the priority [length - i]: the first
    has the highest. *)
Theorem reorderProfiles_full_order (isoNow : string) (orderedIds : list string) (w : World) :
  NoDup orderedIds ->
  Permutation (List.map id (nullish (providerProfiles (stored w)) [])) orderedIds ->
  List.map id (fst (reorderProfiles isoNow orderedIds w)) = orderedIds /\
  (forall i p, fst (reorderProfiles isoNow orderedIds w) !! i = Some p ->
     priority p = Z.of_nat (length orderedIds) - Z.of_nat i).
Proof.
  intros Hnodup Hids.
  set (existing := nullish (providerProfiles (stored w)) []) in *.
  unfold reorderProfiles. cbn [getGlobalSettings fst snd]. fold existing.
  set (updated := List.map (reprioritize orderedIds isoNow) existing).
  pose proof (stableSort_permutation byPriorityDescending updated) as Hperm.
  pose proof (stableSort_priority_sorted updated) as Hsorted.
  assert (forall q, In q (stableSort byPriorityDescending updated) ->
            exists k, indexOf (id q) orderedIds = Some k /\
                      priority q = Z.of_nat (length orderedIds) - Z.of_nat k) as Hprio.
  { intros q Hq. apply (Permutation_in _ Hperm) in Hq.
    apply in_map_iff in Hq as (p & <- & Hp).
    assert (In (id p) orderedIds) as Hin
      by (apply (Permutation_in _ Hids); now apply in_map).
    destruct (indexOf_In _ _ Hin) as [k Hk]. exists k.
    unfold reprioritize. rewrite Hk. cbn. auto. }
  assert (List.map id (stableSort byPriorityDescending updated) = orderedIds) as Horder.
  { apply (StronglySorted_unique_strong (byPlace orderedIds)).
    - intros x1 x2 _ Hx2 H12 H21. unfold byPlace, placeOf in *.
      apply list_elem_of_In in Hx2. destruct (indexOf_In _ _ Hx2) as [k2 Hk2].
      rewrite Hk2 in *.
      destruct (indexOf x1 orderedIds) as [k1|] eqn:Hk1; [|lia].
      assert (k1 = k2) as -> by lia.
      apply indexOf_lookup in Hk1, Hk2. congruence.
    - apply (StronglySorted_map_in priorityDescending); [exact Hsorted|].
      intros a b Ha Hb Hab. unfold priorityDescending in Hab.
      destruct (Hprio a Ha) as (ka & Hka & Hpa). destruct (Hprio b Hb) as (kb & Hkb & Hpb).
      unfold byPlace, placeOf. rewrite Hka, Hkb. lia.
    - apply StronglySorted_by_lookup. intros i j x y Hi Hj Hlt.
      unfold byPlace, placeOf.
      rewrite (indexOf_NoDup _ Hnodup _ _ Hi), (indexOf_NoDup _ Hnodup _ _ Hj). lia.
    - rewrite Hperm. unfold updated. rewrite reprioritize_ids. exact Hids. }
  split; [exact Horder|].
  intros i p Hi.
  destruct (Hprio p) as (k & Hk & Hp).
  { apply list_elem_of_In, list_elem_of_lookup. eauto. }
  assert (orderedIds !! i = Some (id p)) as Hplace.
  { rewrite <- Horder, lookup_map, Hi. reflexivity. }
  rewrite (indexOf_NoDup _ Hnodup _ _ Hplace) in Hk. injection Hk as <-. exact Hp.
Qed.

Lemma reorderProfiles_full_order_witness :
  List.map id (fst (reorderProfiles "2025-06-01T00:00:00.000Z" ["id-b"; "id-a"]
                      (worldWith [profileA; profileB]))) = ["id-b"; "id-a"].
Proof.
  refine (proj1 (reorderProfiles_full_order "2025-06-01T00:00:00.000Z" ["id-b"; "id-a"]
                   (worldWith [profileA; profileB]) _ _)).
  - apply NoDup_cons. split; [|apply NoDup_singleton].
    intros H. apply list_elem_of_In in H. destruct H as [H|[]]. discriminate.
  - cbn. apply perm_swap.
Defined.

(** ** The registry: registering and looking up *)

Lemma lower_ascii_idempotent (c : ascii) : lower_ascii (lower_ascii c) = lower_ascii c.
Proof. destruct c as [[] [] [] [] [] [] [] []]; reflexivity. Qed.

Lemma toLowerCase_idempotent (s : string) : toLowerCase (toLowerCase s) = toLowerCase s.
Proof.
  induction s as [|c s IH]; [reflexivity|].
  cbn [toLowerCase]. now rewrite lower_ascii_idempotent, IH.
Qed.

Lemma map_set_get_same (key : string) (value : ProviderRegistration) (m : Registry) :
  map_get key (map_set key value m) = Some value.
Proof.
  induction m as [|[k v] rest IH]; cbn; [now rewrite String.eqb_refl|].
  destruct (String.eqb k key) eqn:E; cbn; now rewrite E.
Qed.

Lemma map_set_get_other (key other : string) (value : ProviderRegistration) (m : Registry) :
  other <> key -> map_get other (map_set key value m) = map_get other m.
Proof.
  intros Hne. induction m as [|[k v] rest IH]; cbn.
  - destruct (String.eqb_spec key other); [congruence|reflexivity].
  - destruct (String.eqb_spec k key) as [->|Hk]; cbn.
    + destruct (String.eqb_spec key other); [congruence|reflexivity].
    + now rewrite IH.
Qed.

Lemma map_set_names (key : string) (value : ProviderRegistration) (m : Registry) :
  getRegisteredProviderNames (map_set key value m) =
  if bool_decide (key ∈ getRegisteredProviderNames m)
  then getRegisteredProviderNames m
  else getRegisteredProviderNames m ++ [key].
Proof.
  unfold getRegisteredProviderNames.
  induction m as [|[k v] rest IH]; cbn [map_set List.map fst app].
  - rewrite bool_decide_eq_false_2; [reflexivity|]. apply not_elem_of_nil.
  - destruct (String.eqb_spec k key) as [->|Hk]; cbn [List.map fst].
    + rewrite bool_decide_eq_true_2; [reflexivity|]. left.
    + rewrite IH. destruct (bool_decide (key ∈ List.map fst rest)) eqn:E.
      * apply bool_decide_eq_true_1 in E.
        rewrite bool_decide_eq_true_2; [reflexivity|]. now right.
      * apply bool_decide_eq_false_1 in E.
        rewrite bool_decide_eq_false_2; [reflexivity|].
        intros H. apply elem_of_cons in H as [H|H]; congruence.
Qed.

(** X10: after [registerProvider(name, registration)] the registry holds the
    registration under the lower-cased name and every other name as before;
    a name already registered keeps its place among the registered names, a
    new one goes last, and no name is listed twice. *)
Theorem registerProvider_lookup (providerName : string) (registration : ProviderRegistration)
  (providerRegistry : Registry) :
  let after := registerProvider providerName registration providerRegistry in
  map_get (toLowerCase providerName) after = Some registration /\
  (forall other, other <> toLowerCase providerName ->
     map_get other after = map_get other providerRegistry) /\
  (toLowerCase providerName ∈ getRegisteredProviderNames providerRegistry ->
     getRegisteredProviderNames after = getRegisteredProviderNames providerRegistry) /\
  (toLowerCase providerName ∉ getRegisteredProviderNames providerRegistry ->
     getRegisteredProviderNames after =
       getRegisteredProviderNames providerRegistry ++ [toLowerCase providerName]) /\
  (wellFormed providerRegistry -> wellFormed after).
Proof.
  intros after. subst after. unfold registerProvider.
  split; [apply map_set_get_same|].
  split; [intros other; apply map_set_get_other|].
  rewrite map_set_names. split; [|split].
  - intros H. now rewrite bool_decide_eq_true_2.
  - intros H. now rewrite bool_decide_eq_false_2.
  - intros [Hnodup Hlower]. unfold wellFormed. rewrite map_set_names.
    destruct (bool_decide _) eqn:E; [now split|].
    apply bool_decide_eq_false_1 in E. split.
    + apply NoDup_app. split; [exact Hnodup|]. split.
      * intros x Hx Hx'. apply list_elem_of_singleton in Hx'. congruence.
      * apply NoDup_singleton.
    + apply Forall_app. split; [exact Hlower|].
      constructor; [apply toLowerCase_idempotent|constructor].
Qed.

Lemma registerProvider_lookup_witness :
  getRegisteredProviderNames
    (registerProvider "Claude" (mkRegistration (fun _ => ExternalProvider "other") None None None)
       sampleRegistry) = ["claude"; "cursor"].
Proof.
  apply (proj1 (proj2 (proj2 (registerProvider_lookup "Claude"
                  (mkRegistration (fun _ => ExternalProvider "other") None None None)
                  sampleRegistry)))).
  left.
Defined.

Lemma registered_wellFormed (calls : list (string * ProviderRegistration)) :
  wellFormed (registered calls).
Proof.
  unfold registered.
  assert (wellFormed []) as H by (split; constructor).
  revert H. generalize (@nil (string * ProviderRegistration)).
  induction calls as [|call calls IH]; intros r H; cbn [fold_left]; [exact H|].
  apply IH. unfold wellFormed, registerProvider in *. rewrite map_set_names.
  destruct H as [Hnodup Hlower].
  destruct (bool_decide _) eqn:E; [now split|].
  apply bool_decide_eq_false_1 in E. split.
  - apply NoDup_app. split; [exact Hnodup|]. split.
    + intros x Hx Hx'. apply list_elem_of_singleton in Hx'. congruence.
    + apply NoDup_singleton.
  - apply Forall_app. split; [exact Hlower|].
    constructor; [apply toLowerCase_idempotent|constructor].
Qed.

Lemma map_get_In (n : string) (r : ProviderRegistration) (m : Registry) :
  NoDup (getRegisteredProviderNames m) -> In (n, r) m -> map_get n m = Some r.
Proof.
  unfold getRegisteredProviderNames.
  induction m as [|[k v] rest IH]; cbn; intros Hnodup Hin; [destruct Hin|].
  apply NoDup_cons in Hnodup as [Hk Hrest].
  destruct Hin as [[= -> ->]|Hin]; [now rewrite String.eqb_refl|].
  destruct (String.eqb_spec k n) as [->|Hne]; [|auto].
  exfalso. apply Hk. apply list_elem_of_In. change n with (fst (n, r)). now apply in_map.
Qed.

Lemma firstCanHandle_Some (registrations : Registry) (lowerModel n : string) :
  firstCanHandle registrations lowerModel = Some n ->
  exists r, In (n, r) registrations /\ accepts r lowerModel = true.
Proof.
  induction registrations as [|[k v] rest IH]; cbn; [discriminate|].
  destruct (accepts v lowerModel) eqn:E.
  - intros [= ->]. eauto.
  - intros H. destruct (IH H) as (r & Hin & Hr). eauto.
Qed.

(** X11: [getProviderByName] finds a registered provider under any casing of
    its name, whatever aliases other registrations declare: after
    [registerProvider(name, registration)], every [providerName] equal to
    [name] ignoring case gets what the registration's factory makes. *)
Theorem getProviderByName_after_register (providerName name' : string)
  (registration : ProviderRegistration) (providerRegistry : Registry) :
  toLowerCase name' = toLowerCase providerName ->
  getProviderByName (registerProvider providerName registration providerRegistry) name' =
    Some (factory registration tt).
Proof.
  intros Hcase. unfold getProviderByName, registerProvider.
  now rewrite Hcase, map_set_get_same.
Qed.

Lemma getProviderByName_after_register_witness :
  getProviderByName
    (registerProvider "Gemini" (mkRegistration (fun _ => ExternalProvider "gemini") None None None)
       sampleRegistry) "GEMINI" = Some (ExternalProvider "gemini").
Proof.
  apply (getProviderByName_after_register "Gemini" "GEMINI"
           (mkRegistration (fun _ => ExternalProvider "gemini") None None None) sampleRegistry).
  reflexivity.
Defined.

(** X12: in a registry built by [registerProvider] calls, a model id that
    some registration's [canHandleModel] accepts (lower-cased) is served by
    what the factory of the first such registration in priority order
    makes; the ["claude"] fallback is not consulted.  With no registration
    at all, [getProviderForModel] throws its no-provider error. *)
Theorem getProviderForModel_accepting (calls : list (string * ProviderRegistration))
  (modelId : string) :
  (forall n,
     firstCanHandle (sortByPriority (registered calls)) (toLowerCase modelId) = Some n ->
     exists registration,
       map_get n (registered calls) = Some registration /\
       accepts registration (toLowerCase modelId) = true /\
       getProviderNameForModel (registered calls) modelId = n /\
       getProviderForModel (registered calls) modelId = Ok (factory registration tt)) /\
  getProviderForModel [] modelId = Throw (newError ("No provider found for model: " +:+ modelId)).
Proof.
  split; [|reflexivity].
  intros n Hfirst.
  destruct (registered_wellFormed calls) as [Hnodup Hlower].
  destruct (firstCanHandle_Some _ _ _ Hfirst) as (r & Hin & Hr).
  apply (Permutation_in _ (sortByPriority_permutation _)) in Hin.
  pose proof (map_get_In _ _ _ Hnodup Hin) as Hget.
  exists r. split; [exact Hget|]. split; [exact Hr|].
  assert (getProviderNameForModel (registered calls) modelId = n) as Hname
    by (unfold getProviderNameForModel; now rewrite Hfirst).
  split; [exact Hname|].
  unfold getProviderForModel, getProviderByName. rewrite Hname.
  assert (toLowerCase n = n) as ->.
  { rewrite Forall_forall in Hlower. apply Hlower, list_elem_of_In.
    change n with (fst (n, r)). now apply in_map. }
  now rewrite Hget.
Qed.

Lemma getProviderForModel_accepting_witness :
  getProviderForModel
    (registered [("Claude", mkRegistration (fun _ => ExternalProvider "claude")
                              (Some ["anthropic"]) (Some isClaudeModel) (Some 0));
                 ("Cursor", mkRegistration (fun _ => ExternalProvider "cursor") None
                              (Some (fun m => String.prefix "cursor-" m)) (Some 10))])
    "Cursor-Sonnet" = Ok (ExternalProvider "cursor").
Proof.
  destruct (proj1 (getProviderForModel_accepting
              [("Claude", mkRegistration (fun _ => ExternalProvider "claude")
                            (Some ["anthropic"]) (Some isClaudeModel) (Some 0));
               ("Cursor", mkRegistration (fun _ => ExternalProvider "cursor") None
                            (Some (fun m => String.prefix "cursor-" m)) (Some 10))]
              "Cursor-Sonnet") "cursor" eq_refl) as (r & Hget & _ & _ & Hprovider).
  vm_compute in Hget. injection Hget as <-. exact Hprovider.
Defined.

(** ** The factory: routing with profiles *)

Lemma createProviderFromProfile_first (t : ProviderProfileType) (profiles : list ProviderProfile) :
  head (List.map createProviderFromProfile (matchingProfiles t profiles)) =
  option_map createProviderFromProfile (firstActive t profiles).
Proof.
  unfold firstActive, matchingProfiles.
  now destruct (List.filter _ profiles).
Qed.

(** X13: for a model id that does not start with [profile:] and is not both
    Claude-family and OpenAI-family, and with no preferred profile type, the
    provider [getProviderForModelWithProfiles] returns is the first
    candidate of the chain [getFallbackProviders] builds for the same
    arguments. *)
Theorem getProviderForModelWithProfiles_is_first_fallback (providerRegistry : Registry)
  (modelId : string) (profiles : list ProviderProfile) (chain : list BaseProvider) :
  startsWith modelId "profile:" = false ->
  isClaudeModel (toLowerCase modelId) && isOpenAIModel (toLowerCase modelId) = false ->
  getFallbackProviders providerRegistry modelId profiles = Ok chain ->
  exists provider,
    head chain = Some provider /\
    fst (getProviderForModelWithProfiles providerRegistry modelId profiles None) = Ok provider.
Proof.
  intros Hexplicit Hfamily Hchain.
  unfold getProviderForModelWithProfiles. rewrite Hexplicit.
  unfold getFallbackProviders, profileTypeFor in Hchain.
  destruct (getProviderForModel providerRegistry modelId) as [standard|e]; cbn [bind] in Hchain.
  2:{ now destruct (isClaudeModel _), (isOpenAIModel _). }
  injection Hchain as <-.
  destruct (isClaudeModel (toLowerCase modelId)) eqn:Hc.
  - cbn [andb] in Hfamily. rewrite Hfamily.
    pose proof (createProviderFromProfile_first AnthropicCompatible profiles) as Hfirst.
    destruct (firstActive AnthropicCompatible profiles) as [p|]; cbn [option_map] in Hfirst.
    + exists (createProviderFromProfile p). split; [|reflexivity].
      destruct (List.map _ _); [discriminate|]. exact Hfirst.
    + exists standard. split; [|reflexivity].
      destruct (List.map _ _); [reflexivity|discriminate].
  - destruct (isOpenAIModel (toLowerCase modelId)) eqn:Ho.
    + pose proof (createProviderFromProfile_first OpenaiCompatible profiles) as Hfirst.
      destruct (firstActive OpenaiCompatible profiles) as [p|]; cbn [option_map] in Hfirst.
      * exists (createProviderFromProfile p). split; [|reflexivity].
        destruct (List.map _ _); [discriminate|]. exact Hfirst.
      * exists standard. split; [|reflexivity].
        destruct (List.map _ _); [reflexivity|discriminate].
    + exists standard. split; reflexivity.
Qed.

Lemma getProviderForModelWithProfiles_is_first_fallback_witness :
  exists provider,
    head [AnthropicProxyProvider profileA; AnthropicProxyProvider profileB;
          ExternalProvider "claude"] = Some provider /\
    fst (getProviderForModelWithProfiles sampleRegistry "claude-3-opus"
           [profileA; profileB] None) = Ok provider.
Proof.
  apply (getProviderForModelWithProfiles_is_first_fallback sampleRegistry "claude-3-opus"
           [profileA; profileB]); reflexivity.
Defined.

(** A model id of both families: the chain offers the default provider
    only, and the routing picks the OpenAI proxy. *)
Example getProviderForModelWithProfiles_both_families :
  getFallbackProviders sampleRegistry "gpt-opus"
    [sampleProfile "id-x" "X" OpenaiCompatible true 5 []] = Ok [ExternalProvider "claude"] /\
  fst (getProviderForModelWithProfiles sampleRegistry "gpt-opus"
         [sampleProfile "id-x" "X" OpenaiCompatible true 5 []] None) =
    Ok (OpenAIProxyProvider (sampleProfile "id-x" "X" OpenaiCompatible true 5 [])).
Proof. split; reflexivity. Qed.

Lemma split_on_first (sep : ascii) (first rest : string) :
  ~ In sep (list_ascii_of_string first) ->
  split_on sep (first +:+ String sep rest) = first :: split_on sep rest.
Proof.
  induction first as [|c first IH]; intros Hno.
  - rewrite append_nil. cbn [split_on]. now rewrite Ascii.eqb_refl.
  - rewrite append_cons. cbn [split_on].
    destruct (Ascii.eqb_spec c sep) as [->|Hne]; [exfalso; apply Hno; now left|].
    rewrite IH; [reflexivity|]. intros H. apply Hno. now right.
Qed.

(** X14: a model id [profile:<id>/<model>] whose id (holding no slash) is
    that of one of the given profiles is served by that profile's proxy,
    active or not, whatever the preferred type and the model's family. *)
Theorem getProviderForModelWithProfiles_explicit (providerRegistry : Registry)
  (profileId model : string) (profiles : list ProviderProfile)
  (preferredProfileType : option ProviderProfileType) (p : ProviderProfile) :
  ~ hasSlash profileId ->
  List.find (fun q => String.eqb (id q) profileId) profiles = Some p ->
  fst (getProviderForModelWithProfiles providerRegistry
         ("profile:" +:+ profileId +:+ "/" +:+ model) profiles preferredProfileType) =
    Ok (createProviderFromProfile p).
Proof.
  intros Hslash Hfind. unfold getProviderForModelWithProfiles.
  assert (startsWith ("profile:" +:+ profileId +:+ "/" +:+ model) "profile:" = true) as ->
    by apply prefix_append.
  change (slice_from 8 ("profile:" +:+ profileId +:+ "/" +:+ model))
    with (profileId +:+ String "/" model).
  rewrite (split_on_first "/" profileId model Hslash), Hfind. reflexivity.
Qed.

Lemma getProviderForModelWithProfiles_explicit_witness :
  fst (getProviderForModelWithProfiles sampleRegistry "profile:id-y/gpt-4o"
         [profileA; sampleProfile "id-y" "Y" AnthropicCompatible false 4 []]
         (Some OpenaiCompatible)) =
    Ok (AnthropicProxyProvider (sampleProfile "id-y" "Y" AnthropicCompatible false 4 [])).
Proof.
  apply (getProviderForModelWithProfiles_explicit sampleRegistry "id-y" "gpt-4o"
           [profileA; sampleProfile "id-y" "Y" AnthropicCompatible false 4 []]
           (Some OpenaiCompatible)
           (sampleProfile "id-y" "Y" AnthropicCompatible false 4 [])).
  - unfold hasSlash. cbn. intros H.
    repeat (destruct H as [H|H]; [discriminate|]). exact H.
  - reflexivity.
Defined.

(** ** The SSRF guard: the shape of its answer *)

Lemma scanPatterns_shape (patterns : list regex) (host : string) (allow : bool)
  (r : SsrfValidationResult) :
  scanPatterns patterns host allow = Some r ->
  existsb (fun pattern => test pattern host) patterns = true /\
  r = if allow then mkSsrf true None (Some true)
      else mkSsrf false (Some (internalReason host)) None.
Proof.
  induction patterns as [|pattern rest IH]; cbn; [discriminate|].
  destruct (test pattern host); cbn; [|exact IH].
  destruct allow; intros [= <-]; split; reflexivity.
Qed.

Lemma scanPatterns_hit (patterns : list regex) (host : string) (allow : bool) :
  existsb (fun pattern => test pattern host) patterns = true ->
  scanPatterns patterns host allow =
    Some (if allow then mkSsrf true None (Some true)
          else mkSsrf false (Some (internalReason host)) None).
Proof.
  induction patterns as [|pattern rest IH]; cbn; [discriminate|].
  destruct (test pattern host); cbn; [now destruct allow|exact IH].
Qed.

Lemma scanPatterns_miss (patterns : list regex) (host : string) (allow allow' : bool) :
  scanPatterns patterns host allow = None -> scanPatterns patterns host allow' = None.
Proof.
  induction patterns as [|pattern rest IH]; cbn; [reflexivity|].
  destruct (test pattern host); [now destruct allow|exact IH].
Qed.

(** X15: whatever the URL and the parser, an answer with [safe = false]
    carries a reason and no bypass mark, an answer with [safe = true]
    carries no reason, the bypass mark appears only when the caller allowed
    internal URLs, and a URL accepted without the flag gets the identical
    answer with it. *)
Theorem validateBaseUrlSsrf_answer_shape (newURL : string -> result URL) (url : string)
  (allow : option bool) (r : SsrfValidationResult) :
  validateBaseUrlSsrf newURL url allow = Ok r ->
  (safe r = false -> (exists why, reason r = Some why) /\ bypassedByUser r = None) /\
  (safe r = true -> reason r = None) /\
  (bypassedByUser r <> None -> allow = Some true /\ r = mkSsrf true None (Some true)) /\
  (safe r = true -> nullish allow false = false ->
     validateBaseUrlSsrf newURL url (Some true) = Ok r).
Proof.
  intros Hr.
  destruct (validateBaseUrlSsrf_cases newURL url allow)
    as [(m & Hm & E)|[(p & Hp & Hs & E)|(p & Hp & Hs & E)]].
  - assert (r = mkSsrf false (Some (invalidReason (err_message m))) None) as ->
      by congruence.
    split; [|split; [|split]]; cbn; intros; try congruence; eauto.
  - assert (r = mkSsrf false (Some schemeReason) None) as -> by congruence.
    split; [|split; [|split]]; cbn; intros; try congruence; eauto.
  - destruct (scanPatterns internalPatterns (toLowerCase (hostname p)) (nullish allow false))
      as [r0|] eqn:S.
    + assert (r = r0) as -> by congruence.
      apply scanPatterns_shape in S as [_ ->].
      destruct allow as [[|]|]; cbn;
        (split; [|split; [|split]]); cbn; intros; try congruence; eauto.
    + assert (r = mkSsrf true None None) as -> by congruence.
      split; [|split; [|split]]; cbn; intros; try congruence; eauto.
      destruct (validateBaseUrlSsrf_cases newURL url (Some true))
        as [(m' & Hm' & _)|[(p' & Hp' & Hs' & _)|(p' & Hp' & _ & ->)]]; try congruence.
      assert (p' = p) as -> by congruence.
      now rewrite (scanPatterns_miss _ _ _ (nullish (Some true) false) S).
Qed.

Lemma validateBaseUrlSsrf_answer_shape_witness :
  validateBaseUrlSsrf sampleURL "https://api.example.com/v1" (Some true) =
    Ok (mkSsrf true None None).
Proof.
  apply (proj2 (proj2 (proj2 (validateBaseUrlSsrf_answer_shape sampleURL
                  "https://api.example.com/v1" None (mkSsrf true None None) eq_refl))));
    reflexivity.
Defined.

(** ** The SSRF guard: the private ranges *)

Lemma append_eq_empty (a b : string) : a +:+ b = EmptyString -> a = EmptyString /\ b = EmptyString.
Proof. destruct a; [rewrite append_nil; auto|rewrite append_cons; discriminate]. Qed.

Lemma nullable_complete (r : regex) : lang r EmptyString -> nullable r = true.
Proof.
  intros H. remember EmptyString as s eqn:Hs.
  induction H as [| | r1 r2 s1 s2 _ IH1 _ IH2 | r1 r2 s _ IH | r1 r2 s _ IH | |];
    cbn [nullable]; try reflexivity; try discriminate.
  - apply append_eq_empty in Hs as [-> ->]. now rewrite IH1, IH2.
  - now rewrite IH.
  - rewrite IH by assumption. apply orb_true_r.
Qed.

Lemma deriv_complete (r : regex) (c : ascii) (s : string) :
  lang r (String c s) -> lang (deriv c r) s.
Proof.
  intros H. remember (String c s) as t eqn:Ht. revert s Ht.
  induction H as [| p c0 Hp | r1 r2 s1 s2 H1 IH1 H2 IH2 | r1 r2 t H IH | r1 r2 t H IH
                  | | r s1 s2 H1 IH1 H2 IH2];
    intros s Ht; cbn [deriv].
  - discriminate.
  - injection Ht as -> <-. rewrite Hp. constructor.
  - destruct s1 as [|c1 s1].
    + rewrite append_nil in Ht. rewrite (nullable_complete _ H1).
      apply lang_alt_r. now apply IH2.
    + rewrite append_cons in Ht. injection Ht as -> <-.
      assert (lang (RSeq (deriv c r1) r2) (s1 +:+ s2)) as Hseq
        by (constructor; [now apply IH1|exact H2]).
      destruct (nullable r1); [now apply lang_alt_l|exact Hseq].
  - apply lang_alt_l. now apply IH.
  - apply lang_alt_r. now apply IH.
  - discriminate.
  - destruct s1 as [|c1 s1].
    + rewrite append_nil in Ht. now apply IH2.
    + rewrite append_cons in Ht. injection Ht as -> <-.
      constructor; [now apply IH1|exact H2].
Qed.

(** The matcher accepts every string the pattern denotes. *)
Lemma matches_complete (s : string) : forall r, lang r s -> matches r s = true.
Proof.
  induction s as [|c s IH]; intros r H; cbn [matches].
  - now apply nullable_complete.
  - apply IH. now apply deriv_complete.
Qed.

Lemma lang_RLit (s : string) : lang (RLit s) s.
Proof.
  induction s as [|c s IH]; cbn [RLit]; [constructor|].
  change (String c s) with (String c EmptyString +:+ s).
  constructor; [|exact IH]. constructor. apply Ascii.eqb_refl.
Qed.

Lemma lang_digits_star (s : string) : allDigits s = true -> lang (RStar RDigit) s.
Proof.
  induction s as [|c s IH]; cbn [allDigits]; intros H; [constructor|].
  apply andb_true_iff in H as [Hc Hs].
  change (String c s) with (String c EmptyString +:+ s).
  constructor; [|now apply IH]. constructor. exact Hc.
Qed.

Lemma lang_dotDigits (a : string) : decimal a = true -> lang dotDigits ("." +:+ a).
Proof.
  unfold decimal. intros H. apply andb_true_iff in H as [Hne Hd].
  destruct a as [|c a]; [discriminate|]. cbn [allDigits] in Hd.
  apply andb_true_iff in Hd as [Hc Ha].
  unfold dotDigits, RPlus.
  constructor; [constructor; reflexivity|].
  change (String c a) with (String c EmptyString +:+ a).
  constructor; [constructor; exact Hc|now apply lang_digits_star].
Qed.

Lemma is_digit_lower (c : ascii) : is_digit c = true -> lower_ascii c = c.
Proof. destruct c as [[] [] [] [] [] [] [] []]; (reflexivity || discriminate). Qed.

Lemma toLowerCase_append (a b : string) :
  toLowerCase (a +:+ b) = toLowerCase a +:+ toLowerCase b.
Proof.
  induction a as [|c a IH]; [reflexivity|].
  rewrite append_cons. cbn [toLowerCase]. now rewrite IH, append_cons.
Qed.

Lemma toLowerCase_decimal (a : string) : decimal a = true -> toLowerCase a = a.
Proof.
  unfold decimal. intros H. apply andb_true_iff in H as [_ H].
  induction a as [|c a IH]; [reflexivity|]. cbn [allDigits] in H.
  apply andb_true_iff in H as [Hc Ha]. cbn [toLowerCase].
  now rewrite (is_digit_lower _ Hc), IH.
Qed.

Lemma privateDotted_lower (host : string) : privateDotted host -> toLowerCase host = host.
Proof.
  intros (a & b & c & Ha & Hb & Hc & [-> | [-> | [-> | ->]]]);
    rewrite !toLowerCase_append, ?(toLowerCase_decimal _ Ha),
      ?(toLowerCase_decimal _ Hb), ?(toLowerCase_decimal _ Hc); reflexivity.
Qed.

Lemma privateDotted_matched (host : string) :
  privateDotted host -> existsb (fun pattern => test pattern host) internalPatterns = true.
Proof.
  intros (a & b & c & Ha & Hb & Hc & H).
  apply lang_dotDigits in Ha, Hb, Hc.
  assert (lang (RConcat [dotDigits; dotDigits]) (("." +:+ b) +:+ ("." +:+ c) +:+ EmptyString))
    as Htwo by (cbn [RConcat]; apply lang_seq; [exact Hb|apply lang_seq; [exact Hc|constructor]]).
  assert (lang (RConcat [dotDigits; dotDigits; dotDigits])
               (("." +:+ a) +:+ ("." +:+ b) +:+ ("." +:+ c) +:+ EmptyString))
    as Hthree by (cbn [RConcat]; apply lang_seq; [exact Ha|exact Htwo]).
  rewrite append_empty_r in Htwo, Hthree.
  unfold internalPatterns, test. cbn [existsb].
  destruct H as [-> | [-> | [-> | ->]]].
  - assert (matches (RConcat [RLit "127"; dotDigits; dotDigits; dotDigits])
                    ("127." +:+ a +:+ "." +:+ b +:+ "." +:+ c) = true) as ->.
    { apply matches_complete.
      change ("127." +:+ a +:+ "." +:+ b +:+ "." +:+ c)
        with ("127" +:+ (("." +:+ a) +:+ ("." +:+ b) +:+ ("." +:+ c))).
      constructor; [apply lang_RLit|exact Hthree]. }
    now rewrite orb_true_r.
  - assert (matches (RConcat [RLit "10"; dotDigits; dotDigits; dotDigits])
                    ("10." +:+ a +:+ "." +:+ b +:+ "." +:+ c) = true) as ->.
    { apply matches_complete.
      change ("10." +:+ a +:+ "." +:+ b +:+ "." +:+ c)
        with ("10" +:+ (("." +:+ a) +:+ ("." +:+ b) +:+ ("." +:+ c))).
      constructor; [apply lang_RLit|exact Hthree]. }
    now rewrite !orb_true_r.
  - assert (matches (RConcat [RLit "192.168"; dotDigits; dotDigits])
                    ("192.168." +:+ b +:+ "." +:+ c) = true) as ->.
    { apply matches_complete.
      change ("192.168." +:+ b +:+ "." +:+ c)
        with ("192.168" +:+ (("." +:+ b) +:+ ("." +:+ c))).
      constructor; [apply lang_RLit|exact Htwo]. }
    now rewrite !orb_true_r.
  - assert (matches (RConcat [RLit "169.254"; dotDigits; dotDigits])
                    ("169.254." +:+ b +:+ "." +:+ c) = true) as ->.
    { apply matches_complete.
      change ("169.254." +:+ b +:+ "." +:+ c)
        with ("169.254" +:+ (("." +:+ b) +:+ ("." +:+ c))).
      constructor; [apply lang_RLit|exact Htwo]. }
    now rewrite !orb_true_r.
Qed.

(** X16: an [http] or [https] URL whose hostname is a dotted address
    [127.a.b.c], [10.a.b.c], [192.168.b.c] or [169.254.b.c], each group any
    non-empty string of digits, is refused with the reason naming the
    hostname, and is accepted with the bypass mark exactly when the caller
    allows internal URLs. *)
Theorem validateBaseUrlSsrf_private_ranges (newURL : string -> result URL) (url : string)
  (parsed : URL) (allow : option bool) :
  newURL url = Ok parsed ->
  protocol parsed = "http:" \/ protocol parsed = "https:" ->
  privateDotted (hostname parsed) ->
  validateBaseUrlSsrf newURL url allow =
    Ok (if nullish allow false then mkSsrf true None (Some true)
        else mkSsrf false (Some (internalReason (hostname parsed))) None).
Proof.
  intros Hparsed Hprotocol Hhost.
  unfold validateBaseUrlSsrf. rewrite Hparsed. cbn [bind try_catch].
  assert (existsb (String.eqb (protocol parsed)) ["http:"; "https:"] = true) as ->
    by (destruct Hprotocol as [-> | ->]; reflexivity).
  cbn [negb]. rewrite (privateDotted_lower _ Hhost).
  now rewrite (scanPatterns_hit _ _ _ (privateDotted_matched _ Hhost)).
Qed.

Lemma validateBaseUrlSsrf_private_ranges_witness :
  validateBaseUrlSsrf sampleURL "http://10.0.255.7:8080/v1" None =
    Ok (mkSsrf false (Some (internalReason "10.0.255.7")) None).
Proof.
  apply (validateBaseUrlSsrf_private_ranges sampleURL "http://10.0.255.7:8080/v1"
           (mkURL "http:" "10.0.255.7") None).
  - reflexivity.
  - left. reflexivity.
  - exists "0", "255", "7". repeat split; try reflexivity. right. left. reflexivity.
Defined.

(** ** The lists of models and the model mapper *)

Lemma NoDup_map_injective {A B : Type} (f : A -> B) (l : list A) (a b : A) :
  NoDup (List.map f l) -> In a l -> In b l -> f a = f b -> a = b.
Proof.
  induction l as [|x l IH]; intros Hnd Ha Hb Hf; [contradiction|].
  cbn [List.map] in Hnd. apply NoDup_cons in Hnd as [Hx Hl].
  assert (forall y, In y l -> f y <> f x) as Hfresh.
  { intros y Hy E. apply Hx. rewrite <- E. apply list_elem_of_In. now apply in_map. }
  destruct Ha as [->|Ha], Hb as [->|Hb]; try reflexivity.
  - exfalso. apply (Hfresh b Hb). congruence.
  - exfalso. apply (Hfresh a Ha). congruence.
  - now apply IH.
Qed.

Lemma mapModelToRemote_entry (profile : ProviderProfile) (e : ModelMappingEntry) :
  NoDup (List.map (fun x => toLowerCase (localModel x)) (modelMapping profile)) ->
  In e (modelMapping profile) ->
  mapModelToRemote (localModel e) profile = remoteModel e.
Proof.
  intros Hnd He. unfold mapModelToRemote.
  rewrite (find_the_only _ _ e He); [reflexivity|apply String.eqb_refl|].
  intros y Hy Hf. apply String.eqb_eq in Hf.
  exact (NoDup_map_injective (fun x => toLowerCase (localModel x)) _ y e Hnd Hy He Hf).
Qed.

(** X17: when no two entries of a profile's model mapping have the same
    local name ignoring case, every model a proxy provider lists is sent to
    the remote under the [modelString] the list shows: [mapModelToRemote] of
    its [id] is its [modelString].  With an empty mapping the default models
    are sent unchanged. *)
Theorem availableModels_sent_as_listed (profile : ProviderProfile) (m : ModelDefinition) :
  NoDup (List.map (fun e => toLowerCase (localModel e)) (modelMapping profile)) ->
  In m (anthropicAvailableModels profile) \/ In m (openaiAvailableModels profile) ->
  mapModelToRemote (md_id m) profile = md_modelString m.
Proof.
  intros Hnd Hm.
  unfold anthropicAvailableModels, openaiAvailableModels in Hm.
  destruct (modelMapping profile) as [|e0 rest] eqn:E.
  - unfold mapModelToRemote. rewrite E. cbn [List.find].
    destruct Hm as [Hm|Hm]; cbn [In] in Hm;
      destruct Hm as [<-|[<-|[<-|[]]]]; reflexivity.
  - assert (exists e, In e (modelMapping profile) /\
                      md_id m = localModel e /\ md_modelString m = remoteModel e)
      as (e & He & -> & ->).
    { rewrite E. destruct Hm as [Hm|Hm]; apply in_map_iff in Hm as (e & <- & He);
        exists e; auto. }
    apply mapModelToRemote_entry; [now rewrite E|exact He].
Qed.

Lemma availableModels_sent_as_listed_witness :
  mapModelToRemote "claude-3-haiku" opusProfile = "proxy-haiku".
Proof.
  apply (availableModels_sent_as_listed opusProfile
           (mappedModel ("anthropic-proxy:" +:+ name opusProfile) (name opusProfile) true
              (mkMapping "claude-3-haiku" "proxy-haiku"))).
  - vm_compute. repeat (apply NoDup_cons; split); [| |apply NoDup_nil_2];
      intros H; apply list_elem_of_In in H; cbn in H; intuition discriminate.
  - left. vm_compute. right. left. reflexivity.
Defined.

(** ** The registrations the module makes *)

Lemma initialRegistry_entries (isCursorModel : string -> bool)
  (claudeProvider cursorProvider : BaseProvider) :
  initialRegistry isCursorModel claudeProvider cursorProvider =
    [("claude", mkRegistration (fun _ => claudeProvider) (Some ["anthropic"])
                  (Some isClaudeModel) (Some 0));
     ("cursor", mkRegistration (fun _ => cursorProvider) None (Some isCursorModel) (Some 10))].
Proof. reflexivity. Qed.

Lemma initialRegistry_sorted (isCursorModel : string -> bool)
  (claudeProvider cursorProvider : BaseProvider) :
  sortByPriority (initialRegistry isCursorModel claudeProvider cursorProvider) =
    [("cursor", mkRegistration (fun _ => cursorProvider) None (Some isCursorModel) (Some 10));
     ("claude", mkRegistration (fun _ => claudeProvider) (Some ["anthropic"])
                  (Some isClaudeModel) (Some 0))].
Proof. reflexivity. Qed.

(** X18: with the two registrations of the module, a model id resolves to
    ["cursor"] when [isCursorModel] accepts it lower-cased, also when the
    Claude test accepts it too; otherwise to ["claude"] when the Claude test
    accepts it; otherwise to ["cursor"] when it starts with [cursor-]
    ignoring case, and to ["claude"] in every other case.  The provider
    returned is what the factory registered under that name makes. *)
Theorem initialRegistry_resolution (isCursorModel : string -> bool)
  (claudeProvider cursorProvider : BaseProvider) (modelId : string) :
  let providerRegistry := initialRegistry isCursorModel claudeProvider cursorProvider in
  let lowerModel := toLowerCase modelId in
  let cursor :=
    isCursorModel lowerModel || (negb (isClaudeModel lowerModel) && startsWith lowerModel "cursor-") in
  getProviderNameForModel providerRegistry modelId = (if cursor then "cursor" else "claude") /\
  getProviderForModel providerRegistry modelId =
    Ok (if cursor then cursorProvider else claudeProvider).
Proof.
  intros providerRegistry lowerModel cursor.
  assert (getProviderNameForModel providerRegistry modelId =
          if cursor then "cursor" else "claude") as Hname.
  { unfold getProviderNameForModel, providerRegistry.
    rewrite initialRegistry_sorted. fold lowerModel. subst cursor.
    cbn [firstCanHandle accepts canHandleModel].
    destruct (isCursorModel lowerModel); [reflexivity|].
    destruct (isClaudeModel lowerModel) eqn:Hclaude; [reflexivity|].
    cbn [firstPrefix orb negb andb].
    change ("cursor" +:+ "-") with "cursor-".
    destruct (startsWith lowerModel "cursor-"); [reflexivity|].
    now destruct (startsWith lowerModel ("claude" +:+ "-")). }
  split; [exact Hname|].
  unfold getProviderForModel. rewrite Hname. unfold providerRegistry.
  rewrite initialRegistry_entries.
  now destruct cursor.
Qed.

(** ** Trailing slashes of a base URL *)

Lemma stripTrailingSlashes_cons (c : ascii) (s : string) :
  stripTrailingSlashes (String c s) =
  match stripTrailingSlashes s with
  | EmptyString => if Ascii.eqb c "/" then EmptyString else String c EmptyString
  | r => String c r
  end.
Proof. reflexivity. Qed.

Lemma stripTrailingSlashes_slashes (n : nat) : stripTrailingSlashes (slashes n) = EmptyString.
Proof.
  induction n as [|n IH]; [reflexivity|].
  cbn [slashes]. rewrite stripTrailingSlashes_cons, IH. reflexivity.
Qed.

Lemma stripTrailingSlashes_append_slashes (s : string) (n : nat) :
  stripTrailingSlashes (s +:+ slashes n) = stripTrailingSlashes s.
Proof.
  induction s as [|c s IH].
  - rewrite append_nil. apply stripTrailingSlashes_slashes.
  - rewrite append_cons, !stripTrailingSlashes_cons, IH. reflexivity.
Qed.

Lemma stripTrailingSlashes_rest (s : string) :
  exists k, s = stripTrailingSlashes s +:+ slashes k.
Proof.
  induction s as [|c s [k IH]]; [now exists 0%nat|].
  rewrite stripTrailingSlashes_cons.
  destruct (stripTrailingSlashes s) as [|c' r] eqn:E.
  - rewrite append_nil in IH.
    destruct (Ascii.eqb c "/") eqn:Hc.
    + apply Ascii.eqb_eq in Hc as ->. exists (S k). rewrite append_nil, IH. reflexivity.
    + exists k. rewrite append_cons, append_nil. now f_equal.
  - exists k. rewrite append_cons. now f_equal.
Qed.

Lemma stripTrailingSlashes_end (s : string) : endsWithSlash (stripTrailingSlashes s) = false.
Proof.
  induction s as [|c s IH]; [reflexivity|].
  rewrite stripTrailingSlashes_cons.
  destruct (stripTrailingSlashes s) as [|c' r] eqn:E.
  - destruct (Ascii.eqb c "/") eqn:Hc; [reflexivity|]. cbn [endsWithSlash]. exact Hc.
  - exact IH.
Qed.

(** X19: the connection test does not depend on the slashes that end the
    base URL: for every network, a base URL followed by any number of
    slashes gets the result of the base URL itself.  What the request URL
    is built from, the base URL with its trailing slashes removed, never
    ends in a slash and differs from the base URL by slashes only. *)
Theorem testProfileConnection_trailing_slashes (fetch : Request -> result Response)
  (startTime endTime : Z) (isoNow : string) (t : ProviderProfileType)
  (url key : string) (timeout : option Z) (n : nat) :
  testProfileConnection fetch startTime endTime isoNow
    (mkTestInput t (url +:+ slashes n) key timeout) =
  testProfileConnection fetch startTime endTime isoNow (mkTestInput t url key timeout) /\
  endsWithSlash (stripTrailingSlashes url) = false /\
  (exists k, url = stripTrailingSlashes url +:+ slashes k) /\
  stripTrailingSlashes (stripTrailingSlashes url) = stripTrailingSlashes url.
Proof.
  split; [|split; [apply stripTrailingSlashes_end|split; [apply stripTrailingSlashes_rest|]]].
  - unfold testProfileConnection. cbn [t_baseUrl t_type t_apiKey t_timeout].
    now rewrite stripTrailingSlashes_append_slashes.
  - destruct (stripTrailingSlashes_rest url) as [k Hk].
    rewrite Hk at 2. now rewrite stripTrailingSlashes_append_slashes.
Qed.

(** ** The fallback chain for every family *)

(** X20: whatever the model id, a chain [getFallbackProviders] returns is a
    list of proxies followed by the provider of the registry's default
    resolution.  Every proxy is built from an active profile of the given
    list: an Anthropic proxy only for a Claude-family id, an OpenAI proxy
    only for an OpenAI-family id that is not Claude-family; an id of neither
    family gets no proxy.  When the default resolution throws, the chain
    throws the same error, whatever profiles are active. *)
Theorem getFallbackProviders_proxies (providerRegistry : Registry) (modelId : string)
  (profiles : list ProviderProfile) :
  let lowerModel := toLowerCase modelId in
  (forall e, getProviderForModel providerRegistry modelId = Throw e ->
     getFallbackProviders providerRegistry modelId profiles = Throw e) /\
  (forall chain, getFallbackProviders providerRegistry modelId profiles = Ok chain ->
     exists proxies standardProvider,
       chain = proxies ++ [standardProvider] /\
       getProviderForModel providerRegistry modelId = Ok standardProvider /\
       Forall (fun provider =>
                 exists profile,
                   In profile profiles /\ isActive profile = true /\
                   provider = createProviderFromProfile profile /\
                   match type profile with
                   | AnthropicCompatible => isClaudeModel lowerModel = true
                   | OpenaiCompatible =>
                       isClaudeModel lowerModel = false /\ isOpenAIModel lowerModel = true
                   end) proxies /\
       (isClaudeModel lowerModel = false -> isOpenAIModel lowerModel = false -> proxies = [])).
Proof.
  intros lowerModel. unfold getFallbackProviders. fold lowerModel. split.
  - intros e ->. reflexivity.
  - intros chain.
    destruct (getProviderForModel providerRegistry modelId) as [standard|e]; [|discriminate].
    cbn [bind]. intros [= <-].
    eexists _, standard. split; [reflexivity|]. split; [reflexivity|]. split.
    + unfold profileTypeFor.
      destruct (isClaudeModel lowerModel) eqn:Hclaude;
        [|destruct (isOpenAIModel lowerModel) eqn:Hopenai]; [| |constructor];
        apply Forall_forall; intros provider Hin;
        apply list_elem_of_In, in_map_iff in Hin as (profile & <- & Hprofile);
        apply filter_In in Hprofile as [Hin Hmatch];
        apply andb_true_iff in Hmatch as [Htype Hactive];
        exists profile; (split; [exact Hin|split; [exact Hactive|split; [reflexivity|]]]);
        destruct (type profile); try discriminate; auto.
    + intros Hclaude Hopenai. unfold profileTypeFor. now rewrite Hclaude, Hopenai.
Qed.

Lemma getFallbackProviders_proxies_witness :
  exists proxies standardProvider,
    [OpenAIProxyProvider sharedRemoteProfile; ExternalProvider "claude"] =
      proxies ++ [standardProvider] /\
    getProviderForModel sampleRegistry "gpt-4o" = Ok standardProvider.
Proof.
  destruct (proj2 (getFallbackProviders_proxies sampleRegistry "gpt-4o"
                     [profileA; sharedRemoteProfile])
              [OpenAIProxyProvider sharedRemoteProfile; ExternalProvider "claude"] eq_refl)
    as (proxies & standard & Hchain & Hstandard & _).
  exists proxies, standard. split; [exact Hchain|exact Hstandard].
Defined.

(** ** The profile service: updating and reading back *)

Lemma map_id_insert (l : list ProviderProfile) (i : nat) (x y : ProviderProfile) :
  l !! i = Some x -> id y = id x -> List.map id (<[i := y]> l) = List.map id l.
Proof.
  revert i. induction l as [|z l IH]; intros i; [reflexivity|].
  destruct i as [|i]; cbn.
  - intros [= ->] Hid. now rewrite Hid.
  - intros Hx Hid. f_equal. now apply IH.
Qed.

(** A successful update is [applyUpdate] at the first stored profile with
    the id. *)
Lemma updateProfile_success (newURL : string -> result URL) (isoNow : string)
  (input : UpdateProviderProfileInput) (w : World) (updated : ProviderProfile) :
  fst (updateProfile newURL isoNow input w) = Ok updated ->
  exists index existing w',
    findIndex (fun p => String.eqb (id p) (u_id input))
              (nullish (providerProfiles (stored w)) []) = Some index /\
    nullish (providerProfiles (stored w)) [] !! index = Some existing /\
    updateProfile newURL isoNow input w =
      applyUpdate isoNow input (nullish (providerProfiles (stored w)) []) index existing w'.
Proof.
  unfold updateProfile. cbn [getGlobalSettings].
  destruct (findIndex _ _) as [index|] eqn:Hfind; [|discriminate].
  destruct (findIndex_Some _ _ _ Hfind) as (existing & Hget & _). rewrite Hget.
  destruct (baseUrlChanging input existing) as [url|].
  - destruct (validateBaseUrlSsrf newURL url _) as [r|e]; [|discriminate].
    destruct (safe r); cbn [negb]; [|discriminate].
    intros _. eauto 6.
  - intros _. eauto 6.
Qed.

(** X21: after a successful [updateProfile], [getProfile] returns the
    profile the call returned for its id and every other id reads back as
    before; the stored profiles keep their ids and their order; the updated
    profile keeps the id, the creation time and the last connection test of
    the stored one, and a field the update does not supply keeps its stored
    value. *)
Theorem updateProfile_then_getProfile (newURL : string -> result URL) (isoNow : string)
  (input : UpdateProviderProfileInput) (w : World) (updated : ProviderProfile) :
  fst (updateProfile newURL isoNow input w) = Ok updated ->
  let after := snd (updateProfile newURL isoNow input w) in
  fst (getProfile (u_id input) after) = Some updated /\
  (forall other, other <> u_id input ->
     fst (getProfile other after) = fst (getProfile other w)) /\
  List.map id (nullish (providerProfiles (stored after)) []) =
    List.map id (nullish (providerProfiles (stored w)) []) /\
  exists existing,
    fst (getProfile (u_id input) w) = Some existing /\
    id updated = u_id input /\
    createdAt updated = createdAt existing /\
    lastConnectionTest updated = lastConnectionTest existing /\
    updatedAt updated = isoNow /\
    (u_name input = None -> name updated = name existing) /\
    (u_type input = None -> type updated = type existing) /\
    (u_baseUrl input = None -> baseUrl updated = baseUrl existing) /\
    (u_apiKey input = None -> apiKey updated = apiKey existing) /\
    (u_modelMapping input = None -> modelMapping updated = modelMapping existing) /\
    (u_isActive input = None -> isActive updated = isActive existing) /\
    (u_priority input = None -> priority updated = priority existing) /\
    (u_timeout input = None -> timeout updated = timeout existing) /\
    (u_description input = None -> description updated = description existing) /\
    (u_customCaCert input = None -> customCaCert updated = customCaCert existing) /\
    (u_allowInternalUrls input = None ->
       allowInternalUrls updated = allowInternalUrls existing) /\
    (u_rateLimitRpm input = None -> rateLimitRpm updated = rateLimitRpm existing).
Proof.
  intros Hok after. subst after.
  destruct (updateProfile_success _ _ _ _ _ Hok) as (index & existing & w' & Hfind & Hget & E).
  rewrite E in Hok |- *. clear E.
  pose proof (findIndex_find (fun p => String.eqb (id p) (u_id input))
                (nullish (providerProfiles (stored w)) [])) as Hfirst.
  rewrite Hfind in Hfirst. destruct Hfirst as (x & Hx & Hfound & Hid).
  assert (x = existing) as -> by congruence.
  apply String.eqb_eq in Hid.
  unfold applyUpdate in Hok |- *. cbn [fst snd] in Hok |- *. injection Hok as <-.
  unfold getProfile. cbn [getGlobalSettings updateGlobalSettings note stored fst snd
                            providerProfiles nullish].
  split; [|split; [|split]].
  - apply (find_insert_first _ _ _ existing); [exact Hfind|exact Hget|].
    cbn [id]. now apply String.eqb_eq.
  - intros other Hother.
    rewrite (find_insert_other _ _ _ existing); [|exact Hget| |].
    + now destruct (providerProfiles (stored w)).
    + apply String.eqb_neq. congruence.
    + cbn [id]. apply String.eqb_neq. congruence.
  - now apply (map_id_insert _ _ existing).
  - exists existing. cbn.
    split; [destruct (providerProfiles (stored w)); [exact Hfound|discriminate]|].
    repeat split; try assumption; try reflexivity; now intros ->.
Qed.

Lemma updateProfile_then_getProfile_witness :
  fst (getProfile "id-b"
         (snd (updateProfile sampleURL "2025-06-01T00:00:00.000Z"
                 (baseUrlUpdate "id-b" (Some "https://api.example.com"))
                 (worldWith [profileA; profileB])))) =
  Some {| id := "id-b"; name := "B"; type := AnthropicCompatible;
          baseUrl := "https://api.example.com"; apiKey := "sk-test";
          modelMapping := []; isActive := true; priority := 1;
          timeout := None; description := None; customCaCert := None;
          allowInternalUrls := None; rateLimitRpm := None; lastConnectionTest := None;
          createdAt := "2025-01-01T00:00:00.000Z";
          updatedAt := "2025-06-01T00:00:00.000Z" |}.
Proof.
  refine (proj1 (updateProfile_then_getProfile sampleURL "2025-06-01T00:00:00.000Z"
                   (baseUrlUpdate "id-b" (Some "https://api.example.com"))
                   (worldWith [profileA; profileB]) _ _)).
  vm_compute. reflexivity.
Defined.

(** ** The profile service: a new profile and the selection *)

(** An element with a priority above every other one's comes first. *)
Lemma head_stableSort_top (l : list ProviderProfile) (p : ProviderProfile) :
  In p l -> (forall q, In q l -> q = p \/ priority q < priority p) ->
  head (stableSort byPriorityDescending l) = Some p.
Proof.
  intros Hin Htop.
  pose proof (stableSort_permutation byPriorityDescending l) as Hperm.
  pose proof (stableSort_priority_sorted l) as Hsorted.
  assert (In p (stableSort byPriorityDescending l)) as Hp
    by (apply (Permutation_in _ (Permutation_sym Hperm)); exact Hin).
  destruct (stableSort byPriorityDescending l) as [|h rest]; [destruct Hp|].
  cbn [head]. f_equal.
  destruct (Htop h) as [->|Hlower]; [apply (Permutation_in _ Hperm); now left|reflexivity|].
  destruct Hp as [->|Hp]; [reflexivity|].
  inversion Hsorted as [|? ? _ Hall]; subst.
  rewrite Forall_forall in Hall. apply list_elem_of_In, Hall in Hp.
  unfold priorityDescending in Hp. lia.
Qed.

(** X22: a profile that [createProfile] has stored, created with no
    priority and not created inactive, beside stored profiles whose highest
    priority is below [2^53] in magnitude, is what [getActiveProfile] then
    returns for its type and the first element of
    [getActiveProfilesByType]: its priority is above every stored
    profile's. *)
Theorem createProfile_becomes_active (newURL : string -> result URL)
  (randomUUID isoNow : string) (input : CreateProviderProfileInput) (w : World)
  (profile : ProviderProfile) :
  fst (createProfile newURL randomUUID isoNow input w) = Ok profile ->
  c_priority input = None ->
  c_isActive input <> Some false ->
  - 2 ^ 53 <= maxPriorityOf (nullish (providerProfiles (stored w)) []) < 2 ^ 53 ->
  let after := snd (createProfile newURL randomUUID isoNow input w) in
  fst (getActiveProfile (c_type input) after) = Some profile /\
  head (fst (getActiveProfilesByType (c_type input) after)) = Some profile /\
  fst (hasActiveProfiles (c_type input) after) = true /\
  Forall (fun q => priority q < priority profile) (nullish (providerProfiles (stored w)) []).
Proof.
  intros Hok Hpriority Hactive Hrange after. subst after.
  destruct (createProfile_success _ _ _ _ _ _ Hok)
    as (_ & _ & Htype & _ & _ & _ & Hact & Hprio & Hstored).
  rewrite Hpriority in Hprio. cbn [nullish] in Hprio.
  rewrite (plusOne_exact _ Hrange) in Hprio.
  assert (isActive profile = true) as Hact'
    by (rewrite Hact; destruct (c_isActive input) as [[|]|]; (reflexivity || congruence)).
  assert (Forall (fun q => priority q < priority profile)
                 (nullish (providerProfiles (stored w)) [])) as Hbelow.
  { eapply Forall_impl; [apply maxPriorityOf_bounds|].
    intros q Hq. cbn beta in Hq. lia. }
  assert (head (stableSort byPriorityDescending
                  (List.filter (isActiveOfType (c_type input))
                     (nullish (providerProfiles (stored w)) [] ++ [profile]))) = Some profile)
    as Hhead.
  { apply head_stableSort_top.
    - apply List.filter_In. split; [apply in_or_app; right; now left|].
      unfold isActiveOfType. rewrite Htype, Hact'. now destruct (c_type input).
    - intros q Hq. apply List.filter_In in Hq as [Hq _].
      apply in_app_or in Hq as [Hq|[<-|[]]]; [right|now left].
      rewrite Forall_forall in Hbelow. apply Hbelow. now apply list_elem_of_In. }
  unfold hasActiveProfiles, getActiveProfile, getActiveProfilesByType.
  cbn [getGlobalSettings fst snd]. rewrite Hstored. cbn [providerProfiles nullish].
  rewrite Hhead. auto.
Qed.

Lemma createProfile_becomes_active_witness :
  exists profile,
    fst (getActiveProfile AnthropicCompatible
           (snd (createProfile sampleURL "id-new" "2025-06-01T00:00:00.000Z"
                   (sampleCreate "https://api.example.com" None)
                   (worldWith [profileA; profileB])))) = Some profile /\
    priority profile = 3.
Proof.
  eexists. split.
  - refine (proj1 (createProfile_becomes_active sampleURL "id-new" "2025-06-01T00:00:00.000Z"
                     (sampleCreate "https://api.example.com" None)
                     (worldWith [profileA; profileB]) _ _ _ _ _)).
    + vm_compute. reflexivity.
    + reflexivity.
    + discriminate.
    + vm_compute. split; [intros H; discriminate H|reflexivity].
  - reflexivity.
Defined.

(** At [2^53] the sum is the maximum itself, and the stored profile stays
    the active one: the sort is stable. *)
Example createProfile_beside_the_largest_priority :
  let stored53 := sampleProfile "id-a" "A" AnthropicCompatible true (2 ^ 53) [] in
  fst (getActiveProfile AnthropicCompatible
         (snd (createProfile sampleURL "id-new" "2025-06-01T00:00:00.000Z"
                 (sampleCreate "https://api.example.com" None)
                 (worldWith [stored53])))) = Some stored53.
Proof. reflexivity. Qed.

(** ** The response stream: reads and lines *)

Lemma cut_line (line : string) :
  noNewline line = true ->
  forall rest, cut (line +:+ String LF rest) = (line :: fst (cut rest), snd (cut rest)).
Proof.
  induction line as [|c line IH]; intros Hline rest.
  - rewrite append_nil, cut_cons. now rewrite Ascii.eqb_refl.
  - cbn [noNewline] in Hline. apply andb_true_iff in Hline as [Hc Hline].
    apply negb_true_iff in Hc.
    rewrite append_cons, cut_cons, Hc, (IH Hline). reflexivity.
Qed.

Lemma cut_noNewline (s : string) :
  Forall (fun line => noNewline line = true) (fst (cut s)) /\ noNewline (snd (cut s)) = true.
Proof.
  induction s as [|c s [IHlines IHrest]]; [split; [constructor|reflexivity]|].
  rewrite cut_cons. destruct (Ascii.eqb c LF) eqn:Hc; cbn [fst snd].
  - split; [constructor; [reflexivity|exact IHlines]|exact IHrest].
  - destruct (fst (cut s)) as [|line lines]; cbn [fst snd].
    + split; [constructor|]. cbn [noNewline]. now rewrite Hc, IHrest.
    + inversion IHlines as [|? ? Hline Hlines]; subst.
      split; [|exact IHrest]. constructor; [|exact Hlines].
      cbn [noNewline]. now rewrite Hc, Hline.
Qed.

(** Lines sent one per read are the lines read. *)
Lemma cut_one_per_read (lines : list string) :
  Forall (fun line => noNewline line = true) lines ->
  cut (joined (List.map (fun line => line +:+ String LF EmptyString) lines)) =
    (lines, EmptyString).
Proof.
  induction 1 as [|line lines Hline _ IH]; [reflexivity|].
  cbn [List.map joined fold_right].
  fold (joined (List.map (fun line => line +:+ String LF EmptyString) lines)).
  rewrite append_associative, append_cons, append_nil, (cut_line _ Hline), IH.
  reflexivity.
Qed.

Lemma processLines_data_lines (sessionId : string) (lines : list string) :
  forall d, processLines sessionId lines d =
            processLines sessionId (List.filter isDataLine lines) d.
Proof.
  induction lines as [|line lines IH]; intros d; [reflexivity|].
  cbn [List.filter]. destruct (isDataLine line) eqn:E; cbn [processLines].
  - destruct (processLine sessionId line d); [apply IH|reflexivity].
  - unfold processLine. unfold isDataLine in E. rewrite E. apply IH.
Qed.

Lemma decodeStream_lines (now : Z) (chunks : list string) :
  decodeStream now chunks =
  match processLines ("openai-" +:+ show_Z now) (fst (cut (joined chunks)))
          (mkDecoder EmptyString [] [] []) with
  | Some d =>
      Some (yielded d ++
            [ResultMessage "success" ("openai-" +:+ show_Z now) (accumulatedContent d)])
  | None => None
  end.
Proof.
  unfold decodeStream. rewrite readLoop_joined by reflexivity. now rewrite append_nil.
Qed.

(** X23: what the generator yields depends on the body only through its
    complete [data: ] lines: however the body is cut into reads, the
    messages are those of the body whose reads are these lines, one per
    read.  Text after the last line feed is never decoded, and lines that do
    not start with [data: ] change nothing.  In particular two bodies with
    the same text give the same messages. *)
Theorem decodeStream_complete_data_lines (now : Z) (chunks : list string) :
  let dataLines :=
    List.filter isDataLine (removelast (split_newline (joined chunks))) in
  decodeStream now chunks =
    decodeStream now (List.map (fun line => line +:+ String LF EmptyString) dataLines) /\
  (forall chunks', joined chunks' = joined chunks ->
     decodeStream now chunks' = decodeStream now chunks).
Proof.
  intros dataLines. split.
  - rewrite !decodeStream_lines.
    rewrite cut_one_per_read.
    + cbn [fst]. now rewrite (processLines_data_lines _ (fst (cut (joined chunks)))).
    + subst dataLines. apply Forall_forall. intros line Hline.
      apply list_elem_of_In, List.filter_In in Hline as [Hline _].
      pose proof (proj1 (cut_noNewline (joined chunks))) as Hall.
      rewrite Forall_forall in Hall. apply Hall. now apply list_elem_of_In.
  - intros chunks' Hjoined. rewrite !decodeStream_lines. now rewrite Hjoined.
Qed.

Lemma decodeStream_complete_data_lines_witness :
  decodeStream 1700000000000
    [String.substring 0 40 sseExample; EmptyString; String.substring 40 200 sseExample] =
  decodeStream 1700000000000 [sseExample].
Proof.
  apply (proj2 (decodeStream_complete_data_lines 1700000000000 [sseExample])).
  vm_compute. reflexivity.
Defined.

(** ** The model mapper: case and names without an entry *)

(** X25: the mapper looks a name up ignoring its case and passes a name
    without an entry through as it is: two names equal ignoring case are
    mapped to the same remote model, that of an entry, whenever some entry
    has that local name ignoring case; a name no entry has is returned
    unchanged.  The same holds from remote to local. *)
Theorem mapModel_ignores_case (p : ProviderProfile) (m m' : string) :
  toLowerCase m = toLowerCase m' ->
  ((exists e, In e (modelMapping p) /\ toLowerCase (localModel e) = toLowerCase m) ->
     mapModelToRemote m p = mapModelToRemote m' p /\
     exists e, In e (modelMapping p) /\ mapModelToRemote m p = remoteModel e) /\
  ((forall e, In e (modelMapping p) -> toLowerCase (localModel e) <> toLowerCase m) ->
     mapModelToRemote m p = m) /\
  ((exists e, In e (modelMapping p) /\ toLowerCase (remoteModel e) = toLowerCase m) ->
     mapModelFromRemote m p = mapModelFromRemote m' p /\
     exists e, In e (modelMapping p) /\ mapModelFromRemote m p = localModel e) /\
  ((forall e, In e (modelMapping p) -> toLowerCase (remoteModel e) <> toLowerCase m) ->
     mapModelFromRemote m p = m).
Proof.
  intros Hcase. unfold mapModelToRemote, mapModelFromRemote. rewrite <- Hcase.
  split; [|split; [|split]].
  - intros (e & He & Hlocal).
    destruct (List.find _ (modelMapping p)) as [found|] eqn:E.
    + split; [reflexivity|]. exists found. split; [|reflexivity].
      now apply List.find_some in E as [Hin _].
    + apply (List.find_none _ _ E) in He. apply String.eqb_neq in He. contradiction.
  - intros Hnone.
    destruct (List.find _ (modelMapping p)) as [found|] eqn:E; [|reflexivity].
    apply List.find_some in E as [Hin Hfound]. apply String.eqb_eq in Hfound.
    now apply Hnone in Hin.
  - intros (e & He & Hremote).
    destruct (List.find _ (modelMapping p)) as [found|] eqn:E.
    + split; [reflexivity|]. exists found. split; [|reflexivity].
      now apply List.find_some in E as [Hin _].
    + apply (List.find_none _ _ E) in He. apply String.eqb_neq in He. contradiction.
  - intros Hnone.
    destruct (List.find _ (modelMapping p)) as [found|] eqn:E; [|reflexivity].
    apply List.find_some in E as [Hin Hfound]. apply String.eqb_eq in Hfound.
    now apply Hnone in Hin.
Qed.

Lemma mapModel_ignores_case_witness :
  mapModelToRemote "Claude-3-Opus" opusProfile = mapModelToRemote "claude-3-opus" opusProfile.
Proof.
  apply (proj1 (mapModel_ignores_case opusProfile "Claude-3-Opus" "claude-3-opus" eq_refl)).
  exists (mkMapping "claude-3-opus" "proxy-claude-opus-v1"). split; [now left|reflexivity].
Defined.

(** ** The SSRF guard: the other internal hosts *)

Lemma lang_RLitI (s : string) : lang (RLitI s) s.
Proof.
  induction s as [|c s IH]; cbn [RLitI]; [constructor|].
  change (String c s) with (String c EmptyString +:+ s).
  constructor; [|exact IH]. constructor. apply Ascii.eqb_refl.
Qed.

Lemma lang_AnyTail (s : string) : lang AnyTail s.
Proof.
  unfold AnyTail. induction s as [|c s IH]; [constructor|].
  change (String c s) with (String c EmptyString +:+ s).
  constructor; [|exact IH]. now constructor.
Qed.

Lemma lang_ROpt_none (r : regex) : lang (ROpt r) EmptyString.
Proof. apply lang_alt_r. constructor. Qed.

(** A name that starts with one of the three IPv6 prefixes, after an
    optional opening bracket. *)
Lemma lang_prefixed (bracket prefix tail : string) :
  bracket = EmptyString \/ bracket = "[" ->
  lang (RConcat [ROpt (RChar "["); RLitI prefix; AnyTail]) (bracket +:+ prefix +:+ tail).
Proof.
  intros Hbracket. cbn [RConcat].
  rewrite <- (append_empty_r tail).
  apply lang_seq; [|apply lang_seq; [apply lang_RLitI|apply lang_seq; [apply lang_AnyTail|constructor]]].
  destruct Hbracket as [-> | ->]; [apply lang_ROpt_none|].
  apply lang_alt_l. now constructor.
Qed.

Lemma existsb_test (pattern : regex) (patterns : list regex) (host : string) :
  In pattern patterns -> lang pattern host ->
  existsb (fun pattern => test pattern host) patterns = true.
Proof.
  intros Hin Hlang. apply existsb_exists. exists pattern.
  split; [exact Hin|]. now apply matches_complete.
Qed.

Lemma lang_second_octet (n : Z) :
  16 <= n <= 31 ->
  lang (RAlt (RSeq (RChar "1") (RRange "6" "9"))
             (RAlt (RSeq (RChar "2") RDigit) (RSeq (RChar "3") (RRange "0" "1"))))
       (show_Z n).
Proof.
  intros Hn.
  assert (n = 16 \/ n = 17 \/ n = 18 \/ n = 19 \/ n = 20 \/ n = 21 \/ n = 22 \/ n = 23 \/
          n = 24 \/ n = 25 \/ n = 26 \/ n = 27 \/ n = 28 \/ n = 29 \/ n = 30 \/ n = 31)
    as Hcases by lia.
  repeat (destruct Hcases as [-> | Hcases]); try subst n;
    match goal with
    | |- lang _ (show_Z ?k) =>
        let s := eval vm_compute in (show_Z k) in
        change (show_Z k) with s
    end;
    match goal with
    | |- lang _ (String ?a (String ?b EmptyString)) =>
        change (String a (String b EmptyString))
          with (String a EmptyString +:+ String b EmptyString)
    end;
    first
      [ apply lang_alt_l; apply lang_seq; constructor; reflexivity
      | apply lang_alt_r; apply lang_alt_l; apply lang_seq; constructor; reflexivity
      | apply lang_alt_r; apply lang_alt_r; apply lang_seq; constructor; reflexivity ].
Qed.

Lemma internalOther_matched (host : string) :
  internalOther host -> existsb (fun pattern => test pattern host) internalPatterns = true.
Proof.
  intros [Hname|[(prefix & tail & Hprefix & ->)|(n & b & c & Hn & Hb & Hc & ->)]].
  - cbn [In] in Hname.
    destruct Hname as [<-|[<-|[<-|[<-|[<-|[<-|[]]]]]]]; vm_compute; reflexivity.
  - cbn [In] in Hprefix.
    destruct Hprefix as [<-|[<-|[<-|[<-|[<-|[<-|[]]]]]]].
    + apply (existsb_test (RConcat [ROpt (RChar "["); RLitI "fe80:"; AnyTail]));
        [unfold internalPatterns; cbn [In]; tauto|].
      apply (lang_prefixed EmptyString "fe80:" tail). now left.
    + apply (existsb_test (RConcat [ROpt (RChar "["); RLitI "fc00:"; AnyTail]));
        [unfold internalPatterns; cbn [In]; tauto|].
      apply (lang_prefixed EmptyString "fc00:" tail). now left.
    + apply (existsb_test (RConcat [ROpt (RChar "["); RLitI "fd00:"; AnyTail]));
        [unfold internalPatterns; cbn [In]; tauto|].
      apply (lang_prefixed EmptyString "fd00:" tail). now left.
    + apply (existsb_test (RConcat [ROpt (RChar "["); RLitI "fe80:"; AnyTail]));
        [unfold internalPatterns; cbn [In]; tauto|].
      apply (lang_prefixed "[" "fe80:" tail). now right.
    + apply (existsb_test (RConcat [ROpt (RChar "["); RLitI "fc00:"; AnyTail]));
        [unfold internalPatterns; cbn [In]; tauto|].
      apply (lang_prefixed "[" "fc00:" tail). now right.
    + apply (existsb_test (RConcat [ROpt (RChar "["); RLitI "fd00:"; AnyTail]));
        [unfold internalPatterns; cbn [In]; tauto|].
      apply (lang_prefixed "[" "fd00:" tail). now right.
  - eapply existsb_test.
    + unfold internalPatterns. cbn [In]. do 4 right. left. reflexivity.
    + cbn [RConcat].
      apply lang_dotDigits in Hb, Hc.
      change ("172." +:+ show_Z n +:+ "." +:+ b +:+ "." +:+ c)
        with ("172." +:+ (show_Z n +:+ (("." +:+ b) +:+ ("." +:+ c)))).
      rewrite <- (append_empty_r ("." +:+ c)).
      apply lang_seq; [apply lang_RLit|].
      apply lang_seq; [now apply lang_second_octet|].
      apply lang_seq; [exact Hb|]. apply lang_seq; [exact Hc|constructor].
Qed.

(** X26: an [http] or [https] URL whose hostname, lower-cased, is
    [localhost], [0.0.0.0], the IPv6 loopback, a name starting with [fe80:],
    [fc00:] or [fd00:] (after an optional opening bracket), or [172.n.b.c]
    with [n] from 16 to 31, is refused with the reason naming the lower-cased
    hostname, and accepted with the bypass mark exactly when the caller
    allows internal URLs. *)
Theorem validateBaseUrlSsrf_other_internal_hosts (newURL : string -> result URL)
  (url : string) (parsed : URL) (allow : option bool) :
  newURL url = Ok parsed ->
  protocol parsed = "http:" \/ protocol parsed = "https:" ->
  internalOther (toLowerCase (hostname parsed)) ->
  validateBaseUrlSsrf newURL url allow =
    Ok (if nullish allow false then mkSsrf true None (Some true)
        else mkSsrf false (Some (internalReason (toLowerCase (hostname parsed)))) None).
Proof.
  intros Hparsed Hprotocol Hhost.
  unfold validateBaseUrlSsrf. rewrite Hparsed. cbn [bind try_catch].
  assert (existsb (String.eqb (protocol parsed)) ["http:"; "https:"] = true) as ->
    by (destruct Hprotocol as [-> | ->]; reflexivity).
  cbn [negb].
  now rewrite (scanPatterns_hit _ _ _ (internalOther_matched _ Hhost)).
Qed.

Lemma validateBaseUrlSsrf_other_internal_hosts_witness :
  validateBaseUrlSsrf sampleURL "http://[FD00:ec2::254]/latest" (Some false) =
    Ok (mkSsrf false (Some (internalReason "[fd00:ec2::254]")) None).
Proof.
  apply (validateBaseUrlSsrf_other_internal_hosts sampleURL "http://[FD00:ec2::254]/latest"
           (mkURL "http:" "[fd00:ec2::254]") (Some false)).
  - reflexivity.
  - left. reflexivity.
  - right. left. exists "[fd00:", "ec2::254]". split; [|reflexivity].
    cbn [In]. do 5 right. left. reflexivity.
Defined.
